(** * AICAD: the shape-editing engine and the PDF annotation layer

    A shallow embedding of [annotations.py] and of the state-carrying part of
    [drawing_canvas.py], with the properties of the specification stated
    and settled against it.

    Conventions of the embedding.
    - Python numbers are modelled as real numbers ([R]): arithmetic is exact,
      [math.sqrt] is [sqrt], [abs] is [Rabs], [min]/[max] are [Rmin]/[Rmax].
      Comparisons are the decidable comparisons of [R].  [float('inf')] as the
      start value of a running minimum is [None] in an [option R].
      Rounding is not modelled.  Where the result of the program depends on
      it, the embedding gives the result of exact arithmetic: the last bits
      of a computed intersection point, the outcome of an equality test
      between computed square roots such as [d == r1 + r2], an argument of
      [math.acos] that rounding takes just outside [-1, 1] (ValueError in
      the program).  The properties that rest on exact arithmetic say so.
      Module [Binary64] gives [get_line_line_intersection] and
      [get_circle_circle_intersection] a second time, over binary64 numbers,
      to evaluate them where rounding decides.
    - Python objects compared by identity (shapes, annotations, [Point]
      objects held by annotations) live in a store indexed by references;
      the lists of the program hold references.  A reference always denotes
      an object, hence the total lookup [!!!].
    - Tuples are immutable and are modelled by value.
    - Calls into tkinter that only render ([redraw], [update_preview],
      [create_line], [delete] by tag, logging) read the state of the drawing
      canvas and never write it; they are left out.  The [draw] and
      highlight methods of the annotations assign the item ids and the
      measured text size that tkinter hands back; the fields are kept, the
      methods are not modelled. *)

From Stdlib Require Import Reals Lra Lia ZArith List Ascii String.
From Stdlib Require PrimFloat.
From stdpp Require Import gmap strings.

Local Open Scope R_scope.

(** ** Numbers *)

Global Instance Rle_decision : RelDecision Rle := Rle_dec.
Global Instance Rlt_decision : RelDecision Rlt := Rlt_dec.
Global Instance Rgt_decision : RelDecision Rgt := Rgt_dec.
Global Instance R_eq_decision : EqDecision R := Req_dec_T.

(** [d < m] where [m] is a running minimum that starts at [float('inf')]. *)
Definition lt_running (d : R) (m : option R) : bool :=
  match m with
  | None => true
  | Some v => bool_decide (d < v)
  end.

(** Python's [max(a, b, c)]. *)
Definition max3 (a b c : R) : R := Rmax (Rmax a b) c.

(** ** Python lists of references *)

Abbreviation ref := nat (only parsing).

(** [l.remove(x)]: drops the first occurrence, [None] stands for ValueError. *)
Fixpoint py_remove (x : nat) (l : list nat) : option (list nat) :=
  match l with
  | [] => None
  | y :: l' =>
      if decide (y = x) then Some l'
      else match py_remove x l' with
           | Some r => Some (y :: r)
           | None => None
           end
  end.

(** [l.index(x)]: position of the first occurrence, [None] for ValueError. *)
Fixpoint py_index (x : nat) (l : list nat) : option nat :=
  match l with
  | [] => None
  | y :: l' =>
      if decide (y = x) then Some O
      else match py_index x l' with
           | Some i => Some (S i)
           | None => None
           end
  end.

(** [l.insert(i, x)] for [i < len(l)]. *)
Fixpoint py_insert (i : nat) (x : nat) (l : list nat) : list nat :=
  match i, l with
  | O, _ => x :: l
  | S i', y :: l' => y :: py_insert i' x l'
  | S _, [] => [x]
  end.

(** [x in l] *)
Definition py_in (x : nat) (l : list nat) : bool := bool_decide (x ∈ l).

(** * annotations.py *)

Module Annotations.

(** [@dataclass class Point] *)
Record Point := mkPoint { px : R; py : R }.

Global Instance Point_inhabited : Inhabited Point := populate (mkPoint 0 0).

Definition Point_add (a b : Point) : Point := mkPoint (px a + px b) (py a + py b).
Definition Point_sub (a b : Point) : Point := mkPoint (px a - px b) (py a - py b).

Definition distance_to (a b : Point) : R :=
  sqrt ((px a - px b) ^ 2 + (py a - py b) ^ 2).

(** [class BoundingBox]; a box is always built from two fresh points and
    only read afterwards, so it is kept by value. *)
Record BoundingBox := mkBox { min_point : Point; max_point : Point }.

(** [BoundingBox.contains_point] *)
Definition contains_point (b : BoundingBox) (point : Point) (threshold : R) : bool :=
  if bool_decide (px (min_point b) <= px point) && bool_decide (px point <= px (max_point b))
     && bool_decide (py (min_point b) <= py point) && bool_decide (py point <= py (max_point b))
  then true
  else
    let dx := max3 (px (min_point b) - px point) 0 (px point - px (max_point b)) in
    let dy := max3 (py (min_point b) - py point) 0 (py point - py (max_point b)) in
    let distance := sqrt (dx * dx + dy * dy) in
    bool_decide (distance <= threshold).

(** [class Annotation(ABC)]: the attributes set by [Annotation.__init__]. *)
Record Base := mkBase {
  color : string;
  width : Z;
  id : option Z;
  is_selected : bool;
  highlight_id : option Z
}.

Definition Annotation_init (color : string) (width : Z) : Base :=
  mkBase color width None false None.

(** The three concrete classes.  [start], [end] and [position] are
    references to the [Point] objects handed to the constructor. *)
Inductive Annotation :=
| LineAnnotation (base : Base) (start end_ : ref) (is_horizontal : bool)
| RectangleAnnotation (base : Base) (start end_ : ref)
| TextAnnotation (base : Base) (position : ref) (text : string) (font_size : Z)
                 (text_width text_height : R).

Definition base_of (a : Annotation) : Base :=
  match a with
  | LineAnnotation b _ _ _ => b
  | RectangleAnnotation b _ _ => b
  | TextAnnotation b _ _ _ _ _ => b
  end.

Definition with_base (f : Base -> Base) (a : Annotation) : Annotation :=
  match a with
  | LineAnnotation b s e h => LineAnnotation (f b) s e h
  | RectangleAnnotation b s e => RectangleAnnotation (f b) s e
  | TextAnnotation b p t fs tw th => TextAnnotation (f b) p t fs tw th
  end.

Definition set_is_selected (v : bool) (b : Base) : Base :=
  mkBase (color b) (width b) (id b) v (highlight_id b).

(** [is_horizontal] is an attribute of lines only. *)
Definition is_horizontal_of (a : Annotation) : option bool :=
  match a with
  | LineAnnotation _ _ _ h => Some h
  | _ => None
  end.

Global Instance Annotation_inhabited : Inhabited Annotation :=
  populate (RectangleAnnotation (Annotation_init "black" 1) O O).

(** The object store together with the manager's two lists
    ([AnnotationManager.annotations], [.selected_annotations]). *)
Record World := mkWorld {
  points : gmap nat Point;
  objects : gmap nat Annotation;
  next_ref : nat;
  annotations : list nat;
  selected_annotations : list nat
}.

Definition point_at (w : World) (r : ref) : Point := points w !!! r.
Definition object_at (w : World) (r : ref) : Annotation := objects w !!! r.

Definition set_points (ps : gmap nat Point) (w : World) : World :=
  mkWorld ps (objects w) (next_ref w) (annotations w) (selected_annotations w).
Definition set_objects (os : gmap nat Annotation) (w : World) : World :=
  mkWorld (points w) os (next_ref w) (annotations w) (selected_annotations w).
Definition set_annotations (l : list nat) (w : World) : World :=
  mkWorld (points w) (objects w) (next_ref w) l (selected_annotations w).
Definition set_selected_annotations (l : list nat) (w : World) : World :=
  mkWorld (points w) (objects w) (next_ref w) (annotations w) l.

(** [p.x += dx] and friends on a [Point] object. *)
Definition add_x (r : ref) (dx : R) (ps : gmap nat Point) : gmap nat Point :=
  <[r := mkPoint (px (ps !!! r) + dx) (py (ps !!! r))]> ps.
Definition add_y (r : ref) (dy : R) (ps : gmap nat Point) : gmap nat Point :=
  <[r := mkPoint (px (ps !!! r)) (py (ps !!! r) + dy)]> ps.
Definition assign_y (r : ref) (v : R) (ps : gmap nat Point) : gmap nat Point :=
  <[r := mkPoint (px (ps !!! r)) v]> ps.

(** Object creation: the new object takes the next free reference. *)
Definition alloc (a : Annotation) (w : World) : World * ref :=
  (mkWorld (points w) (<[next_ref w := a]> (objects w)) (S (next_ref w))
           (annotations w) (selected_annotations w),
   next_ref w).

(** [LineAnnotation.__init__] *)
Definition LineAnnotation_init (w : World) (start end_ : ref) (color : string) (width : Z)
  : World * ref :=
  alloc (LineAnnotation (Annotation_init color width) start end_
           (bool_decide (Rabs (py (point_at w start) - py (point_at w end_)) < 2))) w.

(** [RectangleAnnotation.__init__] *)
Definition RectangleAnnotation_init (w : World) (start end_ : ref) (color : string) (width : Z)
  : World * ref :=
  alloc (RectangleAnnotation (Annotation_init color width) start end_) w.

(** [TextAnnotation.__init__] *)
Definition TextAnnotation_init (w : World) (position : ref) (text color : string)
    (font_size : Z) : World * ref :=
  alloc (TextAnnotation (Annotation_init color 1) position text font_size 0 0) w.

(** [LineAnnotation.move], [RectangleAnnotation.move], [TextAnnotation.move]:
    the statements of the source in their order, on the point store. *)
Definition move_points (a : Annotation) (dx dy : R) (ps : gmap nat Point) : gmap nat Point :=
  match a with
  | LineAnnotation _ start end_ is_horizontal =>
      if is_horizontal then
        let ps1 := add_x start dx ps in
        let ps2 := add_x end_ dx ps1 in
        let ps3 := add_y start dy ps2 in
        assign_y end_ (py (ps3 !!! start)) ps3
      else
        let ps1 := add_x start dx ps in
        let ps2 := add_y start dy ps1 in
        let ps3 := add_x end_ dx ps2 in
        add_y end_ dy ps3
  | RectangleAnnotation _ start end_ =>
      let ps1 := add_x start dx ps in
      let ps2 := add_y start dy ps1 in
      let ps3 := add_x end_ dx ps2 in
      add_y end_ dy ps3
  | TextAnnotation _ position _ _ _ _ =>
      let ps1 := add_x position dx ps in
      add_y position dy ps1
  end.

(** [annotation.move(dx, dy)] on the object behind a reference. *)
Definition move (w : World) (a : ref) (dx dy : R) : World :=
  set_points (move_points (object_at w a) dx dy (points w)) w.

(** [get_bounding_box] of the three classes. *)
Definition get_bounding_box (w : World) (a : Annotation) : BoundingBox :=
  match a with
  | LineAnnotation _ start end_ _
  | RectangleAnnotation _ start end_ =>
      let s := point_at w start in
      let e := point_at w end_ in
      mkBox (mkPoint (Rmin (px s) (px e)) (Rmin (py s) (py e)))
            (mkPoint (Rmax (px s) (px e)) (Rmax (py s) (py e)))
  | TextAnnotation _ position _ _ tw th =>
      let p := point_at w position in
      mkBox (mkPoint (px p) (py p)) (mkPoint (px p + tw) (py p + th))
  end.

(** [LineAnnotation.contains_point] *)
Definition line_contains_point (s e point : Point) (threshold : R) : bool :=
  if bool_decide (distance_to s e < 0.1) then
    bool_decide (distance_to s point < threshold)
  else
    let dx := px e - px s in
    let dy := py e - py s in
    let l2 := dx * dx + dy * dy in
    let t := Rmax 0 (Rmin 1 (((px point - px s) * dx + (py point - py s) * dy) / l2)) in
    let proj_x := px s + t * dx in
    let proj_y := py s + t * dy in
    let dist := sqrt ((px point - proj_x) ^ 2 + (py point - proj_y) ^ 2) in
    bool_decide (dist < threshold).

(** [annotation.contains_point(point, threshold)] by class. *)
Definition ann_contains_point (w : World) (a : Annotation) (point : Point) (threshold : R)
  : bool :=
  match a with
  | LineAnnotation _ start end_ _ =>
      line_contains_point (point_at w start) (point_at w end_) point threshold
  | RectangleAnnotation _ _ _
  | TextAnnotation _ _ _ _ _ _ =>
      contains_point (get_bounding_box w a) point threshold
  end.

(** [AnnotationManager.add_annotation] *)
Definition add_annotation (w : World) (a : ref) : World :=
  set_annotations (annotations w ++ [a]) w.

(** [AnnotationManager.remove_annotation] *)
Definition remove_annotation (w : World) (a : ref) : World :=
  if py_in a (annotations w) then
    let w1 := set_annotations (default (annotations w) (py_remove a (annotations w))) w in
    if py_in a (selected_annotations w1) then
      set_selected_annotations
        (default (selected_annotations w1) (py_remove a (selected_annotations w1))) w1
    else w1
  else w.

(** [annotation.is_selected = v] *)
Definition write_is_selected (a : ref) (v : bool) (w : World) : World :=
  set_objects (<[a := with_base (set_is_selected v) (object_at w a)]> (objects w)) w.

(** [AnnotationManager.clear_selection] *)
Definition clear_selection (w : World) : World :=
  let w1 := fold_left (fun acc a => write_is_selected a false acc) (selected_annotations w) w in
  set_selected_annotations [] w1.

(** The [for annotation in reversed(self.annotations)] loop of
    [select_annotation]; the list argument is what is left to visit. *)
Fixpoint select_scan (w : World) (point : Point) (todo : list nat)
    (target_annotation : option nat) (min_distance : option R) : option nat :=
  match todo with
  | [] => target_annotation
  | annotation :: rest =>
      if ann_contains_point w (object_at w annotation) point 5 then
        if py_in annotation (selected_annotations w) then Some annotation
        else
          let bbox := get_bounding_box w (object_at w annotation) in
          let dist := Rmin
              (distance_to point (mkPoint (px (min_point bbox)) (py (min_point bbox))))
              (distance_to point (mkPoint (px (max_point bbox)) (py (max_point bbox)))) in
          if lt_running dist min_distance
          then select_scan w point rest (Some annotation) (Some dist)
          else select_scan w point rest target_annotation min_distance
      else select_scan w point rest target_annotation min_distance
  end.

(** [AnnotationManager.select_annotation]; returns the new state and the
    returned annotation. *)
Definition select_annotation (w : World) (point : Point) (ctrl_pressed : bool)
  : World * option nat :=
  match select_scan w point (rev (annotations w)) None None with
  | None => (if ctrl_pressed then w else clear_selection w, None)
  | Some target_annotation =>
      if ctrl_pressed then
        if py_in target_annotation (selected_annotations w) then
          let w1 := set_selected_annotations
                      (default (selected_annotations w)
                               (py_remove target_annotation (selected_annotations w))) w in
          (write_is_selected target_annotation false w1, Some target_annotation)
        else
          let w1 := set_selected_annotations
                      (selected_annotations w ++ [target_annotation]) w in
          (write_is_selected target_annotation true w1, Some target_annotation)
      else
        let w1 := clear_selection w in
        let w2 := set_selected_annotations
                    (selected_annotations w1 ++ [target_annotation]) w1 in
        (write_is_selected target_annotation true w2, Some target_annotation)
  end.

(** The inner [for annotation in reversed(self.annotations)] loop of
    [select_multiple], left at the first match by [break]. *)
Fixpoint select_first (w : World) (point : Point) (todo : list nat) : World :=
  match todo with
  | [] => w
  | annotation :: rest =>
      if ann_contains_point w (object_at w annotation) point 5
         && negb (py_in annotation (selected_annotations w))
      then
        write_is_selected annotation true
          (set_selected_annotations (selected_annotations w ++ [annotation]) w)
      else select_first w point rest
  end.

(** [AnnotationManager.select_multiple] *)
Definition select_multiple (w : World) (pts : list Point) (ctrl_pressed : bool) : World :=
  let w0 := if ctrl_pressed then w else clear_selection w in
  fold_left (fun acc point => select_first acc point (rev (annotations acc))) pts w0.

(** [AnnotationManager.move_selected] *)
Definition move_selected (w : World) (dx dy : R) : World :=
  fold_left (fun acc a => move acc a dx dy) (selected_annotations w) w.

(** The flag and the list agree on every annotation of the collection. *)
Definition selection_synced (w : World) : Prop :=
  ∀ a, a ∈ annotations w →
       (is_selected (base_of (object_at w a)) = true ↔ a ∈ selected_annotations w).

(** ** Notions used by the statements *)

(** The selection flag of the object behind a reference. *)
Definition flag (w : World) (a : ref) : bool := is_selected (base_of (object_at w a)).

(** The flag and the list agree, and the list holds nothing twice. *)
Definition synced (w : World) : Prop :=
  selection_synced w ∧ NoDup (selected_annotations w).

(** ** Example data *)

(** The box (0,0)-(10,10). *)
Definition unit_box : BoundingBox := mkBox (mkPoint 0 0) (mkPoint 10 10).

(** Two [Point] objects one pixel apart in [y]. *)
Definition two_points : World :=
  mkWorld (<[1%nat := mkPoint 200 101]> (<[0%nat := mkPoint 100 100]> ∅)) ∅ 0 [] [].

(** A manager with one selected rectangle. *)
Definition one_selected : World :=
  mkWorld (<[1%nat := mkPoint 200 200]> (<[0%nat := mkPoint 100 100]> ∅))
          (<[0%nat := RectangleAnnotation (mkBase "black" 1 None true None) 0 1]> ∅)
          1 [0%nat] [0%nat].

(** The same rectangle passed to [add_annotation] twice, then selected. *)
Definition twice_added : World :=
  mkWorld (<[1%nat := mkPoint 200 200]> (<[0%nat := mkPoint 100 100]> ∅))
          (<[0%nat := RectangleAnnotation (mkBase "black" 1 None true None) 0 1]> ∅)
          1 [0%nat; 0%nat] [0%nat].

(** ** Further notions *)

(** Every selected annotation is in the collection. *)
Definition selected_in_collection (w : World) : Prop :=
  ∀ a, a ∈ selected_annotations w -> a ∈ annotations w.

(** [annotation.contains_point(point)] with the default threshold. *)
Definition hit (w : World) (point : Point) (a : nat) : bool :=
  ann_contains_point w (object_at w a) point 5.

(** The point of the segment from [s] to [e] at parameter [u]. *)
Definition along (s e : Point) (u : R) : Point :=
  mkPoint (px s + u * (px e - px s)) (py s + u * (py e - py s)).

End Annotations.

(** * drawing_canvas.py *)

Module Canvas.

(** A coordinate tuple [(x, y)]. *)
Definition point : Type := R * R.

(** The exceptions the modelled code can raise. *)
Inductive exn := AttributeError | ValueError | TypeError | IndexError.

Inductive outcome (A : Type) : Type :=
| Ok (a : A)
| Raise (e : exn).
Arguments Ok {A} a.
Arguments Raise {A} e.

Definition obind {A B : Type} (o : outcome A) (k : A -> outcome B) : outcome B :=
  match o with
  | Ok a => k a
  | Raise e => Raise e
  end.

(** [for v in l: acc.extend(f(v))] where [f] may raise. *)
Fixpoint concat_results {A B : Type} (f : A -> outcome (list B)) (l : list A)
  : outcome (list B) :=
  match l with
  | [] => Ok []
  | v :: rest =>
      obind (f v) (fun here => obind (concat_results f rest) (fun more => Ok (here ++ more)))
  end.

(** A line style: [None] for solid, a dash tuple such as [(5, 5)]. *)
Definition Style : Type := option (list Z).

(** The class of a shape with the coordinate attributes its instances
    carry.  [Line] and [Rectangle] have [x1 y1 x2 y2]; a [Circle] has
    [center_x center_y x2 y2 radius]; a [Polygon] has none.  Assignments
    such as [shape.y1 = snap_y] in [resize_shape] and [on_drag] run over
    every selected shape whatever its class and create the attribute where
    it is missing: these are the optional fields. *)
Inductive Geometry :=
| Line (x1 y1 x2 y2 : R)
| Rectangle (x1 y1 x2 y2 : R)
| Circle (center_x center_y x2 y2 radius : R) (x1 y1 : option R)
| Polygon (x1 y1 x2 y2 : option R).

(** [class Shape] with the attributes of [Shape.__init__]; [is_selected]
    exists only once [select_all] has assigned it. *)
Record Shape := mkShape {
  geometry : Geometry;
  color : string;
  width : Z;
  style : Style;
  points : list point;
  is_selected : option bool
}.

Definition set_geometry (g : Geometry) (s : Shape) : Shape :=
  mkShape g (color s) (width s) (style s) (points s) (is_selected s).
Definition set_shape_points (ps : list point) (s : Shape) : Shape :=
  mkShape (geometry s) (color s) (width s) (style s) ps (is_selected s).
Definition set_shape_is_selected (v : bool) (s : Shape) : Shape :=
  mkShape (geometry s) (color s) (width s) (style s) (points s) (Some v).

(** [Line.__init__] *)
Definition Line_init (x1 y1 x2 y2 : R) (color : string) (width : Z) (style : Style) : Shape :=
  mkShape (Line x1 y1 x2 y2) color width style [(x1, y1); (x2, y2)] None.

(** [Rectangle.__init__] *)
Definition Rectangle_init (x1 y1 x2 y2 : R) (color : string) (width : Z) (style : Style)
  : Shape :=
  let sx1 := Rmin x1 x2 in
  let sy1 := Rmin y1 y2 in
  let sx2 := Rmax x1 x2 in
  let sy2 := Rmax y1 y2 in
  mkShape (Rectangle sx1 sy1 sx2 sy2) color width style
          [(sx1, sy1); (sx2, sy1); (sx2, sy2); (sx1, sy2)] None.

(** [Circle.__init__] *)
Definition Circle_init (center_x center_y x2 y2 : R) (color : string) (width : Z)
    (style : Style) : Shape :=
  mkShape (Circle center_x center_y x2 y2
                  (sqrt ((x2 - center_x) ^ 2 + (y2 - center_y) ^ 2)) None None)
          color width style [(center_x, center_y); (x2, y2)] None.

(** [Polygon.__init__] *)
Definition Polygon_init (points : list point) (color : string) (width : Z) (style : Style)
  : Shape :=
  mkShape (Polygon None None None None) color width style points None.

Global Instance Shape_inhabited : Inhabited Shape :=
  populate (Polygon_init [] "black" 1 None).

(** The four coordinate attributes that the editing code reads and writes
    on shapes of any class. *)
Inductive attr := attr_x1 | attr_y1 | attr_x2 | attr_y2.

(** [shape.a]; [None] stands for AttributeError. *)
Definition getattr (a : attr) (s : Shape) : option R :=
  match geometry s, a with
  | Line v _ _ _, attr_x1 | Rectangle v _ _ _, attr_x1 => Some v
  | Line _ v _ _, attr_y1 | Rectangle _ v _ _, attr_y1 => Some v
  | Line _ _ v _, attr_x2 | Rectangle _ _ v _, attr_x2 => Some v
  | Line _ _ _ v, attr_y2 | Rectangle _ _ _ v, attr_y2 => Some v
  | Circle _ _ _ _ _ o _, attr_x1 => o
  | Circle _ _ _ _ _ _ o, attr_y1 => o
  | Circle _ _ v _ _ _ _, attr_x2 => Some v
  | Circle _ _ _ v _ _ _, attr_y2 => Some v
  | Polygon o _ _ _, attr_x1 => o
  | Polygon _ o _ _, attr_y1 => o
  | Polygon _ _ o _, attr_x2 => o
  | Polygon _ _ _ o, attr_y2 => o
  end.

(** [shape.a = v] *)
Definition setattr (a : attr) (v : R) (s : Shape) : Shape :=
  set_geometry
    match geometry s, a with
    | Line _ b c d, attr_x1 => Line v b c d
    | Line a' _ c d, attr_y1 => Line a' v c d
    | Line a' b _ d, attr_x2 => Line a' b v d
    | Line a' b c _, attr_y2 => Line a' b c v
    | Rectangle _ b c d, attr_x1 => Rectangle v b c d
    | Rectangle a' _ c d, attr_y1 => Rectangle a' v c d
    | Rectangle a' b _ d, attr_x2 => Rectangle a' b v d
    | Rectangle a' b c _, attr_y2 => Rectangle a' b c v
    | Circle cx cy c d r _ oy, attr_x1 => Circle cx cy c d r (Some v) oy
    | Circle cx cy c d r ox _, attr_y1 => Circle cx cy c d r ox (Some v)
    | Circle cx cy _ d r ox oy, attr_x2 => Circle cx cy v d r ox oy
    | Circle cx cy c _ r ox oy, attr_y2 => Circle cx cy c v r ox oy
    | Polygon _ b c d, attr_x1 => Polygon (Some v) b c d
    | Polygon a' _ c d, attr_y1 => Polygon a' (Some v) c d
    | Polygon a' b _ d, attr_x2 => Polygon a' b (Some v) d
    | Polygon a' b c _, attr_y2 => Polygon a' b c (Some v)
    end s.

Definition is_Rectangle (s : Shape) : bool :=
  match geometry s with Rectangle _ _ _ _ => true | _ => false end.
Definition is_Line (s : Shape) : bool :=
  match geometry s with Line _ _ _ _ => true | _ => false end.
Definition is_Circle (s : Shape) : bool :=
  match geometry s with Circle _ _ _ _ _ _ _ => true | _ => false end.
Definition is_Polygon (s : Shape) : bool :=
  match geometry s with Polygon _ _ _ _ => true | _ => false end.

(** ** Geometry kernel *)

(** [get_line_line_intersection].  The point returned is computed along
    the first segment, [line1]; with rounding, the same crossing computed
    with the segments in the other order can differ in the last bits. *)
Definition get_line_line_intersection (line1 line2 : point * point) : list point :=
  let '((x1, y1), (x2, y2)) := line1 in
  let '((x3, y3), (x4, y4)) := line2 in
  let denominator := (x1 - x2) * (y3 - y4) - (y1 - y2) * (x3 - x4) in
  if bool_decide (denominator = 0) then []
  else
    let t := ((x1 - x3) * (y3 - y4) - (y1 - y3) * (x3 - x4)) / denominator in
    let u := - ((x1 - x2) * (y1 - y3) - (y1 - y2) * (x1 - x3)) / denominator in
    if bool_decide (0 <= t) && bool_decide (t <= 1)
       && bool_decide (0 <= u) && bool_decide (u <= 1)
    then [(x1 + t * (x2 - x1), y1 + t * (y2 - y1))]
    else [].

(** [min(a, b) <= v <= max(a, b)] *)
Definition between (a b v : R) : bool :=
  bool_decide (Rmin a b <= v) && bool_decide (v <= Rmax a b).

(** [get_circle_line_intersection(line, circle)]; [line] is a [Line]
    object of which only the four coordinates are read, [circle] gives
    [center_x], [center_y] and [radius]. *)
Definition get_circle_line_intersection (x1 y1 x2 y2 : R) (cx cy r : R) : list point :=
  if bool_decide (x2 - x1 = 0) then
    let x := x1 in
    let a := 1 in
    let b := -2 * cy in
    let c := cy * cy + (x - cx) * (x - cx) - r * r in
    let D := b * b - 4 * a * c in
    if bool_decide (D < -0.1) then []
    else if bool_decide (Rabs D <= 0.1) then
      let y := - b / (2 * a) in
      if between y1 y2 y then [(x, y)] else []
    else
      let y1_int := (- b + sqrt D) / (2 * a) in
      let y2_int := (- b - sqrt D) / (2 * a) in
      (if between y1 y2 y1_int then [(x, y1_int)] else [])
      ++ (if between y1 y2 y2_int then [(x, y2_int)] else [])
  else if bool_decide (y2 - y1 = 0) then
    let y := y1 in
    let a := 1 in
    let b := -2 * cx in
    let c := cx * cx + (y - cy) * (y - cy) - r * r in
    let D := b * b - 4 * a * c in
    if bool_decide (D < -0.1) then []
    else if bool_decide (Rabs D <= 0.1) then
      let x := - b / (2 * a) in
      if between x1 x2 x then [(x, y)] else []
    else
      let x1_int := (- b + sqrt D) / (2 * a) in
      let x2_int := (- b - sqrt D) / (2 * a) in
      (if between x1 x2 x1_int then [(x1_int, y)] else [])
      ++ (if between x1 x2 x2_int then [(x2_int, y)] else [])
  else
    let m := (y2 - y1) / (x2 - x1) in
    let b := y1 - m * x1 in
    let A := 1 + m * m in
    let B := 2 * (m * (b - cy) - cx) in
    let C := cx * cx + (b - cy) * (b - cy) - r * r in
    let D := B * B - 4 * A * C in
    if bool_decide (D < -0.1) then []
    else if bool_decide (Rabs D <= 0.1) then
      let x := - B / (2 * A) in
      let y := m * x + b in
      if between x1 x2 x && between y1 y2 y then [(x, y)] else []
    else
      let x1_int := (- B + sqrt D) / (2 * A) in
      let x2_int := (- B - sqrt D) / (2 * A) in
      flat_map (fun x => let y := m * x + b in
                         if between x1 x2 x && between y1 y2 y then [(x, y)] else [])
               [x1_int; x2_int].

(** [math.atan2(y, x)], the angle of the vector [(x, y)] in (-pi, pi]. *)
Definition atan2 (y x : R) : R :=
  if bool_decide (0 < x) then atan (y / x)
  else if bool_decide (x < 0) then
    if bool_decide (0 <= y) then atan (y / x) + PI else atan (y / x) - PI
  else if bool_decide (0 < y) then PI / 2
  else if bool_decide (y < 0) then - PI / 2
  else 0.

(** [get_circle_circle_intersection(circle1, circle2)] on the centres and
    radii of the two circles.  In exact arithmetic the argument of [acos]
    lies in [-1, 1] whenever the last branch is reached with [r1 * d > 0];
    with rounding, circles that touch can miss the test [d == r1 + r2] and
    reach [math.acos] with an argument just above 1, which raises
    ValueError in the program. *)
Definition get_circle_circle_intersection (x1 y1 r1 x2 y2 r2 : R) : list point :=
  let d := sqrt ((x2 - x1) ^ 2 + (y2 - y1) ^ 2) in
  if bool_decide (d > r1 + r2) then []
  else if bool_decide (d < Rabs (r1 - r2)) then []
  else if bool_decide (d = 0) && bool_decide (r1 = r2) then []
  else if bool_decide (d = r1 + r2) || bool_decide (d = Rabs (r1 - r2)) then
    let t := r1 / d in
    let x := x1 + t * (x2 - x1) in
    let y := y1 + t * (y2 - y1) in
    [(x, y)]
  else
    let a := acos ((r1 * r1 + d * d - r2 * r2) / (2 * r1 * d)) in
    let base_angle := atan2 (y2 - y1) (x2 - x1) in
    let x3 := x1 + r1 * cos (base_angle + a) in
    let y3 := y1 + r1 * sin (base_angle + a) in
    let x4 := x1 + r1 * cos (base_angle - a) in
    let y4 := y1 + r1 * sin (base_angle - a) in
    [(x3, y3); (x4, y4)].

(** [points[i]]; IndexError when out of range. *)
Definition item (ps : list point) (i : nat) : outcome point :=
  match nth_error ps i with
  | Some p => Ok p
  | None => Raise IndexError
  end.

(** The [for i in range(n)] loop that pairs [points[i]] with
    [points[(i + 1) % n]]. *)
Definition edges (ps : list point) (n : nat) : outcome (list (point * point)) :=
  concat_results
    (fun i => obind (item ps i) (fun p1 =>
              obind (item ps ((i + 1) mod n)) (fun p2 => Ok [(p1, p2)])))
    (seq 0 n).

(** [get_shape_lines] *)
Definition get_shape_lines (shape : Shape) : outcome (list (point * point)) :=
  match geometry shape with
  | Line _ _ _ _ =>
      obind (item (points shape) 0) (fun p1 =>
      obind (item (points shape) 1) (fun p2 => Ok [(p1, p2)]))
  | Rectangle _ _ _ _ => edges (points shape) 4
  | Polygon _ _ _ _ => edges (points shape) (length (points shape))
  | Circle _ _ _ _ _ _ _ => Ok []
  end.

(** [get_intersection_points(shape1, shape2)] *)
Definition get_intersection_points (shape1 shape2 : Shape) : outcome (list point) :=
  match geometry shape1, geometry shape2 with
  | Circle cx1 cy1 _ _ r1 _ _, Circle cx2 cy2 _ _ r2 _ _ =>
      Ok (get_circle_circle_intersection cx1 cy1 r1 cx2 cy2 r2)
  | Circle cx cy _ _ r _ _, _ =>
      obind (get_shape_lines shape2) (fun lines =>
      Ok (flat_map (fun line : point * point =>
                      get_circle_line_intersection (fst (fst line)) (snd (fst line))
                        (fst (snd line)) (snd (snd line)) cx cy r) lines))
  | _, Circle cx cy _ _ r _ _ =>
      obind (get_shape_lines shape1) (fun lines =>
      Ok (flat_map (fun line : point * point =>
                      get_circle_line_intersection (fst (fst line)) (snd (fst line))
                        (fst (snd line)) (snd (snd line)) cx cy r) lines))
  | _, _ =>
      obind (get_shape_lines shape1) (fun lines1 =>
      obind (get_shape_lines shape2) (fun lines2 =>
      Ok (flat_map (fun line1 =>
                      flat_map (fun line2 => get_line_line_intersection line1 line2) lines2)
                   lines1)))
  end.

(** ** Snap engine *)

(** The dictionary [snap_types]; its three keys are fixed. *)
Record SnapTypes := mkSnapTypes {
  endpoint : bool;
  midpoint : bool;
  intersection : bool
}.

Definition mid (p1 p2 : point) : point :=
  ((fst p1 + fst p2) / 2, (snd p1 + snd p2) / 2).

(** The candidates one shape adds in the first loop of [get_snap_point]. *)
Definition shape_snap_points (t : SnapTypes) (shape : Shape) : list point :=
  match geometry shape with
  | Line x1 y1 x2 y2 =>
      (if endpoint t then [(x1, y1); (x2, y2)] else [])
      ++ (if midpoint t then [((x1 + x2) / 2, (y1 + y2) / 2)] else [])
  | Rectangle x1 y1 x2 y2 =>
      let points := [(x1, y1); (x2, y1); (x2, y2); (x1, y2)] in
      (if endpoint t then points else [])
      ++ (if midpoint t
          then map (fun i => mid (nth i points (0, 0)) (nth ((i + 1) mod 4) points (0, 0)))
                   (seq 0 4)
          else [])
  | Circle center_x center_y _ _ _ _ _ =>
      if endpoint t then [(center_x, center_y)] else []
  | Polygon _ _ _ _ =>
      (if endpoint t then points shape else [])
      ++ (if midpoint t
          then map (fun i => mid (nth i (points shape) (0, 0))
                                 (nth ((i + 1) mod length (points shape)) (points shape) (0, 0)))
                   (seq 0 (length (points shape)))
          else [])
  end.

(** [for i, shape1 in enumerate(shapes): for shape2 in shapes[i+1:]] *)
Fixpoint pairwise_intersections (shapes : list Shape) : outcome (list point) :=
  match shapes with
  | [] => Ok []
  | shape1 :: rest =>
      obind (concat_results (fun shape2 => get_intersection_points shape1 shape2) rest)
            (fun here =>
      obind (pairwise_intersections rest) (fun more => Ok (here ++ more)))
  end.

(** The list [snap_points] as [get_snap_point] builds it. *)
Definition snap_points (t : SnapTypes) (shapes : list Shape) : outcome (list point) :=
  let ends := flat_map (shape_snap_points t) shapes in
  if intersection t
  then obind (pairwise_intersections shapes) (fun xs => Ok (ends ++ xs))
  else Ok ends.

(** The distance computed in the last loop of [get_snap_point]
    ([** 0.5] is the square root). *)
Definition snap_dist (x y : R) (p : point) : R :=
  sqrt ((x - fst p) ^ 2 + (y - snd p) ^ 2).

(** The threshold, a local constant of [get_snap_point]. *)
Definition snap_distance : R := 10.

(** The last loop of [get_snap_point]. *)
Fixpoint closest (x y : R) (todo : list point) (closest_point : option point)
    (min_distance : option R) : option point :=
  match todo with
  | [] => closest_point
  | p :: rest =>
      let distance := snap_dist x y p in
      if lt_running distance min_distance && bool_decide (distance <= snap_distance)
      then closest x y rest (Some p) (Some distance)
      else closest x y rest closest_point min_distance
  end.

(** [get_snap_point] on the values it reads from the canvas. *)
Definition get_snap_point_of (snap_enabled : bool) (t : SnapTypes) (shapes : list Shape)
    (x y : R) : outcome point :=
  if negb snap_enabled then Ok (x, y)
  else
    obind (snap_points t shapes) (fun cands =>
    Ok (default (x, y) (closest x y cands None None))).

(** ** The canvas *)

(** The dictionaries [original_position] / [new_position] of an undo entry. *)
Record Position := mkPosition { pos_x1 : R; pos_y1 : R; pos_x2 : R; pos_y2 : R }.

(** The values of the three style properties recorded by [change_property]. *)
Inductive PropertyValue :=
| ColorValue (v : string)
| WidthValue (v : Z)
| StyleValue (v : Style).

(** The dictionaries kept on [undo_stack] and [redo_stack], by their
    ["type"] key. *)
Inductive operation :=
| op_add_shape (shape : ref)
| op_delete_shape (shape : ref)
| op_delete_shapes (shapes : list nat) (indices : list nat)
| op_move_shape (shape : ref) (original_position new_position : Position)
| op_resize_shape (shape : ref) (original_position new_position : Position)
| op_change_property (property : string) (old_value new_value : PropertyValue).

(** The attributes of [DrawingCanvas] together with the store of shape
    objects.  The stacks are Python lists: the top is the last element. *)
Record Canvas := mkCanvas {
  store : gmap nat Shape;
  next_ref : nat;
  shapes : list nat;
  current_points : list point;
  mode : string;
  current_color : string;
  current_width : Z;
  current_style : Style;
  selected_shapes : list nat;
  selected_endpoint : option nat;
  is_moving : bool;
  is_resizing : bool;
  resize_handle : option string;
  last_x : option R;
  last_y : option R;
  undo_stack : list operation;
  redo_stack : list operation;
  snap_enabled : bool;
  snap_types : SnapTypes
}.

Definition set_store (v : gmap nat Shape) (c : Canvas) : Canvas :=
  mkCanvas v (next_ref c) (shapes c) (current_points c) (mode c) (current_color c)
    (current_width c) (current_style c) (selected_shapes c) (selected_endpoint c)
    (is_moving c) (is_resizing c) (resize_handle c) (last_x c) (last_y c) (undo_stack c)
    (redo_stack c) (snap_enabled c) (snap_types c).
Definition set_next_ref (v : nat) (c : Canvas) : Canvas :=
  mkCanvas (store c) v (shapes c) (current_points c) (mode c) (current_color c)
    (current_width c) (current_style c) (selected_shapes c) (selected_endpoint c)
    (is_moving c) (is_resizing c) (resize_handle c) (last_x c) (last_y c) (undo_stack c)
    (redo_stack c) (snap_enabled c) (snap_types c).
Definition set_shapes (v : list nat) (c : Canvas) : Canvas :=
  mkCanvas (store c) (next_ref c) v (current_points c) (mode c) (current_color c)
    (current_width c) (current_style c) (selected_shapes c) (selected_endpoint c)
    (is_moving c) (is_resizing c) (resize_handle c) (last_x c) (last_y c) (undo_stack c)
    (redo_stack c) (snap_enabled c) (snap_types c).
Definition set_current_points (v : list point) (c : Canvas) : Canvas :=
  mkCanvas (store c) (next_ref c) (shapes c) v (mode c) (current_color c)
    (current_width c) (current_style c) (selected_shapes c) (selected_endpoint c)
    (is_moving c) (is_resizing c) (resize_handle c) (last_x c) (last_y c) (undo_stack c)
    (redo_stack c) (snap_enabled c) (snap_types c).
Definition set_mode (v : string) (c : Canvas) : Canvas :=
  mkCanvas (store c) (next_ref c) (shapes c) (current_points c) v (current_color c)
    (current_width c) (current_style c) (selected_shapes c) (selected_endpoint c)
    (is_moving c) (is_resizing c) (resize_handle c) (last_x c) (last_y c) (undo_stack c)
    (redo_stack c) (snap_enabled c) (snap_types c).
Definition set_current_color (v : string) (c : Canvas) : Canvas :=
  mkCanvas (store c) (next_ref c) (shapes c) (current_points c) (mode c) v
    (current_width c) (current_style c) (selected_shapes c) (selected_endpoint c)
    (is_moving c) (is_resizing c) (resize_handle c) (last_x c) (last_y c) (undo_stack c)
    (redo_stack c) (snap_enabled c) (snap_types c).
Definition set_current_width (v : Z) (c : Canvas) : Canvas :=
  mkCanvas (store c) (next_ref c) (shapes c) (current_points c) (mode c)
    (current_color c) v (current_style c) (selected_shapes c) (selected_endpoint c)
    (is_moving c) (is_resizing c) (resize_handle c) (last_x c) (last_y c) (undo_stack c)
    (redo_stack c) (snap_enabled c) (snap_types c).
Definition set_current_style (v : Style) (c : Canvas) : Canvas :=
  mkCanvas (store c) (next_ref c) (shapes c) (current_points c) (mode c)
    (current_color c) (current_width c) v (selected_shapes c) (selected_endpoint c)
    (is_moving c) (is_resizing c) (resize_handle c) (last_x c) (last_y c) (undo_stack c)
    (redo_stack c) (snap_enabled c) (snap_types c).
Definition set_selected_shapes (v : list nat) (c : Canvas) : Canvas :=
  mkCanvas (store c) (next_ref c) (shapes c) (current_points c) (mode c)
    (current_color c) (current_width c) (current_style c) v (selected_endpoint c)
    (is_moving c) (is_resizing c) (resize_handle c) (last_x c) (last_y c) (undo_stack c)
    (redo_stack c) (snap_enabled c) (snap_types c).
Definition set_selected_endpoint (v : option nat) (c : Canvas) : Canvas :=
  mkCanvas (store c) (next_ref c) (shapes c) (current_points c) (mode c)
    (current_color c) (current_width c) (current_style c) (selected_shapes c) v
    (is_moving c) (is_resizing c) (resize_handle c) (last_x c) (last_y c) (undo_stack c)
    (redo_stack c) (snap_enabled c) (snap_types c).
Definition set_is_moving (v : bool) (c : Canvas) : Canvas :=
  mkCanvas (store c) (next_ref c) (shapes c) (current_points c) (mode c)
    (current_color c) (current_width c) (current_style c) (selected_shapes c)
    (selected_endpoint c) v (is_resizing c) (resize_handle c) (last_x c) (last_y c)
    (undo_stack c) (redo_stack c) (snap_enabled c) (snap_types c).
Definition set_is_resizing (v : bool) (c : Canvas) : Canvas :=
  mkCanvas (store c) (next_ref c) (shapes c) (current_points c) (mode c)
    (current_color c) (current_width c) (current_style c) (selected_shapes c)
    (selected_endpoint c) (is_moving c) v (resize_handle c) (last_x c) (last_y c)
    (undo_stack c) (redo_stack c) (snap_enabled c) (snap_types c).
Definition set_resize_handle (v : option string) (c : Canvas) : Canvas :=
  mkCanvas (store c) (next_ref c) (shapes c) (current_points c) (mode c)
    (current_color c) (current_width c) (current_style c) (selected_shapes c)
    (selected_endpoint c) (is_moving c) (is_resizing c) v (last_x c) (last_y c)
    (undo_stack c) (redo_stack c) (snap_enabled c) (snap_types c).
Definition set_last_x (v : option R) (c : Canvas) : Canvas :=
  mkCanvas (store c) (next_ref c) (shapes c) (current_points c) (mode c)
    (current_color c) (current_width c) (current_style c) (selected_shapes c)
    (selected_endpoint c) (is_moving c) (is_resizing c) (resize_handle c) v (last_y c)
    (undo_stack c) (redo_stack c) (snap_enabled c) (snap_types c).
Definition set_last_y (v : option R) (c : Canvas) : Canvas :=
  mkCanvas (store c) (next_ref c) (shapes c) (current_points c) (mode c)
    (current_color c) (current_width c) (current_style c) (selected_shapes c)
    (selected_endpoint c) (is_moving c) (is_resizing c) (resize_handle c) (last_x c) v
    (undo_stack c) (redo_stack c) (snap_enabled c) (snap_types c).
Definition set_undo_stack (v : list operation) (c : Canvas) : Canvas :=
  mkCanvas (store c) (next_ref c) (shapes c) (current_points c) (mode c)
    (current_color c) (current_width c) (current_style c) (selected_shapes c)
    (selected_endpoint c) (is_moving c) (is_resizing c) (resize_handle c) (last_x c)
    (last_y c) v (redo_stack c) (snap_enabled c) (snap_types c).
Definition set_redo_stack (v : list operation) (c : Canvas) : Canvas :=
  mkCanvas (store c) (next_ref c) (shapes c) (current_points c) (mode c)
    (current_color c) (current_width c) (current_style c) (selected_shapes c)
    (selected_endpoint c) (is_moving c) (is_resizing c) (resize_handle c) (last_x c)
    (last_y c) (undo_stack c) v (snap_enabled c) (snap_types c).
Definition set_snap_enabled (v : bool) (c : Canvas) : Canvas :=
  mkCanvas (store c) (next_ref c) (shapes c) (current_points c) (mode c)
    (current_color c) (current_width c) (current_style c) (selected_shapes c)
    (selected_endpoint c) (is_moving c) (is_resizing c) (resize_handle c) (last_x c)
    (last_y c) (undo_stack c) (redo_stack c) v (snap_types c).
Definition set_snap_types (v : SnapTypes) (c : Canvas) : Canvas :=
  mkCanvas (store c) (next_ref c) (shapes c) (current_points c) (mode c)
    (current_color c) (current_width c) (current_style c) (selected_shapes c)
    (selected_endpoint c) (is_moving c) (is_resizing c) (resize_handle c) (last_x c)
    (last_y c) (undo_stack c) (redo_stack c) (snap_enabled c) v.

Definition MIN_SIZE : R := 10.

(** [DrawingCanvas.__init__] *)
Definition DrawingCanvas_init : Canvas :=
  mkCanvas ∅ O [] [] "line" "black" 1 None [] None false false None None None [] []
           true (mkSnapTypes true true true).

Definition shape_at (c : Canvas) (r : ref) : Shape := store c !!! r.

(** ** Handlers: state passing with exceptions

    A handler maps the canvas to an outcome and the canvas as the handler
    left it; what was assigned before an exception stays assigned. *)
Definition M (A : Type) : Type := Canvas -> outcome A * Canvas.

Definition ret {A : Type} (a : A) : M A := fun c => (Ok a, c).
Definition bind {A B : Type} (m : M A) (k : A -> M B) : M B :=
  fun c => match m c with
           | (Ok a, c') => k a c'
           | (Raise e, c') => (Raise e, c')
           end.
Definition raise {A : Type} (e : exn) : M A := fun c => (Raise e, c).
Definition gets {A : Type} (f : Canvas -> A) : M A := fun c => (Ok (f c), c).
Definition modify (f : Canvas -> Canvas) : M unit := fun c => (Ok tt, f c).
Definition lift {A : Type} (o : outcome A) : M A := fun c => (o, c).

Notation "x <- m ;; k" := (bind m (fun x => k))
  (at level 20, m at level 99, k at level 200, only parsing).
Notation "m ;; k" := (bind m (fun _ => k))
  (at level 100, k at level 200, only parsing, right associativity).

(** [for v in l: body(v)] *)
Fixpoint for_each {A : Type} (l : list A) (body : A -> M unit) : M unit :=
  match l with
  | [] => ret tt
  | v :: rest => body v ;; for_each rest body
  end.

Definition when (b : bool) (m : M unit) : M unit := if b then m else ret tt.

(** The canvas a handler leaves behind. *)
Definition exec {A : Type} (m : M A) (c : Canvas) : Canvas := snd (m c).

(** ** Access to shape objects *)

Definition update_shape (r : ref) (f : Shape -> Shape) : M unit :=
  modify (fun c => set_store (<[r := f (store c !!! r)]> (store c)) c).

(** [shape.a] *)
Definition read (r : ref) (a : attr) : M R :=
  fun c => match getattr a (shape_at c r) with
           | Some v => (Ok v, c)
           | None => (Raise AttributeError, c)
           end.

(** [shape.a = v] *)
Definition write (r : ref) (a : attr) (v : R) : M unit := update_shape r (setattr a v).

(** [shape.a += d] *)
Definition increase (r : ref) (a : attr) (d : R) : M unit :=
  v <- read r a ;; write r a (v + d).

(** A constructor call: the new object gets the next free reference. *)
Definition new_shape (s : Shape) : M ref :=
  fun c => (Ok (next_ref c),
            set_next_ref (S (next_ref c)) (set_store (<[next_ref c := s]> (store c)) c)).

(** [shape.points = [(x1, y1), (x2, y1), (x2, y2), (x1, y2)]] *)
Definition refresh_corner_points (r : ref) : M unit :=
  vx1 <- read r attr_x1 ;; vy1 <- read r attr_y1 ;;
  vx2 <- read r attr_x2 ;; vy2 <- read r attr_y2 ;;
  update_shape r (set_shape_points [(vx1, vy1); (vx2, vy1); (vx2, vy2); (vx1, vy2)]).

(** [shape.points = [(x1, y1), (x2, y2)]] *)
Definition refresh_end_points (r : ref) : M unit :=
  vx1 <- read r attr_x1 ;; vy1 <- read r attr_y1 ;;
  vx2 <- read r attr_x2 ;; vy2 <- read r attr_y2 ;;
  update_shape r (set_shape_points [(vx1, vy1); (vx2, vy2)]).

(** The circle statements [center_x += dx; center_y += dy; x2 += dx;
    y2 += dy; points = [(center_x, center_y), (x2, y2)]]; the first of
    them raises on a shape that is no circle. *)
Definition shift_circle (r : ref) (dx dy : R) : M unit :=
  c <- gets (fun c => c) ;;
  match geometry (shape_at c r) with
  | Circle cx cy vx2 vy2 rad ox oy =>
      update_shape r (fun s =>
        set_shape_points [(cx + dx, cy + dy); (vx2 + dx, vy2 + dy)]
          (set_geometry (Circle (cx + dx) (cy + dy) (vx2 + dx) (vy2 + dy) rad ox oy) s))
  | _ => raise AttributeError
  end.

(** [shape.points = [(x + dx, y + dy) for x, y in shape.points]] *)
Definition shift_points (r : ref) (dx dy : R) : M unit :=
  update_shape r (fun s =>
    set_shape_points (map (fun p : point => (fst p + dx, snd p + dy)) (points s)) s).

(** ** Snapping and handles *)

(** [get_snap_point] *)
Definition get_snap_point (x y : R) : M point :=
  c <- gets (fun c => c) ;;
  lift (get_snap_point_of (snap_enabled c) (snap_types c)
                          (map (shape_at c) (shapes c)) x y).

(** [get_resize_handles]: the dictionary in insertion order. *)
Definition get_resize_handles (c : Canvas) : list (string * point) :=
  match selected_shapes c with
  | [] => []
  | first :: _ =>
      match geometry (shape_at c first) with
      | Rectangle x1 y1 x2 y2 =>
          [("nw", (x1, y1));
           ("n", (x1 + (x2 - x1) / 2, y1));
           ("ne", (x2, y1));
           ("e", (x2, y1 + (y2 - y1) / 2));
           ("se", (x2, y2));
           ("s", (x1 + (x2 - x1) / 2, y2));
           ("sw", (x1, y2));
           ("w", (x1, y1 + (y2 - y1) / 2))]
      | _ => []
      end
  end.

(** [get_resize_handle_at_point] *)
Definition get_resize_handle_at_point (c : Canvas) (x y : R) : option string :=
  match selected_shapes c with
  | [] => None
  | _ =>
      fst <$> find (fun h : string * point =>
                      bool_decide (Rabs (x - fst (snd h)) <= 5)
                      && bool_decide (Rabs (y - snd (snd h)) <= 5))
                   (get_resize_handles c)
  end.

(** [ch in s] for a one-character pattern. *)
Fixpoint has_char (ch : Ascii.ascii) (s : string) : bool :=
  match s with
  | EmptyString => false
  | String a rest => if Ascii.eqb a ch then true else has_char ch rest
  end.

(** ** Drawing *)

(** The three commits of [on_click] and the commit of [complete_shape]:
    append the shape, record [add_shape], clear the redo stack. *)
Definition commit_shape (s : Shape) : M unit :=
  r <- new_shape s ;;
  modify (fun c => set_shapes (shapes c ++ [r]) c) ;;
  modify (fun c => set_undo_stack (undo_stack c ++ [op_add_shape r]) c) ;;
  modify (set_redo_stack []).

(** One [if self.mode == ...] branch of [on_click] for a two-point
    shape built by [make]. *)
Definition click_two_point
    (make : R -> R -> R -> R -> string -> Z -> Style -> Shape) (snap : point) : M unit :=
  c <- gets (fun c => c) ;;
  match current_points c with
  | [] => modify (set_current_points [snap])
  | (x1, y1) :: _ =>
      commit_shape (make x1 y1 (fst snap) (snd snap)
                         (current_color c) (current_width c) (current_style c)) ;;
      modify (set_current_points [])
  end.

(** [on_click] *)
Definition on_click (x y : R) : M unit :=
  snap <- get_snap_point x y ;;
  c <- gets (fun c => c) ;;
  let by_mode : M unit :=
    if String.eqb (mode c) "line" then click_two_point Line_init snap
    else if String.eqb (mode c) "rectangle" then click_two_point Rectangle_init snap
    else if String.eqb (mode c) "circle" then click_two_point Circle_init snap
    else if String.eqb (mode c) "polygon" then
      modify (fun c => set_current_points (current_points c ++ [snap]) c)
    else ret tt in
  match selected_shapes c with
  | first :: _ =>
      if is_Rectangle (shape_at c first) then
        match get_resize_handle_at_point c x y with
        | Some handle =>
            modify (set_is_resizing true) ;;
            modify (set_resize_handle (Some handle)) ;;
            modify (set_last_x (Some x)) ;;
            modify (set_last_y (Some y))
        | None => by_mode
        end
      else by_mode
  | [] => by_mode
  end.

(** [complete_shape] *)
Definition complete_shape : M unit :=
  c <- gets (fun c => c) ;;
  match current_points c with
  | [] => ret tt
  | _ =>
      let two (make : R -> R -> R -> R -> string -> Z -> Style -> Shape) : M unit :=
        match current_points c with
        | [(x1, y1); (x2, y2)] =>
            commit_shape (make x1 y1 x2 y2
                               (current_color c) (current_width c) (current_style c))
        | _ => ret tt
        end in
      (if String.eqb (mode c) "line" then two Line_init
       else if String.eqb (mode c) "rectangle" then two Rectangle_init
       else if String.eqb (mode c) "circle" then two Circle_init
       else if String.eqb (mode c) "polygon"
               && bool_decide (3 <= length (current_points c))%nat then
         commit_shape (Polygon_init (current_points c)
                         (current_color c) (current_width c) (current_style c))
       else ret tt) ;;
      modify (set_current_points [])
  end.

(** [on_right_click] *)
Definition on_right_click : M unit :=
  c <- gets (fun c => c) ;;
  if String.eqb (mode c) "polygon" && bool_decide (3 <= length (current_points c))%nat
  then complete_shape
  else ret tt.

(** [on_motion]: the snap point is computed, the temporary point is
    appended for the preview and popped again. *)
Definition on_motion (x y : R) : M unit :=
  get_snap_point x y ;; ret tt.

(** [on_escape] *)
Definition on_escape : M unit := modify (set_current_points []).

(** The setter of the [mode] property. *)
Definition set_mode_property (value : string) : M unit :=
  modify (set_mode value) ;;
  modify (set_selected_shapes []) ;;
  modify (set_selected_endpoint None) ;;
  modify (set_is_moving false) ;;
  modify (set_is_resizing false) ;;
  modify (set_resize_handle None).

(** [reset] *)
Definition reset : M unit :=
  modify (set_shapes []) ;; modify (set_current_points []).

(** ** Selecting *)

(** [distance_to_line] *)
Definition distance_to_line (p line_start line_end : point) : R :=
  let '(x, y) := p in
  let '(x1, y1) := line_start in
  let '(x2, y2) := line_end in
  let l2 := (x2 - x1) ^ 2 + (y2 - y1) ^ 2 in
  if bool_decide (l2 = 0) then sqrt ((x - x1) ^ 2 + (y - y1) ^ 2)
  else
    let t := Rmax 0 (Rmin 1 (((x - x1) * (x2 - x1) + (y - y1) * (y2 - y1)) / l2)) in
    let px := x1 + t * (x2 - x1) in
    let py := y1 + t * (y2 - y1) in
    sqrt ((x - px) ^ 2 + (y - py) ^ 2).

(** The [for shape in reversed(self.shapes)] loop of [on_select]: the
    new [selected_shapes] and [selected_endpoint]. *)
Fixpoint select_scan (c : Canvas) (x y : R) (todo : list nat) : list nat * option nat :=
  match todo with
  | [] => ([], None)
  | shape :: rest =>
      match geometry (shape_at c shape) with
      | Rectangle x1 y1 x2 y2 =>
          let min_distance :=
            Rmin (Rmin (Rmin (distance_to_line (x, y) (x1, y1) (x2, y1))
                             (distance_to_line (x, y) (x2, y1) (x2, y2)))
                       (distance_to_line (x, y) (x2, y2) (x1, y2)))
                 (distance_to_line (x, y) (x1, y2) (x1, y1)) in
          if bool_decide (min_distance < 5) then ([shape], None)
          else select_scan c x y rest
      | Line x1 y1 x2 y2 =>
          if bool_decide (Rabs (x - x1) < 5) && bool_decide (Rabs (y - y1) < 5)
          then ([shape], Some O)
          else if bool_decide (Rabs (x - x2) < 5) && bool_decide (Rabs (y - y2) < 5)
          then ([shape], Some 1%nat)
          else if bool_decide (distance_to_line (x, y) (x1, y1) (x2, y2) < 5)
          then ([shape], None)
          else select_scan c x y rest
      | Circle center_x center_y x2 y2 _ _ _ =>
          let radius := sqrt ((x2 - center_x) ^ 2 + (y2 - center_y) ^ 2) in
          let distance := sqrt ((x - center_x) ^ 2 + (y - center_y) ^ 2) in
          if bool_decide (distance <= radius) then ([shape], None)
          else select_scan c x y rest
      | Polygon _ _ _ _ => select_scan c x y rest
      end
  end.

(** [on_select] *)
Definition on_select (x y : R) : M unit :=
  c <- gets (fun c => c) ;;
  let found := select_scan c x y (rev (shapes c)) in
  modify (set_selected_shapes (fst found)) ;;
  modify (set_selected_endpoint (snd found)).

(** [select_all] *)
Definition select_all : M unit :=
  c <- gets (fun c => c) ;;
  match shapes c with
  | [] => ret tt
  | _ =>
      for_each (selected_shapes c)
               (fun shape => update_shape shape (set_shape_is_selected false)) ;;
      modify (set_selected_shapes (shapes c)) ;;
      for_each (shapes c)
               (fun shape => update_shape shape (set_shape_is_selected true))
  end.

(** ** Moving and resizing *)

(** [move_shape] *)
Definition move_shape (dx dy : R) : M unit :=
  c <- gets (fun c => c) ;;
  match selected_shapes c with
  | [] => ret tt
  | first :: _ =>
      match geometry (shape_at c first) with
      | Rectangle _ _ _ _ =>
          for_each (selected_shapes c) (fun shape =>
            increase shape attr_x1 dx ;; increase shape attr_y1 dy ;;
            increase shape attr_x2 dx ;; increase shape attr_y2 dy ;;
            refresh_corner_points shape)
      | Line _ _ _ _ =>
          for_each (selected_shapes c) (fun shape =>
            increase shape attr_x1 dx ;; increase shape attr_y1 dy ;;
            increase shape attr_x2 dx ;; increase shape attr_y2 dy ;;
            refresh_end_points shape)
      | Circle _ _ _ _ _ _ _ =>
          for_each (selected_shapes c) (fun shape => shift_circle shape dx dy)
      | Polygon _ _ _ _ =>
          for_each (selected_shapes c) (fun shape => shift_points shape dx dy)
      end
  end.

(** [resize_shape] *)
Definition resize_shape (x y : R) : M unit :=
  c <- gets (fun c => c) ;;
  match selected_shapes c with
  | [] => ret tt
  | first :: _ =>
      old_x1 <- read first attr_x1 ;;
      old_y1 <- read first attr_y1 ;;
      old_x2 <- read first attr_x2 ;;
      old_y2 <- read first attr_y2 ;;
      snap <- get_snap_point x y ;;
      handle <- match resize_handle c with
                | Some h => ret h
                | None => raise TypeError
                end ;;
      when (has_char "n"%char handle)
           (for_each (selected_shapes c) (fun shape => write shape attr_y1 (snd snap))) ;;
      when (has_char "s"%char handle)
           (for_each (selected_shapes c) (fun shape => write shape attr_y2 (snd snap))) ;;
      when (has_char "w"%char handle)
           (for_each (selected_shapes c) (fun shape => write shape attr_x1 (fst snap))) ;;
      when (has_char "e"%char handle)
           (for_each (selected_shapes c) (fun shape => write shape attr_x2 (fst snap))) ;;
      new_x2 <- read first attr_x2 ;;
      new_x1 <- read first attr_x1 ;;
      new_y2 <- read first attr_y2 ;;
      new_y1 <- read first attr_y1 ;;
      let width := Rabs (new_x2 - new_x1) in
      let height := Rabs (new_y2 - new_y1) in
      if bool_decide (width < MIN_SIZE) || bool_decide (height < MIN_SIZE) then
        for_each (selected_shapes c) (fun shape =>
          write shape attr_x1 old_x1 ;; write shape attr_y1 old_y1 ;;
          write shape attr_x2 old_x2 ;; write shape attr_y2 old_y2)
      else
        for_each (selected_shapes c) refresh_corner_points
  end.

(** [on_drag] *)
Definition on_drag (x y : R) : M unit :=
  c <- gets (fun c => c) ;;
  match selected_shapes c with
  | [] => ret tt
  | first :: _ =>
      match last_x c, last_y c with
      | Some lx, Some ly =>
          let dx := x - lx in
          let dy := y - ly in
          if is_resizing c && is_Rectangle (shape_at c first) then resize_shape x y
          else if is_Line (shape_at c first) && bool_decide (selected_endpoint c ≠ None) then
            (if bool_decide (selected_endpoint c = Some O) then
               for_each (selected_shapes c) (fun shape =>
                 write shape attr_x1 x ;; write shape attr_y1 y)
             else
               for_each (selected_shapes c) (fun shape =>
                 write shape attr_x2 x ;; write shape attr_y2 y)) ;;
            for_each (selected_shapes c) refresh_end_points
          else move_shape dx dy
      | _, _ => ret tt
      end ;;
      modify (set_last_x (Some x)) ;;
      modify (set_last_y (Some y))
  end.

(** [on_release] *)
Definition on_release : M unit :=
  modify (set_is_moving false) ;;
  modify (set_is_resizing false) ;;
  modify (set_resize_handle None) ;;
  modify (set_last_x None) ;;
  modify (set_last_y None).

(** ** Undo and redo *)

(** [stack.pop()] on a non-empty list: what is left and the last element. *)
Definition py_pop {A : Type} (l : list A) : option (list A * A) :=
  match last l with
  | Some top => Some (removelast l, top)
  | None => None
  end.

(** [self.shapes.remove(shape)] *)
Definition shapes_remove (shape : ref) : M unit :=
  c <- gets (fun c => c) ;;
  match py_remove shape (shapes c) with
  | Some l => modify (set_shapes l)
  | None => raise ValueError
  end.

(** [if shape in self.shapes: self.shapes.remove(shape)] *)
Definition shapes_discard (shape : ref) : M unit :=
  c <- gets (fun c => c) ;;
  if py_in shape (shapes c) then shapes_remove shape else ret tt.

(** [self.shapes.append(shape)] *)
Definition shapes_append (shape : ref) : M unit :=
  modify (fun c => set_shapes (shapes c ++ [shape]) c).

(** [move_shape_by] *)
Definition move_shape_by (shape : ref) (dx dy : R) : M unit :=
  c <- gets (fun c => c) ;;
  match geometry (shape_at c shape) with
  | Rectangle _ _ _ _ =>
      increase shape attr_x1 dx ;; increase shape attr_y1 dy ;;
      increase shape attr_x2 dx ;; increase shape attr_y2 dy ;;
      refresh_corner_points shape
  | Line _ _ _ _ =>
      increase shape attr_x1 dx ;; increase shape attr_y1 dy ;;
      increase shape attr_x2 dx ;; increase shape attr_y2 dy ;;
      refresh_end_points shape
  | Circle _ _ _ _ _ _ _ => shift_circle shape dx dy
  | Polygon _ _ _ _ => shift_points shape dx dy
  end.

(** [setattr(self, property, value)] for the three properties that
    [set_color], [set_width] and [set_style] record. *)
Definition set_property (property : string) (value : PropertyValue) : M unit :=
  match value with
  | ColorValue v =>
      if String.eqb property "current_color" then modify (set_current_color v) else ret tt
  | WidthValue v =>
      if String.eqb property "current_width" then modify (set_current_width v) else ret tt
  | StyleValue v =>
      if String.eqb property "current_style" then modify (set_current_style v) else ret tt
  end.

(** The four assignments and the rebuilt [points] of a [resize_shape]
    entry. *)
Definition restore_position (shape : ref) (p : Position) : M unit :=
  write shape attr_x1 (pos_x1 p) ;; write shape attr_y1 (pos_y1 p) ;;
  write shape attr_x2 (pos_x2 p) ;; write shape attr_y2 (pos_y2 p) ;;
  refresh_corner_points shape.

(** [undo] *)
Definition undo : M unit :=
  c <- gets (fun c => c) ;;
  match py_pop (undo_stack c) with
  | None => ret tt
  | Some (rest, operation) =>
      modify (set_undo_stack rest) ;;
      modify (fun c => set_redo_stack (redo_stack c ++ [operation]) c) ;;
      match operation with
      | op_add_shape shape => shapes_remove shape
      | op_delete_shape shape => shapes_append shape
      | op_delete_shapes deleted indices =>
          for_each (zip indices deleted) (fun '(i, shape) =>
            modify (fun c => if bool_decide (i < length (shapes c))%nat
                             then set_shapes (py_insert i shape (shapes c)) c
                             else set_shapes (shapes c ++ [shape]) c))
      | op_move_shape shape original_position _ =>
          vx1 <- read shape attr_x1 ;;
          vy1 <- read shape attr_y1 ;;
          move_shape_by shape (pos_x1 original_position - vx1)
                              (pos_y1 original_position - vy1)
      | op_resize_shape shape original_position _ =>
          restore_position shape original_position
      | op_change_property property old_value _ => set_property property old_value
      end
  end.

(** [redo] *)
Definition redo : M unit :=
  c <- gets (fun c => c) ;;
  match py_pop (redo_stack c) with
  | None => ret tt
  | Some (rest, operation) =>
      modify (set_redo_stack rest) ;;
      modify (fun c => set_undo_stack (undo_stack c ++ [operation]) c) ;;
      match operation with
      | op_add_shape shape => shapes_append shape
      | op_delete_shape shape => shapes_remove shape
      | op_delete_shapes deleted _ => for_each deleted shapes_discard
      | op_move_shape shape _ new_position =>
          vx1 <- read shape attr_x1 ;;
          vy1 <- read shape attr_y1 ;;
          move_shape_by shape (pos_x1 new_position - vx1) (pos_y1 new_position - vy1)
      | op_resize_shape shape _ new_position => restore_position shape new_position
      | op_change_property property _ new_value => set_property property new_value
      end
  end.

(** [push_state] *)
Definition push_state : M unit := modify (set_redo_stack []).

(** [push_property_change] *)
Definition push_property_change (property_name : string) (old_value new_value : PropertyValue)
  : M unit :=
  modify (fun c => set_undo_stack
                     (undo_stack c ++ [op_change_property property_name old_value new_value])
                     c) ;;
  modify (set_redo_stack []).

(** [set_color] *)
Definition set_color (color : string) : M unit :=
  c <- gets (fun c => c) ;;
  let old_color := current_color c in
  modify (set_current_color color) ;;
  push_property_change "current_color" (ColorValue old_color) (ColorValue color).

(** [set_width] *)
Definition set_width (width : Z) : M unit :=
  c <- gets (fun c => c) ;;
  let old_width := current_width c in
  modify (set_current_width width) ;;
  push_property_change "current_width" (WidthValue old_width) (WidthValue width).

(** [set_style] *)
Definition set_style (style : Style) : M unit :=
  c <- gets (fun c => c) ;;
  let old_style := current_style c in
  modify (set_current_style style) ;;
  push_property_change "current_style" (StyleValue old_style) (StyleValue style).

(** ** Duplicate and delete *)

(** The copy [duplicate_selected] constructs for one shape. *)
Definition duplicate (shape : Shape) : Shape :=
  match geometry shape with
  | Rectangle x1 y1 x2 y2 =>
      Rectangle_init (x1 + 20) (y1 + 20) (x2 + 20) (y2 + 20)
                     (color shape) (width shape) (style shape)
  | Line x1 y1 x2 y2 =>
      Line_init (x1 + 20) (y1 + 20) (x2 + 20) (y2 + 20)
                (color shape) (width shape) (style shape)
  | Circle center_x center_y _ _ radius _ _ =>
      Circle_init (center_x + 20) (center_y + 20) (center_x + 20 + radius) (center_y + 20)
                  (color shape) (width shape) (style shape)
  | Polygon _ _ _ _ =>
      Polygon_init (map (fun p : point => (fst p + 20, snd p + 20)) (points shape))
                   (color shape) (width shape) (style shape)
  end.

(** The [for shape in selected] loop of [duplicate_selected]; the result
    is the list [new_shapes]. *)
Fixpoint duplicate_each (selected : list nat) : M (list nat) :=
  match selected with
  | [] => ret []
  | shape :: rest =>
      c <- gets (fun c => c) ;;
      new <- new_shape (duplicate (shape_at c shape)) ;;
      shapes_append new ;;
      more <- duplicate_each rest ;;
      ret (new :: more)
  end.

(** [duplicate_selected] *)
Definition duplicate_selected : M unit :=
  c <- gets (fun c => c) ;;
  match selected_shapes c with
  | [] => ret tt
  | _ =>
      let selected := selected_shapes c in
      push_state ;;
      new_shapes <- duplicate_each selected ;;
      for_each selected (fun shape =>
        modify (fun c => if py_in shape (selected_shapes c)
                         then set_selected_shapes
                                (default (selected_shapes c)
                                         (py_remove shape (selected_shapes c))) c
                         else c)) ;;
      modify (set_selected_shapes new_shapes)
  end.

(** [[self.shapes.index(shape) for shape in deleted_shapes]] *)
Fixpoint indices_of (deleted : list nat) (shapes : list nat) : option (list nat) :=
  match deleted with
  | [] => Some []
  | shape :: rest =>
      match py_index shape shapes with
      | Some i => cons i <$> indices_of rest shapes
      | None => None
      end
  end.

(** [delete_selected] *)
Definition delete_selected : M unit :=
  c <- gets (fun c => c) ;;
  match selected_shapes c with
  | [] => ret tt
  | _ =>
      let deleted_shapes := selected_shapes c in
      match indices_of deleted_shapes (shapes c) with
      | None => raise ValueError
      | Some deleted_indices =>
          modify (fun c => set_undo_stack
                             (undo_stack c ++ [op_delete_shapes deleted_shapes deleted_indices])
                             c) ;;
          for_each deleted_shapes shapes_discard ;;
          modify (set_selected_shapes []) ;;
          modify (set_redo_stack [])
      end
  end.

(** ** Events

    The bindings of [__init__]; tkinter runs the most specific binding of
    an event, reports an exception of a handler and goes on with the
    canvas as the handler left it. *)
Inductive event :=
| Button1 (x y : R)
| Button3
| Motion (x y : R)
| Escape
| ControlButton1 (x y : R)
| B1Motion (x y : R)
| ButtonRelease1
| ControlZ
| ControlY
| Delete
| ControlA
| ControlD
| SetMode (value : string)
| SetColor (color : string)
| SetWidth (width : Z)
| SetStyle (style : Style).

Definition dispatch (e : event) : M unit :=
  match e with
  | Button1 x y => on_click x y
  | Button3 => on_right_click
  | Motion x y => on_motion x y
  | Escape => on_escape
  | ControlButton1 x y => on_select x y
  | B1Motion x y => on_drag x y
  | ButtonRelease1 => on_release
  | ControlZ => undo
  | ControlY => redo
  | Delete => delete_selected
  | ControlA => select_all
  | ControlD => duplicate_selected
  | SetMode value => set_mode_property value
  | SetColor color => set_color color
  | SetWidth width => set_width width
  | SetStyle style => set_style style
  end.

Definition run (es : list event) (c : Canvas) : Canvas :=
  fold_left (fun acc e => exec (dispatch e) acc) es c.

(** The canvases the user can reach from a fresh one. *)
Definition reachable (c : Canvas) : Prop := ∃ es, c = run es DrawingCanvas_init.

(** Every selected shape is in the collection. *)
Definition selection_in_collection (c : Canvas) : Prop :=
  ∀ shape, shape ∈ selected_shapes c → shape ∈ shapes c.

(** ** Notions used by the statements *)

(** The [points] list of a line or rectangle is as long as
    [get_shape_lines] indexes it; the constructors establish this. *)
Definition points_well_formed (s : Shape) : Prop :=
  match geometry s with
  | Line _ _ _ _ => (2 <= length (points s))%nat
  | Rectangle _ _ _ _ => (4 <= length (points s))%nat
  | _ => True
  end.

(** What the last loop of [get_snap_point] holds in [closest_point] and
    [min_distance] once it has visited the candidates [seen]. *)
Definition best_so_far (x y : R) (seen : list point)
    (closest_point : option point) (min_distance : option R) : Prop :=
  match closest_point, min_distance with
  | None, None => ∀ q, q ∈ seen -> ¬ snap_dist x y q <= snap_distance
  | Some p, Some d =>
      d = snap_dist x y p ∧ p ∈ seen ∧ d <= snap_distance
      ∧ ∀ q, q ∈ seen -> d <= snap_dist x y q
  | _, _ => False
  end.

(** A handler leaves the component [f] of the canvas as it was. *)
Definition keeps {X A : Type} (f : Canvas -> X) (m : M A) : Prop :=
  ∀ c, f (snd (m c)) = f c.

(** The store after [for shape in l: shape := f(shape)]. *)
Definition update_all (f : Shape -> Shape) (l : list nat) (st : gmap nat Shape)
  : gmap nat Shape :=
  fold_left (fun acc r => <[r := f (acc !!! r)]> acc) l st.

(** The store after [if b: for shape in l: shape.a = v]. *)
Definition stage (b : bool) (a : attr) (v : R) (l : list nat) (st : gmap nat Shape)
  : gmap nat Shape :=
  if b then update_all (setattr a v) l st else st.

(** One shape after the four conditional assignments of [resize_shape]. *)
Definition overwrite (handle : string) (snap : point) (s : Shape) : Shape :=
  let s1 := if has_char "n" handle then setattr attr_y1 (snd snap) s else s in
  let s2 := if has_char "s" handle then setattr attr_y2 (snd snap) s1 else s1 in
  let s3 := if has_char "w" handle then setattr attr_x1 (fst snap) s2 else s2 in
  if has_char "e" handle then setattr attr_x2 (fst snap) s3 else s3.

(** One shape after the four assignments of the roll-back. *)
Definition restore (vx1 vy1 vx2 vy2 : R) (s : Shape) : Shape :=
  setattr attr_y2 vy2 (setattr attr_x2 vx2 (setattr attr_y1 vy1 (setattr attr_x1 vx1 s))).

(** The store after the four conditional loops of [resize_shape]. *)
Definition overwritten (handle : string) (snap : point) (l : list nat) (st : gmap nat Shape)
  : gmap nat Shape :=
  stage (has_char "e" handle) attr_x2 (fst snap) l
    (stage (has_char "w" handle) attr_x1 (fst snap) l
       (stage (has_char "s" handle) attr_y2 (snd snap) l
          (stage (has_char "n" handle) attr_y1 (snd snap) l st))).

(** Centre and radius of a circle. *)
Definition circle_of (s : Shape) : option (R * R * R) :=
  match geometry s with
  | Circle cx cy _ _ r _ _ => Some (cx, cy, r)
  | _ => None
  end.

(** ** Example data *)

(** The canvas of the snap test: one line from (100,300) to (200,400). *)
Definition line_canvas : Canvas :=
  mkCanvas (<[0%nat := Line_init 100 300 200 400 "black" 1 None]> ∅) 1 [0%nat] [] "line"
           "black" 1 None [] None false false None None None [op_add_shape 0] []
           true (mkSnapTypes true true true).

(** The rectangle (100,100)-(200,200). *)
Definition rect100 : Shape :=
  mkShape (Rectangle 100 100 200 200) "black" 1 None
          [(100, 100); (200, 100); (200, 200); (100, 200)] None.

(** The canvas of the resize tests: that rectangle drawn and selected, a
    resize under way with the given handle. *)
Definition resize_scene (handle : string) : Canvas :=
  mkCanvas (<[0%nat := rect100]> ∅) 1 [0%nat] [] "rectangle" "black" 1 None [0%nat] None
           false true (Some handle) (Some 200) (Some 200) [op_add_shape 0] []
           true (mkSnapTypes true true true).

(** The rectangle with its second corner dragged to (50,50). *)
Definition rect_inverted : Shape :=
  mkShape (Rectangle 100 100 50 50) "black" 1 None
          [(100, 100); (50, 100); (50, 50); (100, 50)] None.

(** That rectangle drawn with two clicks in rectangle mode. *)
Definition rect_drawn : Canvas :=
  mkCanvas (<[0%nat := rect100]> ∅) 1 [0%nat] [] "rectangle" "black" 1 None [] None
           false false None None None [op_add_shape 0] [] true (mkSnapTypes true true true).

(** ... and selected with a Ctrl+click on its corner (200,200). *)
Definition rect_selected : Canvas := set_selected_shapes [0%nat] rect_drawn.

(** Draw the rectangle, select it, press the button on its "se" handle. *)
Definition draw_select_grab : list event :=
  [SetMode "rectangle"; Button1 100 100; Button1 200 200; ControlButton1 200 200;
   Button1 200 200].

(** Draw a line with two clicks, select all. *)
Definition drawn_and_selected : Canvas :=
  run [Button1 100 100; Button1 200 200; ControlA] DrawingCanvas_init.

(** Draw a line, select all, undo. *)
Definition undo_after_select : list event :=
  [Button1 100 100; Button1 200 200; ControlA; ControlZ].

(** Draw a line, delete it, undo the delete, select all, redo the delete. *)
Definition redo_after_select : list event :=
  [Button1 100 100; Button1 200 200; ControlA; Delete; ControlZ; ControlA; ControlY].

(** ** Further functions

    Segment geometry and the key handler. *)

(** [get_line_intersection]: the older routine; [None] when the segments
    are parallel or do not meet. *)
Definition get_line_intersection (line1 line2 : point * point) : option point :=
  let '((x1, y1), (x2, y2)) := line1 in
  let '((x3, y3), (x4, y4)) := line2 in
  let denominator := (x1 - x2) * (y3 - y4) - (y1 - y2) * (x3 - x4) in
  if bool_decide (denominator = 0) then None
  else
    let t := ((x1 - x3) * (y3 - y4) - (y1 - y3) * (x3 - x4)) / denominator in
    let u := - ((x1 - x2) * (y1 - y3) - (y1 - y2) * (x1 - x3)) / denominator in
    if bool_decide (0 <= t) && bool_decide (t <= 1)
       && bool_decide (0 <= u) && bool_decide (u <= 1)
    then Some (x1 + t * (x2 - x1), y1 + t * (y2 - y1))
    else None.

(** The point of the segment from [a] to [b] at parameter [t]. *)
Definition along (a b : point) (t : R) : point :=
  (fst a + t * (fst b - fst a), snd a + t * (snd b - snd a)).

(** The point [p] satisfies the equation of the circle up to [tol]. *)
Definition on_circle_within (tol : R) (cx cy r : R) (p : point) : Prop :=
  Rabs ((fst p - cx) * (fst p - cx) + (snd p - cy) * (snd p - cy) - r * r) <= tol.

(** [try: body / except Exception: handler]; every exception of the
    model is an [Exception]. *)
Definition try_except {A : Type} (body handler : M A) : M A :=
  fun c => match body c with
           | (Ok a, c') => (Ok a, c')
           | (Raise _, c') => handler c'
           end.

(** [str.lower] on a key symbol: ASCII capitals become small letters;
    the result is only compared with one-letter ASCII strings. *)
Definition lower_char (a : Ascii.ascii) : Ascii.ascii :=
  let n := nat_of_ascii a in
  if (65 <=? n)%nat && (n <=? 90)%nat then ascii_of_nat (n + 32) else a.

Fixpoint lower (s : string) : string :=
  match s with
  | EmptyString => EmptyString
  | String a rest => String (lower_char a) (lower rest)
  end.

(** [handle_keyboard_event]: [keysym] and [state] are the two attributes
    of the event that are read; the result is ["break"] or [None].  The
    logging and [ensure_focus] touch no attribute of the canvas. *)
Definition handle_keyboard_event (keysym : string) (state : Z) : M (option string) :=
  try_except
    (let ctrl_pressed := negb (Z.land state 4 =? 0)%Z in
     if ctrl_pressed && String.eqb (lower keysym) "z" then
       undo ;; ret (Some "break"%string)
     else if ctrl_pressed && String.eqb (lower keysym) "y" then
       redo ;; ret (Some "break"%string)
     else if ctrl_pressed && String.eqb (lower keysym) "a" then
       select_all ;; ret (Some "break"%string)
     else if ctrl_pressed && String.eqb (lower keysym) "d" then
       duplicate_selected ;; ret (Some "break"%string)
     else if String.eqb keysym "Delete" then
       delete_selected ;; ret (Some "break"%string)
     else ret None)
    (ret None).

(** The handler a key press runs, if any. *)
Definition key_action (keysym : string) (state : Z) : option (M unit) :=
  let ctrl_pressed := negb (Z.land state 4 =? 0)%Z in
  if ctrl_pressed && String.eqb (lower keysym) "z" then Some undo
  else if ctrl_pressed && String.eqb (lower keysym) "y" then Some redo
  else if ctrl_pressed && String.eqb (lower keysym) "a" then Some select_all
  else if ctrl_pressed && String.eqb (lower keysym) "d" then Some duplicate_selected
  else if String.eqb keysym "Delete" then Some delete_selected
  else None.

(** ** Further notions *)

(** The part of [undo] after the two stack updates. *)
Definition undo_action (operation : operation) : M unit :=
  match operation with
  | op_add_shape shape => shapes_remove shape
  | op_delete_shape shape => shapes_append shape
  | op_delete_shapes deleted indices =>
      for_each (zip indices deleted) (fun '(i, shape) =>
        modify (fun c => if bool_decide (i < length (shapes c))%nat
                         then set_shapes (py_insert i shape (shapes c)) c
                         else set_shapes (shapes c ++ [shape]) c))
  | op_move_shape shape original_position _ =>
      bind (read shape attr_x1) (fun vx1 =>
      bind (read shape attr_y1) (fun vy1 =>
      move_shape_by shape (pos_x1 original_position - vx1)
                          (pos_y1 original_position - vy1)))
  | op_resize_shape shape original_position _ =>
      restore_position shape original_position
  | op_change_property property old_value _ => set_property property old_value
  end.

(** The part of [redo] after the two stack updates. *)
Definition redo_action (operation : operation) : M unit :=
  match operation with
  | op_add_shape shape => shapes_append shape
  | op_delete_shape shape => shapes_remove shape
  | op_delete_shapes deleted _ => for_each deleted shapes_discard
  | op_move_shape shape _ new_position =>
      bind (read shape attr_x1) (fun vx1 =>
      bind (read shape attr_y1) (fun vy1 =>
      move_shape_by shape (pos_x1 new_position - vx1) (pos_y1 new_position - vy1)))
  | op_resize_shape shape _ new_position => restore_position shape new_position
  | op_change_property property _ new_value => set_property property new_value
  end.

(** The list [shapes] after [for shape in deleted: if shape in shapes:
    shapes.remove(shape)]. *)
Definition discard_all (deleted : list nat) (l : list nat) : list nat :=
  fold_left (fun acc shape => if py_in shape acc then default acc (py_remove shape acc) else acc)
            deleted l.

(** The list [shapes] after the re-insertion loop of [undo]. *)
Definition reinsert_all (entries : list (nat * nat)) (l : list nat) : list nat :=
  fold_left (fun acc '(i, shape) => if bool_decide (i < length acc)%nat
                                    then py_insert i shape acc else acc ++ [shape])
            entries l.

(** Two crossing lines, both selected. *)
Definition two_lines_selected : Canvas :=
  mkCanvas (<[1%nat := Line_init 100 200 200 100 "black" 1 None]>
              (<[0%nat := Line_init 100 100 200 200 "black" 1 None]> ∅))
           2 [0%nat; 1%nat] [] "line" "black" 1 None [0%nat; 1%nat] None false false
           None None None [op_add_shape 0; op_add_shape 1] []
           true (mkSnapTypes true true true).

(** The canvas with the object [r] replaced by [s]. *)
Definition with_shape (r : ref) (s : Shape) (c : Canvas) : Canvas :=
  set_store (<[r := s]> (store c)) c.

(** A shape moved by [(dx, dy)]: what the loop body of [move_shape] for
    the class of the shape leaves. *)
Definition translate (dx dy : R) (s : Shape) : Shape :=
  match geometry s with
  | Line x1 y1 x2 y2 =>
      set_shape_points [(x1 + dx, y1 + dy); (x2 + dx, y2 + dy)]
        (set_geometry (Line (x1 + dx) (y1 + dy) (x2 + dx) (y2 + dy)) s)
  | Rectangle x1 y1 x2 y2 =>
      set_shape_points [(x1 + dx, y1 + dy); (x2 + dx, y1 + dy);
                        (x2 + dx, y2 + dy); (x1 + dx, y2 + dy)]
        (set_geometry (Rectangle (x1 + dx) (y1 + dy) (x2 + dx) (y2 + dy)) s)
  | Circle cx cy x2 y2 radius ox oy =>
      set_shape_points [(cx + dx, cy + dy); (x2 + dx, y2 + dy)]
        (set_geometry (Circle (cx + dx) (cy + dy) (x2 + dx) (y2 + dy) radius ox oy) s)
  | Polygon _ _ _ _ =>
      set_shape_points (map (fun p : point => (fst p + dx, snd p + dy)) (points s)) s
  end.

(** Two shapes are instances of the same class. *)
Definition same_class (s t : Shape) : bool :=
  match geometry s, geometry t with
  | Line _ _ _ _, Line _ _ _ _ => true
  | Rectangle _ _ _ _, Rectangle _ _ _ _ => true
  | Circle _ _ _ _ _ _ _, Circle _ _ _ _ _ _ _ => true
  | Polygon _ _ _ _, Polygon _ _ _ _ => true
  | _, _ => false
  end.

(** A rectangle with [points] rebuilt from its coordinates. *)
Definition with_corner_points (s : Shape) : Shape :=
  match geometry s with
  | Rectangle x1 y1 x2 y2 => set_shape_points [(x1, y1); (x2, y1); (x2, y2); (x1, y2)] s
  | _ => s
  end.

(** A fresh canvas in polygon mode with three vertices clicked. *)
Definition triangle_pending : Canvas :=
  set_current_points [(100, 100); (200, 100); (150, 200)]
    (set_mode "polygon" DrawingCanvas_init).

(** The constructor [on_click] calls in a two-point mode. *)
Definition constructor_for (mode : string)
  : option (R -> R -> R -> R -> string -> Z -> Style -> Shape) :=
  if String.eqb mode "line" then Some Line_init
  else if String.eqb mode "rectangle" then Some Rectangle_init
  else if String.eqb mode "circle" then Some Circle_init
  else None.

(** Two lines selected in the middle of a drag that has reached (100,100). *)
Definition two_lines_dragged : Canvas :=
  set_last_y (Some 100) (set_last_x (Some 100) two_lines_selected).

(** ** Scenes with two shapes selected *)






(** The rectangle (300,100)-(400,200). *)
Definition rect_right : Shape :=
  mkShape (Rectangle 300 100 400 200) "black" 1 None
          [(300, 100); (400, 100); (400, 200); (300, 200)] None.

(** The line of the snap test and that rectangle, drawn with four clicks. *)
Definition line_and_rect : Canvas :=
  mkCanvas (<[1%nat := rect_right]> (<[0%nat := Line_init 100 300 200 400 "black" 1 None]> ∅))
           2 [0%nat; 1%nat] [] "rectangle" "black" 1 None [] None false false None None None
           [op_add_shape 0; op_add_shape 1] [] true (mkSnapTypes true true true).

(** The line after Ctrl+A and a drag by (10,10). *)
Definition line_dragged : Shape :=
  mkShape (Line 110 310 210 410) "black" 1 None [(110, 310); (210, 410)] (Some true).

(** The rectangle after the same drag: [move_shape] took the branch of
    the first selected shape, a line, and gave the rectangle two points. *)
Definition rect_dragged_as_line : Shape :=
  mkShape (Rectangle 310 110 410 210) "black" 1 None [(310, 110); (410, 210)] (Some true).

Definition line_and_rect_dragged : Canvas :=
  mkCanvas (<[1%nat := rect_dragged_as_line]> (<[0%nat := line_dragged]> ∅))
           2 [0%nat; 1%nat] [] "rectangle" "black" 1 None [0%nat; 1%nat] None false false None
           (Some 160) (Some 360) [op_add_shape 0; op_add_shape 1] []
           true (mkSnapTypes true true true).

(** Draw a line and a rectangle, select all, drag by (10,10). *)
Definition draw_mixed_select_drag : list event :=
  [Button1 100 300; Button1 200 400; SetMode "rectangle"; Button1 300 100; Button1 400 200;
   ControlA; B1Motion 150 350; B1Motion 160 360].

End Canvas.

(** * drawing_canvas.py over binary64 numbers

    The two intersection functions whose result depends on rounding, over
    the kernel's binary64 numbers: [+], [-], [*], [/] and [math.sqrt] are
    the correctly rounded operations of IEEE 754, as in Python.  Pixel
    coordinates are integers; on integers of the size of a screen the
    integer operations of Python and the binary64 operations agree, and
    [v ** 2] is written as a product. *)

Module Binary64.
Import PrimFloat.
Import Canvas.
Local Open Scope float_scope.

Definition fpoint : Set := float * float.

(** [get_line_line_intersection] *)
Definition get_line_line_intersection_binary64 (line1 line2 : fpoint * fpoint) : list fpoint :=
  let '((x1, y1), (x2, y2)) := line1 in
  let '((x3, y3), (x4, y4)) := line2 in
  let denominator := (x1 - x2) * (y3 - y4) - (y1 - y2) * (x3 - x4) in
  if denominator =? 0 then []
  else
    let t := ((x1 - x3) * (y3 - y4) - (y1 - y3) * (x3 - x4)) / denominator in
    let u := opp ((x1 - x2) * (y1 - y3) - (y1 - y2) * (x1 - x3)) / denominator in
    if (0 <=? t) && (t <=? 1) && (0 <=? u) && (u <=? 1)
    then [(x1 + t * (x2 - x1), y1 + t * (y2 - y1))]
    else [].

(** The [radius] that [Circle.__init__] computes. *)
Definition Circle_radius_binary64 (center_x center_y x2 y2 : float) : float :=
  sqrt ((x2 - center_x) * (x2 - center_x) + (y2 - center_y) * (y2 - center_y)).

Section Libm.

(** The functions of [math] that the kernel does not provide.  [math.acos]
    raises ValueError outside its domain, hence the outcome. *)
Variable math_acos : float -> outcome float.
Variable math_atan2 : float -> float -> float.
Variables math_cos math_sin : float -> float.

(** [get_circle_circle_intersection(circle1, circle2)] on the centres and
    radii of the two circles. *)
Definition get_circle_circle_intersection_binary64 (x1 y1 r1 x2 y2 r2 : float)
  : outcome (list fpoint) :=
  let d := sqrt ((x2 - x1) * (x2 - x1) + (y2 - y1) * (y2 - y1)) in
  if r1 + r2 <? d then Ok []
  else if d <? abs (r1 - r2) then Ok []
  else if (d =? 0) && (r1 =? r2) then Ok []
  else if (d =? r1 + r2) || (d =? abs (r1 - r2)) then
    let t := r1 / d in
    let x := x1 + t * (x2 - x1) in
    let y := y1 + t * (y2 - y1) in
    Ok [(x, y)]
  else
    obind (math_acos ((r1 * r1 + d * d - r2 * r2) / (2 * r1 * d))) (fun a =>
    let base_angle := math_atan2 (y2 - y1) (x2 - x1) in
    let x3 := x1 + r1 * math_cos (base_angle + a) in
    let y3 := y1 + r1 * math_sin (base_angle + a) in
    let x4 := x1 + r1 * math_cos (base_angle - a) in
    let y4 := y1 + r1 * math_sin (base_angle - a) in
    Ok [(x3, y3); (x4, y4)]).

End Libm.

End Binary64.

(** * Properties *)

(** ** Real numbers *)

Section Numbers.

Lemma sqrt_sq_plus_0 a : 0 <= a -> sqrt (a ^ 2 + 0 ^ 2) = a.
Proof.
  intros Ha. replace (a ^ 2 + 0 ^ 2) with (a * a) by ring. by apply sqrt_square.
Qed.

Lemma sqrt_pow2_abs a : sqrt (a ^ 2) = Rabs a.
Proof. replace (a ^ 2) with (Rsqr a) by (unfold Rsqr; ring). apply sqrt_Rsqr_abs. Qed.

End Numbers.

(** ** Python lists *)

Section PyLists.

Lemma py_in_true x l : py_in x l = true <-> x ∈ l.
Proof. unfold py_in. apply bool_decide_eq_true. Qed.

Lemma py_in_false x l : py_in x l = false <-> x ∉ l.
Proof. unfold py_in. apply bool_decide_eq_false. Qed.

Lemma py_remove_Some x l : x ∈ l -> ∃ l', py_remove x l = Some l'.
Proof.
  induction l as [|y l IH]; intros Hin.
  - inversion Hin.
  - simpl. destruct (decide (y = x)); [eauto|].
    destruct IH as [l' ->]; [|eauto].
    apply elem_of_cons in Hin as [?|?]; [congruence|done].
Qed.

Lemma py_remove_elem x l l' y :
  py_remove x l = Some l' -> y ∈ l' -> y ∈ l.
Proof.
  revert l'. induction l as [|z l IH]; intros l'; simpl; [discriminate|].
  destruct (decide (z = x)).
  - intros [= ->] Hy. by apply elem_of_cons; right.
  - destruct (py_remove x l) as [r|]; [|discriminate].
    intros [= <-] Hy. apply elem_of_cons in Hy as [->|Hy].
    + apply elem_of_cons; by left.
    + apply elem_of_cons; right. by apply (IH r).
Qed.

Lemma py_remove_other x l l' y :
  py_remove x l = Some l' -> y ≠ x -> y ∈ l -> y ∈ l'.
Proof.
  revert l'. induction l as [|z l IH]; intros l'; simpl; [discriminate|].
  destruct (decide (z = x)).
  - intros [= ->] Hne Hy. apply elem_of_cons in Hy as [->|Hy]; [congruence|done].
  - destruct (py_remove x l) as [r|]; [|discriminate].
    intros [= <-] Hne Hy. apply elem_of_cons in Hy as [->|Hy].
    + apply elem_of_cons; by left.
    + apply elem_of_cons; right. by apply IH.
Qed.

Lemma py_remove_NoDup x l l' :
  py_remove x l = Some l' -> NoDup l -> NoDup l' ∧ x ∉ l'.
Proof.
  revert l'. induction l as [|z l IH]; intros l'; simpl; [discriminate|].
  destruct (decide (z = x)) as [->|Hne].
  - intros [= ->] Hnd. apply NoDup_cons in Hnd as [? ?]. done.
  - destruct (py_remove x l) as [r|] eqn:Hr; [|discriminate].
    intros [= <-] Hnd. apply NoDup_cons in Hnd as [Hz Hnd].
    destruct (IH r eq_refl Hnd) as [Hr1 Hr2]. split.
    + apply NoDup_cons. split; [|done].
      intros Hin. apply Hz. by apply (py_remove_elem x l r).
    + intros Hin. apply elem_of_cons in Hin as [->|Hin]; [congruence|done].
Qed.

End PyLists.

(** ** annotations.py *)

Module AnnotationsSpec.
Import Annotations.

(** *** Bounding boxes *)

Lemma contains_point_inside b p t :
  px (min_point b) <= px p <= px (max_point b) ->
  py (min_point b) <= py p <= py (max_point b) ->
  contains_point b p t = true.
Proof.
  intros [H1 H2] [H3 H4]. unfold contains_point.
  rewrite !bool_decide_eq_true_2 by assumption. reflexivity.
Qed.

(** C9: containment in a bounding box is monotone in the threshold: when
    [contains_point] accepts a point at threshold [t1] it accepts it at
    every [t2 >= t1].  This holds for every box, ordered corners or not. *)
Theorem contains_point_monotone (b : BoundingBox) (p : Point) (t1 t2 : R) :
  t1 <= t2 -> contains_point b p t1 = true -> contains_point b p t2 = true.
Proof.
  intros Ht. unfold contains_point.
  destruct (_ && _); [reflexivity|].
  cbv zeta. rewrite !bool_decide_eq_true. intros H. lra.
Qed.

(** The point (12,5) is two pixels right of the box (0,0)-(10,10). *)
Lemma unit_box_near : contains_point unit_box (mkPoint 12 5) 3 = true.
Proof.
  unfold contains_point, unit_box, max3; simpl.
  rewrite (bool_decide_eq_false_2 (12 <= 10)) by lra.
  rewrite andb_false_r. simpl.
  replace (Rmax (Rmax (0 - 12) 0) (12 - 10)) with 2.
  2:{ unfold Rmax. repeat destruct Rle_dec; lra. }
  replace (Rmax (Rmax (0 - 5) 0) (5 - 10)) with 0.
  2:{ unfold Rmax. repeat destruct Rle_dec; lra. }
  replace (2 * 2 + 0 * 0) with (2 * 2) by lra.
  rewrite sqrt_square by lra. apply bool_decide_eq_true_2. lra.
Qed.

Lemma contains_point_monotone_witness :
  3 <= 5 ∧ contains_point unit_box (mkPoint 12 5) 3 = true
  ∧ contains_point unit_box (mkPoint 12 5) 5 = true.
Proof.
  split; [lra|]. split; [exact unit_box_near|].
  apply (contains_point_monotone unit_box (mkPoint 12 5) 3 5).
  - lra.
  - exact unit_box_near.
Defined.

(** *** Horizontal lines *)

Lemma py_assign_y_eq r v (ps : gmap nat Point) : py (assign_y r v ps !!! r) = v.
Proof. unfold assign_y. rewrite lookup_total_insert_eq. reflexivity. Qed.

Lemma assign_y_ne r r' v (ps : gmap nat Point) :
  r ≠ r' -> assign_y r v ps !!! r' = ps !!! r'.
Proof. intros. unfold assign_y. rewrite lookup_total_insert_ne; done. Qed.

(** One move of a locked line levels its two ends, whether or not they are
    the same [Point] object. *)
Lemma move_points_horizontal base start end_ dx dy (ps : gmap nat Point) :
  let ps' := move_points (LineAnnotation base start end_ true) dx dy ps in
  py (ps' !!! end_) = py (ps' !!! start).
Proof.
  simpl. rewrite py_assign_y_eq.
  destruct (decide (end_ = start)) as [->|Hne].
  - rewrite py_assign_y_eq. reflexivity.
  - rewrite assign_y_ne by done. reflexivity.
Qed.

(** [move] writes [Point] objects only. *)
Lemma move_objects w a dx dy : objects (move w a dx dy) = objects w.
Proof. reflexivity. Qed.

Lemma moves_objects (a : nat) (moves : list (R * R)) w :
  objects (fold_left (fun acc m => move acc a (fst m) (snd m)) moves w) = objects w.
Proof.
  revert w. induction moves as [|m moves IH]; intros w; simpl; [reflexivity|].
  rewrite IH. apply move_objects.
Qed.

Lemma moves_snoc (a : nat) (moves : list (R * R)) m w :
  fold_left (fun acc m => move acc a (fst m) (snd m)) (moves ++ [m]) w
  = move (fold_left (fun acc m => move acc a (fst m) (snd m)) moves w) a (fst m) (snd m).
Proof. rewrite fold_left_app. reflexivity. Qed.

(** C8: a line annotation created with [|start.y - end.y| < 2] has
    [is_horizontal] set; after any sequence of [move(dx, dy)] calls the flag
    is still set, and after each move [end.y == start.y]. *)
Theorem horizontal_line_stays_horizontal
    (w : World) (start end_ : nat) (color : string) (width : Z) (moves : list (R * R)) :
  Rabs (py (point_at w start) - py (point_at w end_)) < 2 ->
  let w0 := fst (LineAnnotation_init w start end_ color width) in
  let a := snd (LineAnnotation_init w start end_ color width) in
  let w' := fold_left (fun acc m => move acc a (fst m) (snd m)) moves w0 in
  is_horizontal_of (object_at w' a) = Some true
  ∧ (moves ≠ [] -> py (point_at w' end_) = py (point_at w' start)).
Proof.
  intros Hnear w0 a w'.
  assert (Hobj : ∀ ms, object_at (fold_left (fun acc m => move acc a (fst m) (snd m)) ms w0) a
                       = LineAnnotation (Annotation_init color width) start end_ true).
  { intros ms. unfold object_at. rewrite moves_objects. unfold w0, a. simpl.
    rewrite lookup_total_insert_eq. rewrite bool_decide_eq_true_2 by exact Hnear.
    reflexivity. }
  split.
  - unfold w'. rewrite Hobj. reflexivity.
  - intros Hne. unfold w'.
    destruct (exists_last Hne) as (front & m & ->).
    rewrite moves_snoc. unfold move, point_at. simpl. rewrite Hobj.
    apply move_points_horizontal.
Qed.

Lemma horizontal_line_stays_horizontal_witness :
  Rabs (py (point_at two_points 0) - py (point_at two_points 1)) < 2
  ∧ let w0 := fst (LineAnnotation_init two_points 0 1 "black" 1) in
    let a := snd (LineAnnotation_init two_points 0 1 "black" 1) in
    let w' := fold_left (fun acc m => move acc a (fst m) (snd m)) [(5, 7); (-3, 2)] w0 in
    is_horizontal_of (object_at w' a) = Some true
    ∧ ([(5, 7); (-3, 2)] ≠ [] -> py (point_at w' 1) = py (point_at w' 0)).
Proof.
  assert (H : Rabs (py (point_at two_points 0) - py (point_at two_points 1)) < 2).
  { unfold point_at, two_points; simpl.
    rewrite lookup_total_insert_eq.
    rewrite lookup_total_insert_ne by lia. rewrite lookup_total_insert_eq. simpl.
    rewrite Rabs_left; lra. }
  split; [exact H|].
  apply (horizontal_line_stays_horizontal two_points 0 1 "black" 1 [(5, 7); (-3, 2)]).
  exact H.
Defined.

(** *** The selection flag *)

Lemma flag_write a v w b :
  flag (write_is_selected a v w) b = if decide (a = b) then v else flag w b.
Proof.
  unfold flag, write_is_selected, object_at. simpl.
  destruct (decide (a = b)) as [->|Hne].
  - rewrite lookup_total_insert_eq. destruct (objects w !!! b); reflexivity.
  - by rewrite lookup_total_insert_ne.
Qed.

Lemma clear_loop l w :
  let w' := fold_left (fun acc a => write_is_selected a false acc) l w in
  annotations w' = annotations w
  ∧ selected_annotations w' = selected_annotations w
  ∧ ∀ b, flag w' b = if bool_decide (b ∈ l) then false else flag w b.
Proof.
  revert w. induction l as [|a l IH]; intros w; simpl.
  - split; [reflexivity|]. split; [reflexivity|]. intros b. reflexivity.
  - destruct (IH (write_is_selected a false w)) as (Ha & Hs & Hf).
    split; [by rewrite Ha|]. split; [by rewrite Hs|].
    intros b. rewrite Hf, flag_write.
    destruct (decide (a = b)) as [->|Hne].
    + rewrite (bool_decide_eq_true_2 (b ∈ b :: l)); [|by left]. by case_bool_decide.
    + destruct (bool_decide (b ∈ l)) eqn:Hb.
      * apply bool_decide_eq_true in Hb. rewrite bool_decide_eq_true_2; [done|by right].
      * apply bool_decide_eq_false in Hb. rewrite bool_decide_eq_false_2; [done|].
        intros Hin. apply elem_of_cons in Hin as [?|?]; [congruence|done].
Qed.

Lemma clear_selection_spec w :
  let w' := clear_selection w in
  annotations w' = annotations w ∧ selected_annotations w' = []
  ∧ ∀ b, flag w' b = if bool_decide (b ∈ selected_annotations w) then false else flag w b.
Proof.
  unfold clear_selection.
  destruct (clear_loop (selected_annotations w) w) as (Ha & Hs & Hf).
  simpl. repeat split; [exact Ha|]. exact Hf.
Qed.

Lemma clear_selection_synced w : selection_synced w -> synced (clear_selection w).
Proof.
  intros Hw. destruct (clear_selection_spec w) as (Ha & Hs & Hf).
  split.
  - intros b Hb. rewrite Hs. fold (flag (clear_selection w) b). rewrite Hf.
    rewrite Ha in Hb. specialize (Hw b Hb). fold (flag w b) in Hw.
    case_bool_decide as Hsel.
    + split; [discriminate|]. intros H; inversion H.
    + split; [|intros H; inversion H]. intros Ht. apply Hw in Ht. done.
  - rewrite Hs. constructor.
Qed.

Lemma synced_clear w : synced w -> synced (clear_selection w).
Proof. intros [Hw _]. by apply clear_selection_synced. Qed.

(** Appending an unselected annotation and raising its flag. *)
Lemma add_selected_synced w t :
  synced w -> t ∉ selected_annotations w ->
  synced (write_is_selected t true
            (set_selected_annotations (selected_annotations w ++ [t]) w)).
Proof.
  intros [Hw Hnd] Ht. split.
  - intros b Hb. simpl in Hb. simpl.
    fold (flag (write_is_selected t true
            (set_selected_annotations (selected_annotations w ++ [t]) w)) b).
    rewrite flag_write.
    destruct (decide (t = b)) as [->|Hne].
    + split; [|done]. intros _. apply elem_of_app. right. by left.
    + specialize (Hw b Hb). unfold flag, object_at in *. simpl.
      rewrite Hw. rewrite elem_of_app, list_elem_of_singleton.
      split; [intros; by left|]. intros [?|?]; [done|congruence].
  - simpl. apply NoDup_app. split; [done|]. split.
    + intros x Hx Hx'. apply list_elem_of_singleton in Hx' as ->. done.
    + apply NoDup_singleton.
Qed.

(** Removing a selected annotation from the list and lowering its flag. *)
Lemma drop_selected_synced w t :
  synced w -> t ∈ selected_annotations w ->
  synced (write_is_selected t false
            (set_selected_annotations
               (default (selected_annotations w) (py_remove t (selected_annotations w))) w)).
Proof.
  intros [Hw Hnd] Ht.
  destruct (py_remove_Some _ _ Ht) as [l' Hl']. rewrite Hl'. simpl.
  destruct (py_remove_NoDup _ _ _ Hl' Hnd) as [Hnd' Hnot].
  split; [|exact Hnd'].
  intros b Hb. simpl in Hb. simpl.
  fold (flag (write_is_selected t false (set_selected_annotations l' w)) b).
  rewrite flag_write.
  destruct (decide (t = b)) as [->|Hne].
  - split; [discriminate|]. intros H. done.
  - specialize (Hw b Hb). unfold flag, object_at in *. simpl. rewrite Hw.
    split; intros H.
    + apply (py_remove_other t _ _ b Hl'); [congruence|done].
    + by apply (py_remove_elem t _ l').
Qed.

Lemma select_annotation_synced w point ctrl :
  synced w -> synced (fst (select_annotation w point ctrl)).
Proof.
  intros Hw. unfold select_annotation.
  destruct (select_scan _ _ _ _ _) as [t|] eqn:Hscan.
  - destruct ctrl.
    + destruct (py_in t (selected_annotations w)) eqn:Hin; simpl.
      * apply drop_selected_synced; [done|]. by apply py_in_true.
      * apply add_selected_synced; [done|]. by apply py_in_false.
    + simpl. apply add_selected_synced; [by apply synced_clear|].
      destruct (clear_selection_spec w) as (_ & -> & _). apply not_elem_of_nil.
  - destruct ctrl; simpl; [done|by apply synced_clear].
Qed.

Lemma select_first_synced w point todo : synced w -> synced (select_first w point todo).
Proof.
  intros Hw. induction todo as [|a todo IH]; simpl; [done|].
  destruct (ann_contains_point _ _ _ _); simpl; [|done].
  destruct (py_in a (selected_annotations w)) eqn:Hin; simpl; [done|].
  apply add_selected_synced; [done|]. by apply py_in_false.
Qed.

Lemma select_multiple_synced w pts ctrl : synced w -> synced (select_multiple w pts ctrl).
Proof.
  intros Hw. unfold select_multiple.
  set (w0 := if ctrl then w else clear_selection w).
  assert (H0 : synced w0) by (destruct ctrl; [done|by apply synced_clear]).
  clearbody w0. revert w0 H0. induction pts as [|p pts IH]; intros w0 H0; simpl; [done|].
  apply IH. by apply select_first_synced.
Qed.

Lemma remove_annotation_synced w a :
  synced w -> NoDup (annotations w) -> synced (remove_annotation w a).
Proof.
  intros [Hw Hnd] Hna. unfold remove_annotation.
  destruct (py_in a (annotations w)) eqn:Hin; [|done].
  apply py_in_true in Hin.
  destruct (py_remove_Some _ _ Hin) as [l' Hl']. rewrite Hl'. simpl.
  destruct (py_remove_NoDup _ _ _ Hl' Hna) as [_ Hnot].
  destruct (py_in a (selected_annotations w)) eqn:Hsel.
  - apply py_in_true in Hsel.
    destruct (py_remove_Some _ _ Hsel) as [s' Hs']. rewrite Hs'. simpl.
    destruct (py_remove_NoDup _ _ _ Hs' Hnd) as [Hnd' _].
    split; [|done]. intros b Hb. simpl in *.
    assert (b ≠ a) by (intros ->; done).
    specialize (Hw b (py_remove_elem _ _ _ _ Hl' Hb)).
    unfold object_at in *. simpl. rewrite Hw. split; intros H1.
    + by apply (py_remove_other a _ _ b Hs').
    + by apply (py_remove_elem a _ s').
  - split; [|done]. intros b Hb. simpl in *.
    specialize (Hw b (py_remove_elem _ _ _ _ Hl' Hb)). done.
Qed.

(** [remove_annotation] takes the annotation out of both lists. *)
Lemma remove_annotation_from_both w a :
  NoDup (annotations w) -> NoDup (selected_annotations w) ->
  (a ∉ annotations (remove_annotation w a))
  ∧ (a ∈ annotations w -> a ∉ selected_annotations (remove_annotation w a)).
Proof.
  intros Hna Hns. unfold remove_annotation.
  destruct (py_in a (annotations w)) eqn:Hin.
  - apply py_in_true in Hin.
    destruct (py_remove_Some _ _ Hin) as [l' Hl']. rewrite Hl'. simpl.
    destruct (py_remove_NoDup _ _ _ Hl' Hna) as [_ Hnot].
    destruct (py_in a (selected_annotations w)) eqn:Hsel.
    + apply py_in_true in Hsel.
      destruct (py_remove_Some _ _ Hsel) as [s' Hs']. rewrite Hs'. simpl.
      destruct (py_remove_NoDup _ _ _ Hs' Hns) as [_ Hnot']. done.
    + simpl. apply py_in_false in Hsel. done.
  - apply py_in_false in Hin. done.
Qed.

(** C10, as amended: from a state where the flag of every annotation of the
    collection says whether it is in the selected list, and that list holds
    nothing twice, [select_annotation], [select_multiple] and
    [clear_selection] lead to such a state again, and so does
    [remove_annotation] when the collection holds no annotation twice. *)
Theorem selection_flag_synced (w : World) :
  selection_synced w -> NoDup (selected_annotations w) ->
  (∀ point ctrl_pressed,
      let w' := fst (select_annotation w point ctrl_pressed) in
      selection_synced w' ∧ NoDup (selected_annotations w'))
  ∧ (∀ pts ctrl_pressed,
      let w' := select_multiple w pts ctrl_pressed in
      selection_synced w' ∧ NoDup (selected_annotations w'))
  ∧ (let w' := clear_selection w in
     selection_synced w' ∧ NoDup (selected_annotations w'))
  ∧ (∀ a, NoDup (annotations w) ->
      let w' := remove_annotation w a in
      selection_synced w' ∧ NoDup (selected_annotations w')).
Proof.
  intros Hs Hnd. assert (Hw : synced w) by done.
  split; [|split; [|split]].
  - intros. by apply select_annotation_synced.
  - intros. by apply select_multiple_synced.
  - by apply synced_clear.
  - intros. by apply remove_annotation_synced.
Qed.

Lemma one_selected_synced : selection_synced one_selected.
Proof.
  intros a Ha. simpl in Ha. apply list_elem_of_singleton in Ha as ->.
  split; intros _; [by left|]. reflexivity.
Qed.

Lemma selection_flag_synced_witness :
  selection_synced one_selected ∧ NoDup (selected_annotations one_selected)
  ∧ (∀ point ctrl_pressed,
      let w' := fst (select_annotation one_selected point ctrl_pressed) in
      selection_synced w' ∧ NoDup (selected_annotations w'))
  ∧ (∀ pts ctrl_pressed,
      let w' := select_multiple one_selected pts ctrl_pressed in
      selection_synced w' ∧ NoDup (selected_annotations w'))
  ∧ (let w' := clear_selection one_selected in
     selection_synced w' ∧ NoDup (selected_annotations w'))
  ∧ (∀ a, NoDup (annotations one_selected) ->
      let w' := remove_annotation one_selected a in
      selection_synced w' ∧ NoDup (selected_annotations w')).
Proof.
  split; [exact one_selected_synced|]. split; [apply NoDup_singleton|].
  apply (selection_flag_synced one_selected).
  - exact one_selected_synced.
  - apply NoDup_singleton.
Defined.

Lemma twice_added_synced : selection_synced twice_added.
Proof.
  intros a Ha. simpl in Ha.
  assert (a = 0%nat) as ->.
  { apply elem_of_cons in Ha as [?|Ha]; [done|].
    apply list_elem_of_singleton in Ha. done. }
  split; intros _; [by left|]. reflexivity.
Qed.

(** C10 as stated fails when the collection holds an annotation twice:
    [remove_annotation] drops one occurrence and the selection entry, the
    other occurrence stays with its flag still set. *)
Lemma selection_flag_synced_counterexample :
  selection_synced twice_added
  ∧ NoDup (selected_annotations twice_added)
  ∧ annotations (remove_annotation twice_added 0) = [0%nat]
  ∧ selected_annotations (remove_annotation twice_added 0) = []
  ∧ ¬ selection_synced (remove_annotation twice_added 0).
Proof.
  split; [exact twice_added_synced|]. split; [apply NoDup_singleton|].
  split; [reflexivity|]. split; [reflexivity|].
  intros H. specialize (H 0%nat).
  assert (Hrem : remove_annotation twice_added 0
                 = set_selected_annotations [] (set_annotations [0%nat] twice_added)).
  { reflexivity. }
  rewrite Hrem in H. simpl in H.
  destruct H as [H _]; [by left|].
  specialize (H eq_refl). inversion H.
Qed.

(** *** Hit test and membership of the selection *)

Lemma select_scan_spec w point todo tgt md :
  (tgt = None -> md = None) ->
  let r := select_scan w point todo tgt md in
  (∀ s, s ∈ todo -> hit w point s = true -> s ∈ selected_annotations w ->
        ∃ t, r = Some t ∧ t ∈ todo ∧ hit w point t = true ∧ t ∈ selected_annotations w)
  ∧ (∀ t, r = Some t -> r = tgt ∨ (t ∈ todo ∧ hit w point t = true))
  ∧ (r = None -> tgt = None ∧ ∀ a, a ∈ todo -> hit w point a = false).
Proof.
  revert tgt md. induction todo as [|a todo IH]; intros tgt md Hinv; cbn [select_scan].
  - cbv zeta. split; [intros s Hs; inversion Hs|]. split; [intros t Ht; by left|].
    intros ->. split; [done|]. intros a Ha; inversion Ha.
  - fold (hit w point a). destruct (hit w point a) eqn:Hhit.
    + destruct (py_in a (selected_annotations w)) eqn:Hsel.
      * apply py_in_true in Hsel. cbv zeta. split; [|split].
        -- intros _ _ _ _. exists a. split; [done|]. split; [by left|done].
        -- intros t [= <-]. right. split; [by left|done].
        -- discriminate.
      * apply py_in_false in Hsel.
        set (dist := Rmin _ _).
        destruct (lt_running dist md) eqn:Hlt.
        -- destruct (IH (Some a) (Some dist) ltac:(discriminate)) as (H1 & H2 & H3).
           cbv zeta in *. split; [|split].
           ++ intros s Hs Hh Hss. apply elem_of_cons in Hs as [->|Hs]; [done|].
              destruct (H1 s Hs Hh Hss) as (t & ? & ? & ? & ?).
              exists t. split; [done|]. split; [by right|done].
           ++ intros t Ht. right. destruct (H2 t Ht) as [He|[? ?]].
              ** rewrite Ht in He. injection He as ->. split; [by left|done].
              ** split; [by right|done].
           ++ intros Hr. destruct (H3 Hr) as [? _]. discriminate.
        -- destruct tgt as [t0|].
           2:{ rewrite (Hinv eq_refl) in Hlt. discriminate. }
           destruct (IH (Some t0) md ltac:(discriminate)) as (H1 & H2 & H3).
           cbv zeta in *. split; [|split].
           ++ intros s Hs Hh Hss. apply elem_of_cons in Hs as [->|Hs]; [done|].
              destruct (H1 s Hs Hh Hss) as (t & ? & ? & ? & ?).
              exists t. split; [done|]. split; [by right|done].
           ++ intros t Ht. destruct (H2 t Ht) as [He|[? ?]]; [by left|].
              right. split; [by right|done].
           ++ intros Hr. destruct (H3 Hr) as [? _]. discriminate.
    + destruct (IH tgt md Hinv) as (H1 & H2 & H3). cbv zeta in *. split; [|split].
      * intros s Hs Hh Hss. apply elem_of_cons in Hs as [->|Hs]; [congruence|].
        destruct (H1 s Hs Hh Hss) as (t & ? & ? & ? & ?).
        exists t. split; [done|]. split; [by right|done].
      * intros t Ht. destruct (H2 t Ht) as [He|[? ?]]; [by left|].
        right. split; [by right|done].
      * intros Hr. destruct (H3 Hr) as [? Hall]. split; [done|].
        intros b Hb. apply elem_of_cons in Hb as [->|Hb]; [done|by apply Hall].
Qed.

Lemma lt_running_None d : lt_running d None = true.
Proof. reflexivity. Qed.

Lemma elem_of_rev (x : nat) l : x ∈ rev l <-> x ∈ l.
Proof. rewrite !list_elem_of_In. symmetry. apply in_rev. Qed.

(** [select_annotation] returns an annotation of the collection that
    contains the point (threshold 5), and [None] only when no annotation
    of the collection does; when some selected annotation contains the
    point, the one returned is a selected one. *)
Theorem select_annotation_returns_a_hit (w : World) (point : Point) (ctrl_pressed : bool) :
  match snd (select_annotation w point ctrl_pressed) with
  | Some target =>
      target ∈ annotations w
      ∧ ann_contains_point w (object_at w target) point 5 = true
      ∧ ((∃ a, a ∈ annotations w ∧ a ∈ selected_annotations w
               ∧ ann_contains_point w (object_at w a) point 5 = true)
         -> target ∈ selected_annotations w)
  | None =>
      ∀ a, a ∈ annotations w -> ann_contains_point w (object_at w a) point 5 = false
  end.
Proof.
  unfold select_annotation.
  destruct (select_scan_spec w point (rev (annotations w)) None None ltac:(done))
    as (H1 & H2 & H3). cbv zeta in *.
  destruct (select_scan w point (rev (annotations w)) None None) as [t|] eqn:Hscan.
  - assert (Ht : t ∈ rev (annotations w) ∧ hit w point t = true).
    { destruct (H2 t eq_refl) as [?|?]; [discriminate|done]. }
    destruct Ht as [Hin Hhit]. apply (proj1 (elem_of_rev _ _)) in Hin.
    assert (Hgoal : t ∈ annotations w
                    ∧ ann_contains_point w (object_at w t) point 5 = true
                    ∧ ((∃ a, a ∈ annotations w ∧ a ∈ selected_annotations w
                             ∧ ann_contains_point w (object_at w a) point 5 = true)
                       -> t ∈ selected_annotations w)).
    { split; [done|]. split; [done|]. intros (a & Ha & Hs & Hh).
      destruct (H1 a (proj2 (elem_of_rev _ _) Ha) Hh Hs) as (t' & Heq & _ & _ & Hsel).
      injection Heq as <-. done. }
    destruct ctrl_pressed; [destruct (py_in t (selected_annotations w))|]; exact Hgoal.
  - destruct (H3 eq_refl) as [_ Hall].
    assert (Hgoal : ∀ a, a ∈ annotations w ->
                         ann_contains_point w (object_at w a) point 5 = false).
    { intros a Ha. apply Hall. by apply (proj2 (elem_of_rev _ _)). }
    destruct ctrl_pressed; exact Hgoal.
Qed.

(** [select_annotation] without Ctrl keeps the collection and leaves
    selected exactly the annotation it returns (nothing when it returns
    [None]); the flag is set on the returned annotation, cleared on every
    other annotation that was selected, and unchanged elsewhere. *)
Theorem plain_click_selects_only_the_target (w : World) (point : Point) :
  let w' := fst (select_annotation w point false) in
  annotations w' = annotations w
  ∧ selected_annotations w'
    = match snd (select_annotation w point false) with
      | Some target => [target]
      | None => []
      end
  ∧ ∀ a, flag w' a
         = if bool_decide (snd (select_annotation w point false) = Some a) then true
           else if bool_decide (a ∈ selected_annotations w) then false
           else flag w a.
Proof.
  cbv zeta. unfold select_annotation.
  destruct (clear_selection_spec w) as (Ha & Hs & Hf). cbv zeta in *.
  destruct (select_scan w point (rev (annotations w)) None None) as [t|];
    cbv zeta; cbn [fst snd].
  - split; [exact Ha|].
    split; [unfold write_is_selected, set_objects;
            cbn [selected_annotations set_selected_annotations]; by rewrite Hs|].
    intros a. rewrite flag_write.
    destruct (decide (t = a)) as [->|Hne].
    + by rewrite bool_decide_eq_true_2.
    + rewrite bool_decide_eq_false_2 by congruence.
      change (flag (set_selected_annotations _ (clear_selection w)) a)
        with (flag (clear_selection w) a). apply Hf.
  - split; [exact Ha|]. split; [exact Hs|].
    intros a. rewrite bool_decide_eq_false_2 by discriminate. apply Hf.
Qed.

Lemma select_first_in_collection w point todo :
  (∀ a, a ∈ todo -> a ∈ annotations w) ->
  selected_in_collection w -> selected_in_collection (select_first w point todo)
  ∧ annotations (select_first w point todo) = annotations w.
Proof.
  intros Htodo Hw. induction todo as [|a todo IH]; simpl; [done|].
  destruct (_ && _).
  - split; [|reflexivity]. intros b Hb. simpl in *.
    apply elem_of_app in Hb as [Hb|Hb]; [by apply Hw|].
    apply list_elem_of_singleton in Hb as ->. apply Htodo. by left.
  - apply IH. intros b Hb. apply Htodo. by right.
Qed.

(** When every selected annotation is in the collection, this is still so
    after [select_annotation], [select_multiple], [clear_selection] and
    [add_annotation], and after [remove_annotation] when the selected list
    holds no annotation twice. *)
Theorem selection_stays_in_collection (w : World) :
  selected_in_collection w ->
  (∀ point ctrl_pressed,
      selected_in_collection (fst (select_annotation w point ctrl_pressed)))
  ∧ (∀ pts ctrl_pressed, selected_in_collection (select_multiple w pts ctrl_pressed))
  ∧ selected_in_collection (clear_selection w)
  ∧ (∀ a, selected_in_collection (add_annotation w a))
  ∧ (∀ a, NoDup (selected_annotations w) -> selected_in_collection (remove_annotation w a)).
Proof.
  intros Hw.
  assert (Hclear : selected_in_collection (clear_selection w)).
  { destruct (clear_selection_spec w) as (Ha & Hs & _). intros b Hb.
    rewrite Hs in Hb. inversion Hb. }
  split; [|split; [|split; [exact Hclear|split]]].
  - intros point ctrl.
    destruct (select_scan_spec w point (rev (annotations w)) None None ltac:(done))
      as (_ & H2 & _). cbv zeta in H2.
    unfold select_annotation.
    destruct (select_scan w point (rev (annotations w)) None None) as [t|].
    + assert (Ht : t ∈ annotations w).
      { destruct (H2 t eq_refl) as [?|[Hin _]]; [discriminate|].
        by apply (proj1 (elem_of_rev _ _)). }
      clear H2. destruct ctrl.
      * destruct (py_in t (selected_annotations w)) eqn:Hin; simpl; intros b Hb; simpl in *.
        -- apply py_in_true in Hin. destruct (py_remove_Some _ _ Hin) as [l' Hl'].
           rewrite Hl' in Hb. simpl in Hb. apply Hw. by apply (py_remove_elem t _ l').
        -- apply elem_of_app in Hb as [Hb|Hb]; [by apply Hw|].
           by apply list_elem_of_singleton in Hb as ->.
      * cbv zeta. cbn [fst]. intros b Hb.
        unfold write_is_selected, set_objects in *.
        cbn [selected_annotations annotations set_selected_annotations] in *.
        destruct (clear_selection_spec w) as (Ha & Hs & _). rewrite Ha.
        rewrite Hs in Hb. apply list_elem_of_singleton in Hb as ->. done.
    + destruct ctrl; simpl; done.
  - intros pts ctrl. unfold select_multiple.
    set (w0 := if ctrl then w else clear_selection w).
    assert (H0 : selected_in_collection w0) by (destruct ctrl; done).
    clearbody w0. revert w0 H0. induction pts as [|p pts IH]; intros w0 H0; simpl; [done|].
    apply IH. apply select_first_in_collection; [|done].
    intros a Ha. by apply (proj1 (elem_of_rev _ _)).
  - intros a b Hb. simpl in *. apply elem_of_app. left. by apply Hw.
  - intros a Hnd. unfold remove_annotation.
    destruct (py_in a (annotations w)) eqn:Hin; [|done].
    apply py_in_true in Hin. destruct (py_remove_Some _ _ Hin) as [l' Hl'].
    rewrite Hl'. simpl.
    destruct (py_in a (selected_annotations w)) eqn:Hsel.
    + apply py_in_true in Hsel. destruct (py_remove_Some _ _ Hsel) as [s' Hs'].
      rewrite Hs'. simpl. destruct (py_remove_NoDup _ _ _ Hs' Hnd) as [_ Hnot].
      intros b Hb. simpl in *.
      apply (py_remove_other a _ _ b Hl'); [intros ->; done|].
      apply Hw. by apply (py_remove_elem a _ s').
    + apply py_in_false in Hsel. intros b Hb. simpl in *.
      apply (py_remove_other a _ _ b Hl'); [intros ->; done|]. by apply Hw.
Qed.

Lemma one_selected_in_collection : selected_in_collection one_selected.
Proof. intros a Ha. exact Ha. Qed.

Lemma selection_stays_in_collection_witness :
  selected_in_collection one_selected
  ∧ (∀ point ctrl_pressed,
        selected_in_collection (fst (select_annotation one_selected point ctrl_pressed)))
  ∧ (∀ pts ctrl_pressed,
        selected_in_collection (select_multiple one_selected pts ctrl_pressed))
  ∧ selected_in_collection (clear_selection one_selected)
  ∧ (∀ a, selected_in_collection (add_annotation one_selected a))
  ∧ (∀ a, NoDup (selected_annotations one_selected) ->
          selected_in_collection (remove_annotation one_selected a)).
Proof.
  split; [exact one_selected_in_collection|].
  apply (selection_stays_in_collection one_selected). exact one_selected_in_collection.
Defined.

(** *** Geometry of annotations *)

(** The bounding box of a line or rectangle annotation is the same for
    both classes and for the two corners in either order; its minimum
    corner is below its maximum corner in both coordinates, and it
    contains both corner points at every threshold. *)
Theorem bounding_box_is_normalised (w : World) (base : Base) (start end_ : nat) (t : R) :
  let box := get_bounding_box w (RectangleAnnotation base start end_) in
  get_bounding_box w (LineAnnotation base start end_ false) = box
  ∧ get_bounding_box w (RectangleAnnotation base end_ start) = box
  ∧ px (min_point box) <= px (max_point box)
  ∧ py (min_point box) <= py (max_point box)
  ∧ contains_point box (point_at w start) t = true
  ∧ contains_point box (point_at w end_) t = true.
Proof.
  cbv zeta. simpl get_bounding_box.
  split; [reflexivity|]. split.
  { rewrite (Rmin_comm (px (point_at w end_))), (Rmin_comm (py (point_at w end_))),
      (Rmax_comm (px (point_at w end_))), (Rmax_comm (py (point_at w end_))). reflexivity. }
  cbn [min_point max_point px py].
  split; [eapply Rle_trans; [apply Rmin_l|apply Rmax_l]|].
  split; [eapply Rle_trans; [apply Rmin_l|apply Rmax_l]|].
  split; apply contains_point_inside; cbn [min_point max_point px py];
    (split; [first [apply Rmin_l|apply Rmin_r]|first [apply Rmax_l|apply Rmax_r]]).
Qed.

Lemma distance_to_along s e u :
  0 <= u -> distance_to s (along s e u) = u * distance_to s e.
Proof.
  intros Hu. unfold distance_to, along. cbn [px py].
  replace ((px s - (px s + u * (px e - px s))) ^ 2 + (py s - (py s + u * (py e - py s))) ^ 2)
    with (u * u * ((px s - px e) ^ 2 + (py s - py e) ^ 2)) by ring.
  rewrite sqrt_mult_alt by nra. rewrite sqrt_square by exact Hu. reflexivity.
Qed.

(** With a threshold of at least 0.1, [LineAnnotation.contains_point]
    accepts every point of the segment from [start] to [end]. *)
Theorem line_contains_its_points (s e : Point) (u threshold : R) :
  0 <= u <= 1 -> 0.1 <= threshold ->
  line_contains_point s e (along s e u) threshold = true.
Proof.
  intros [Hu0 Hu1] Ht. unfold line_contains_point.
  case_bool_decide as Hd.
  - apply bool_decide_eq_true_2. rewrite distance_to_along by exact Hu0.
    assert (0 <= distance_to s e) by apply sqrt_pos. nra.
  - cbv zeta. apply bool_decide_eq_true_2.
    set (dx := px e - px s). set (dy := py e - py s).
    assert (Hl2 : 0 < dx * dx + dy * dy).
    { destruct (Rle_lt_dec (dx * dx + dy * dy) 0) as [Hle|]; [|done].
      exfalso. apply Hd. unfold distance_to.
      replace ((px s - px e) ^ 2 + (py s - py e) ^ 2) with (dx * dx + dy * dy)
        by (unfold dx, dy; ring).
      assert (dx * dx + dy * dy = 0) by nra. rewrite H, sqrt_0. lra. }
    unfold along. cbn [px py]. fold dx dy.
    replace (((px s + u * dx - px s) * dx + (py s + u * dy - py s) * dy) / (dx * dx + dy * dy))
      with u by (field; lra).
    replace (Rmax 0 (Rmin 1 u)) with u.
    2:{ unfold Rmax, Rmin. destruct (Rle_dec 1 u); destruct (Rle_dec 0 _); lra. }
    replace ((px s + u * dx - (px s + u * dx)) ^ 2 + (py s + u * dy - (py s + u * dy)) ^ 2)
      with 0 by ring.
    rewrite sqrt_0. lra.
Qed.

Lemma line_contains_its_points_witness :
  0 <= 1 / 2 <= 1 ∧ 0.1 <= 5
  ∧ line_contains_point (mkPoint 100 100) (mkPoint 200 101)
      (along (mkPoint 100 100) (mkPoint 200 101) (1 / 2)) 5 = true.
Proof.
  split; [lra|]. split; [lra|].
  apply (line_contains_its_points (mkPoint 100 100) (mkPoint 200 101) (1 / 2) 5); lra.
Defined.

Lemma add_x_lookup r d (ps : gmap nat Point) r' :
  add_x r d ps !!! r'
  = if decide (r = r') then mkPoint (px (ps !!! r') + d) (py (ps !!! r')) else ps !!! r'.
Proof.
  unfold add_x. destruct (decide (r = r')) as [->|Hne].
  - apply lookup_total_insert_eq.
  - by apply lookup_total_insert_ne.
Qed.

Lemma add_y_lookup r d (ps : gmap nat Point) r' :
  add_y r d ps !!! r'
  = if decide (r = r') then mkPoint (px (ps !!! r')) (py (ps !!! r') + d) else ps !!! r'.
Proof.
  unfold add_y. destruct (decide (r = r')) as [->|Hne].
  - apply lookup_total_insert_eq.
  - by apply lookup_total_insert_ne.
Qed.

Lemma Point_eq p x y : px p = x -> py p = y -> mkPoint x y = p.
Proof. destruct p. simpl. by intros -> ->. Qed.

(** Moving an annotation that is no locked horizontal line by [(dx, dy)]
    and then by [(-dx, -dy)] leaves every [Point] object as it was, also
    when [start] and [end] are the same object. *)
Theorem move_back_restores_points (w : World) (a : nat) (dx dy : R) (r : nat) :
  is_horizontal_of (object_at w a) ≠ Some true ->
  point_at (move (move w a dx dy) a (- dx) (- dy)) r = point_at w r.
Proof.
  intros Hh.
  assert (Hobj : ∀ ps, object_at (set_points ps w) a = object_at w a) by reflexivity.
  unfold move, point_at. cbn [points set_points]. rewrite Hobj.
  destruct (object_at w a) as [b s e h|b s e|b p txt fs tw th]; cbn [move_points].
  - destruct h; [done|]. cbv zeta.
    repeat (rewrite add_y_lookup || rewrite add_x_lookup).
    destruct (decide (e = r)), (decide (s = r)); cbn [px py];
      first [reflexivity | apply Point_eq; cbn [px py]; ring].
  - cbv zeta. repeat (rewrite add_y_lookup || rewrite add_x_lookup).
    destruct (decide (e = r)), (decide (s = r)); cbn [px py];
      first [reflexivity | apply Point_eq; cbn [px py]; ring].
  - cbv zeta. repeat (rewrite add_y_lookup || rewrite add_x_lookup).
    destruct (decide (p = r)); cbn [px py];
      first [reflexivity | apply Point_eq; cbn [px py]; ring].
Qed.

Lemma move_back_restores_points_witness :
  is_horizontal_of (object_at one_selected 0) ≠ Some true
  ∧ point_at (move (move one_selected 0 5 7) 0 (- 5) (- 7)) 1 = point_at one_selected 1.
Proof.
  assert (H : is_horizontal_of (object_at one_selected 0) ≠ Some true).
  { change (object_at one_selected 0)
      with (RectangleAnnotation (mkBase "black" 1 None true None) 0 1). discriminate. }
  split; [exact H|].
  apply (move_back_restores_points one_selected 0 5 7 1 H).
Defined.

End AnnotationsSpec.

(** ** drawing_canvas.py *)

Module CanvasSpec.
Import Canvas.

(** *** Steps of the handler monad *)

Lemma bind_gets {A B} (f : Canvas -> A) (k : A -> M B) c : bind (gets f) k c = k (f c) c.
Proof. reflexivity. Qed.

Lemma bind_modify {B} g (k : unit -> M B) c : bind (modify g) k c = k tt (g c).
Proof. reflexivity. Qed.

Lemma bind_ok {A B} (m : M A) (k : A -> M B) c a c' :
  m c = (Ok a, c') -> bind m k c = k a c'.
Proof. intros H. unfold bind. by rewrite H. Qed.

Lemma set_store_same c : set_store (store c) c = c.
Proof. by destruct c. Qed.

Lemma store_set_store st c : store (set_store st c) = st.
Proof. reflexivity. Qed.

Lemma read_ok r a c v : getattr a (shape_at c r) = Some v -> read r a c = (Ok v, c).
Proof. intros H. unfold read. by rewrite H. Qed.

Lemma for_each_ext {A} (l : list A) (f g : A -> M unit) :
  (∀ v c, f v c = g v c) -> ∀ c, for_each l f c = for_each l g c.
Proof.
  intros Hfg. induction l as [|v l IH]; intros c; simpl; [reflexivity|].
  unfold bind. rewrite Hfg. destruct (g v c) as [[[]|e] c']; [apply IH|reflexivity].
Qed.

Lemma for_each_update f l c :
  for_each l (fun r => update_shape r f) c = (Ok tt, set_store (update_all f l (store c)) c).
Proof.
  revert c. induction l as [|r l IH]; intros c; simpl.
  - unfold ret. by rewrite set_store_same.
  - unfold bind. unfold update_shape at 1, modify. rewrite IH. reflexivity.
Qed.

Lemma update_all_lookup f l st r :
  (∀ s, f (f s) = f s) ->
  update_all f l st !!! r = if bool_decide (r ∈ l) then f (st !!! r) else st !!! r.
Proof.
  intros Hf. revert st. induction l as [|a l IH]; intros st; simpl; [reflexivity|].
  unfold update_all in *. simpl. rewrite IH.
  destruct (decide (a = r)) as [->|Hne].
  - rewrite lookup_total_insert_eq, Hf.
    rewrite (bool_decide_eq_true_2 (r ∈ r :: l)) by (by left).
    by case_bool_decide.
  - rewrite lookup_total_insert_ne by done.
    destruct (bool_decide (r ∈ l)) eqn:E.
    + apply bool_decide_eq_true in E. rewrite bool_decide_eq_true_2; [done|by right].
    + apply bool_decide_eq_false in E. rewrite bool_decide_eq_false_2; [done|].
      intros Hin. apply elem_of_cons in Hin as [?|?]; [congruence|done].
Qed.

(** *** Components a handler leaves alone *)

Section Keeps.
Context {X : Type} (f : Canvas -> X).

Lemma keeps_ret {A} (a : A) : keeps f (ret a).
Proof. intros c. reflexivity. Qed.

Lemma keeps_raise {A} e : keeps f (@raise A e).
Proof. intros c. reflexivity. Qed.

Lemma keeps_gets {A} (g : Canvas -> A) : keeps f (gets g).
Proof. intros c. reflexivity. Qed.

Lemma keeps_lift {A} (o : outcome A) : keeps f (lift o).
Proof. intros c. reflexivity. Qed.

Lemma keeps_modify g : (∀ c, f (g c) = f c) -> keeps f (modify g).
Proof. intros H c. apply H. Qed.

Lemma keeps_bind {A B} (m : M A) (k : A -> M B) :
  keeps f m -> (∀ a, keeps f (k a)) -> keeps f (bind m k).
Proof.
  intros Hm Hk c. unfold bind. specialize (Hm c).
  destruct (m c) as [[a|e] c']; simpl in *; [|exact Hm].
  rewrite Hk. exact Hm.
Qed.

Lemma keeps_for_each {A} (l : list A) body :
  (∀ v, keeps f (body v)) -> keeps f (for_each l body).
Proof.
  intros Hb. induction l as [|v l IH]; simpl; [apply keeps_ret|].
  apply keeps_bind; [apply Hb|intros _; exact IH].
Qed.

Lemma keeps_when b m : keeps f m -> keeps f (when b m).
Proof. intros Hm. destruct b; [exact Hm|apply keeps_ret]. Qed.

Lemma keeps_read r a : keeps f (read r a).
Proof. intros c. unfold read. by destruct (getattr a (shape_at c r)). Qed.

End Keeps.

Ltac keeps_step :=
  first
    [ apply keeps_ret | apply keeps_raise | apply keeps_gets | apply keeps_lift
    | apply keeps_read
    | apply keeps_modify; intros; reflexivity
    | apply keeps_when
    | apply keeps_for_each; intros
    | apply keeps_bind; [|intros]
    | match goal with
      | |- keeps _ (match ?x with _ => _ end) => destruct x
      | |- keeps _ (let _ := _ in _) => cbv zeta
      end ].

Lemma resize_shape_keeps {X} (f : Canvas -> X) x y :
  (∀ st c, f (set_store st c) = f c) -> keeps f (resize_shape x y).
Proof.
  intros Hst. unfold resize_shape.
  repeat first
    [ keeps_step
    | apply keeps_modify; intros; apply Hst
    | progress unfold write, update_shape, refresh_corner_points, get_snap_point ].
Qed.

Lemma move_shape_keeps {X} (f : Canvas -> X) dx dy :
  (∀ st c, f (set_store st c) = f c) -> keeps f (move_shape dx dy).
Proof.
  intros Hst. unfold move_shape.
  repeat first
    [ keeps_step
    | apply keeps_modify; intros; apply Hst
    | progress unfold write, increase, update_shape, refresh_corner_points,
        refresh_end_points, shift_circle, shift_points ].
Qed.

(** A drag tick, whether it moves, resizes or drags an endpoint, records
    nothing. *)
Lemma on_drag_keeps_undo_stack x y : keeps undo_stack (on_drag x y).
Proof.
  unfold on_drag.
  repeat first
    [ apply resize_shape_keeps; intros; reflexivity
    | apply move_shape_keeps; intros; reflexivity
    | keeps_step
    | progress unfold write, update_shape, refresh_end_points ].
Qed.

Lemma on_drag_keeps_redo_stack x y : keeps redo_stack (on_drag x y).
Proof.
  unfold on_drag.
  repeat first
    [ apply resize_shape_keeps; intros; reflexivity
    | apply move_shape_keeps; intros; reflexivity
    | keeps_step
    | progress unfold write, update_shape, refresh_end_points ].
Qed.

(** Releasing the button records nothing either. *)
Lemma on_release_keeps_undo_stack : keeps undo_stack on_release.
Proof. unfold on_release. repeat keeps_step. Qed.

Lemma duplicate_each_keeps_undo_stack l : keeps undo_stack (duplicate_each l).
Proof.
  induction l as [|r l IH]; simpl; [apply keeps_ret|].
  apply keeps_bind; [apply keeps_gets|intros c0].
  apply keeps_bind; [intros c; reflexivity|intros new].
  apply keeps_bind; [apply keeps_modify; intros; reflexivity|intros _].
  apply keeps_bind; [exact IH|intros more]. apply keeps_ret.
Qed.

(** [duplicate_selected] appends shapes and records nothing. *)
Lemma duplicate_selected_keeps_undo_stack : keeps undo_stack duplicate_selected.
Proof.
  unfold duplicate_selected.
  apply keeps_bind; [apply keeps_gets|intros c0].
  destruct (selected_shapes c0); [apply keeps_ret|]. cbv zeta.
  apply keeps_bind; [apply keeps_modify; intros; reflexivity|intros _].
  apply keeps_bind; [apply duplicate_each_keeps_undo_stack|intros new].
  apply keeps_bind; [|intros _; apply keeps_modify; intros; reflexivity].
  apply keeps_for_each. intros v. apply keeps_modify. intros c.
  by destruct (py_in v (selected_shapes c)).
Qed.

(** *** The edits that are recorded *)

Lemma commit_shape_pushes_one s c :
  let c' := exec (commit_shape s) c in
  undo_stack c' = undo_stack c ++ [op_add_shape (next_ref c)] ∧ redo_stack c' = [].
Proof. split; reflexivity. Qed.

Lemma push_property_change_pushes_one p old new c :
  let c' := exec (push_property_change p old new) c in
  undo_stack c' = undo_stack c ++ [op_change_property p old new] ∧ redo_stack c' = [].
Proof. split; reflexivity. Qed.

Lemma shapes_discard_keeps {X} (f : Canvas -> X) r :
  (∀ l c, f (set_shapes l c) = f c) -> keeps f (shapes_discard r).
Proof.
  intros H. unfold shapes_discard, shapes_remove.
  repeat first [ keeps_step | apply keeps_modify; intros; apply H ].
Qed.

Lemma shapes_discard_ok r c : ∃ c', shapes_discard r c = (Ok tt, c').
Proof.
  unfold shapes_discard. rewrite bind_gets.
  destruct (py_in r (shapes c)) eqn:Hin; [|by eexists].
  apply py_in_true in Hin. destruct (py_remove_Some _ _ Hin) as [l' Hl'].
  unfold shapes_remove. rewrite bind_gets, Hl'. by eexists.
Qed.

Lemma for_each_discard_ok l c : ∃ c', for_each l shapes_discard c = (Ok tt, c').
Proof.
  revert c. induction l as [|r l IH]; intros c; simpl; [by eexists|].
  destruct (shapes_discard_ok r c) as [c1 H1]. rewrite (bind_ok _ _ _ _ _ H1). apply IH.
Qed.

Lemma delete_selected_pushes_one c first rest indices :
  selected_shapes c = first :: rest ->
  indices_of (first :: rest) (shapes c) = Some indices ->
  let c' := exec delete_selected c in
  undo_stack c' = undo_stack c ++ [op_delete_shapes (first :: rest) indices]
  ∧ redo_stack c' = [] ∧ selected_shapes c' = [].
Proof.
  intros Hsel Hidx. unfold exec, delete_selected.
  rewrite bind_gets, Hsel. cbv zeta. rewrite Hidx. rewrite bind_modify.
  set (c1 := set_undo_stack _ c).
  destruct (for_each_discard_ok (first :: rest) c1) as [c2 H2].
  rewrite (bind_ok _ _ _ _ _ H2).
  pose proof (keeps_for_each undo_stack (first :: rest) shapes_discard
                (fun r => shapes_discard_keeps undo_stack r (fun _ _ => eq_refl)) c1) as Hk.
  rewrite H2 in Hk. simpl in Hk.
  split; [|split]; [|reflexivity|reflexivity].
  transitivity (undo_stack c2); [reflexivity|]. rewrite Hk. reflexivity.
Qed.

(** C1, at the failing inputs.  On the canvas with one line drawn and
    selected, Ctrl+D appends the copy and leaves the undo stack as it was, so
    the next undo removes the original line and keeps the copy; a drag tick
    moves the line and leaves both stacks as they were. *)
Theorem duplicate_and_drag_record_nothing :
  let after_duplicate := exec duplicate_selected drawn_and_selected in
  let dragging := exec (on_drag 150 150) drawn_and_selected in
  let after_drag := exec (on_drag 160 170) dragging in
  (shapes drawn_and_selected = [0%nat]
   ∧ undo_stack drawn_and_selected = [op_add_shape 0]
   ∧ shapes after_duplicate = [0%nat; 1%nat]
   ∧ selected_shapes after_duplicate = [1%nat]
   ∧ undo_stack after_duplicate = [op_add_shape 0]
   ∧ redo_stack after_duplicate = []
   ∧ shapes (exec undo after_duplicate) = [1%nat])
  ∧ (geometry (shape_at dragging 0) = Line 100 100 200 200
     ∧ geometry (shape_at after_drag 0)
       = Line (100 + (160 - 150)) (100 + (170 - 150)) (200 + (160 - 150)) (200 + (170 - 150))
     ∧ undo_stack after_drag = [op_add_shape 0]
     ∧ redo_stack after_drag = []).
Proof. repeat split; reflexivity. Qed.

(** *** The rectangle constructor *)

Lemma Rectangle_init_geometry x1 y1 x2 y2 c w s :
  geometry (Rectangle_init x1 y1 x2 y2 c w s)
  = Rectangle (Rmin x1 x2) (Rmin y1 y2) (Rmax x1 x2) (Rmax y1 y2).
Proof. reflexivity. Qed.

(** C5, as amended: a [Rectangle] stores the normalised corners, the
    smaller coordinates first, and its [points] are the four corners of
    that box; the stored corners are the raw ones exactly when the input
    was already ordered. *)
Theorem rectangle_stores_normalised_corners
    (x1 y1 x2 y2 : R) (c : string) (w : Z) (s : Style) :
  let r := Rectangle_init x1 y1 x2 y2 c w s in
  geometry r = Rectangle (Rmin x1 x2) (Rmin y1 y2) (Rmax x1 x2) (Rmax y1 y2)
  ∧ points r = [(Rmin x1 x2, Rmin y1 y2); (Rmax x1 x2, Rmin y1 y2);
                (Rmax x1 x2, Rmax y1 y2); (Rmin x1 x2, Rmax y1 y2)]
  ∧ (geometry r = Rectangle x1 y1 x2 y2 <-> x1 <= x2 ∧ y1 <= y2).
Proof.
  split; [reflexivity|]. split; [reflexivity|].
  rewrite Rectangle_init_geometry. split.
  - intros [= H1 H2 H3 H4]. split.
    + rewrite <- H1. apply Rmin_r.
    + rewrite <- H2. apply Rmin_r.
  - intros [Hx Hy].
    rewrite (Rmin_left x1 x2), (Rmin_left y1 y2), (Rmax_right x1 x2), (Rmax_right y1 y2);
      done.
Qed.

(** C5 as stated fails: built from (200,200) and (100,100) the rectangle
    stores (100,100) as its first corner. *)
Lemma rectangle_raw_corners_counterexample :
  geometry (Rectangle_init 200 200 100 100 "black" 1 None) = Rectangle 100 100 200 200
  ∧ Rectangle 100 100 200 200 ≠ Rectangle 200 200 100 100.
Proof.
  split.
  - rewrite Rectangle_init_geometry.
    rewrite Rmin_right, Rmax_left by lra. reflexivity.
  - intros [= H _]. lra.
Qed.

Lemma rect100_constructed : Rectangle_init 100 100 200 200 "black" 1 None = rect100.
Proof.
  unfold Rectangle_init, rect100.
  rewrite Rmin_left, Rmax_right by lra. reflexivity.
Qed.

(** *** Tangent circles *)

(** The point the tangent branch returns is at distance [r1] from the first
    centre and [|d - r1|] from the second. *)
Lemma tangent_point_distances x1 y1 r1 x2 y2 :
  let d := sqrt ((x2 - x1) ^ 2 + (y2 - y1) ^ 2) in
  0 < d -> 0 <= r1 ->
  let t := r1 / d in
  let x := x1 + t * (x2 - x1) in
  let y := y1 + t * (y2 - y1) in
  sqrt ((x - x1) ^ 2 + (y - y1) ^ 2) = r1
  ∧ sqrt ((x - x2) ^ 2 + (y - y2) ^ 2) = Rabs (d - r1).
Proof.
  intros d Hd Hr t x y.
  assert (Hdd : d * d = (x2 - x1) ^ 2 + (y2 - y1) ^ 2).
  { unfold d. apply sqrt_sqrt. apply Rplus_le_le_0_compat; apply pow2_ge_0. }
  split.
  - replace ((x - x1) ^ 2 + (y - y1) ^ 2) with (r1 ^ 2).
    + rewrite sqrt_pow2_abs. apply Rabs_right. lra.
    + unfold x, y, t. transitivity (r1 ^ 2 * ((d * d) / (d * d))).
      * field. lra.
      * rewrite Hdd at 1. field. lra.
  - replace ((x - x2) ^ 2 + (y - y2) ^ 2) with ((d - r1) ^ 2).
    + apply sqrt_pow2_abs.
    + unfold x, y, t. transitivity ((d - r1) ^ 2 * ((d * d) / (d * d))).
      * field. lra.
      * rewrite Hdd at 1. field. lra.
Qed.

(** Circles that touch from outside: one point, on both circles. *)
Lemma outer_tangent_on_both_circles x1 y1 r1 x2 y2 r2 :
  let d := sqrt ((x2 - x1) ^ 2 + (y2 - y1) ^ 2) in
  0 < d -> 0 <= r1 -> 0 <= r2 -> d = r1 + r2 ->
  ∃ p, get_circle_circle_intersection x1 y1 r1 x2 y2 r2 = [p]
       ∧ sqrt ((fst p - x1) ^ 2 + (snd p - y1) ^ 2) = r1
       ∧ sqrt ((fst p - x2) ^ 2 + (snd p - y2) ^ 2) = r2.
Proof.
  intros d Hd Hr1 Hr2 Hsum.
  destruct (tangent_point_distances x1 y1 r1 x2 y2 Hd Hr1) as [H1 H2].
  fold d in H1, H2.
  unfold get_circle_circle_intersection. fold d.
  rewrite (bool_decide_eq_false_2 (d > r1 + r2)) by lra.
  rewrite (bool_decide_eq_false_2 (d < Rabs (r1 - r2))).
  2:{ unfold Rabs. destruct (Rcase_abs (r1 - r2)); lra. }
  rewrite (bool_decide_eq_false_2 (d = 0)) by lra.
  rewrite (bool_decide_eq_true_2 (d = r1 + r2)) by done.
  cbn [andb orb]. eexists. split; [reflexivity|]. cbn [fst snd]. split; [exact H1|].
  rewrite H2. rewrite Hsum. rewrite Rabs_right; lra.
Qed.

(** The scenario of the specification: centres (200,200) and (300,200),
    both radii 50. *)
Lemma tangent_scenario :
  get_circle_circle_intersection 200 200 50 300 200 50 = [(250, 200)].
Proof.
  unfold get_circle_circle_intersection.
  replace ((300 - 200) ^ 2 + (200 - 200) ^ 2) with (100 ^ 2 + 0 ^ 2) by ring.
  rewrite sqrt_sq_plus_0 by lra.
  rewrite (bool_decide_eq_false_2 (100 > 50 + 50)) by lra.
  rewrite (bool_decide_eq_false_2 (100 < Rabs (50 - 50))).
  2:{ unfold Rabs. destruct (Rcase_abs (50 - 50)); lra. }
  rewrite (bool_decide_eq_false_2 (100 = 0)) by lra.
  rewrite (bool_decide_eq_true_2 (100 = 50 + 50)) by lra.
  simpl. f_equal. f_equal; field.
Qed.

Lemma Circle_init_horizontal cx cy x2 c w s :
  cx <= x2 ->
  geometry (Circle_init cx cy x2 cy c w s) = Circle cx cy x2 cy (x2 - cx) None None.
Proof.
  intros H. unfold Circle_init; simpl.
  replace ((cy - cy) * ((cy - cy) * 1)) with (0 ^ 2) by ring.
  replace ((x2 - cx) * ((x2 - cx) * 1)) with ((x2 - cx) ^ 2) by ring.
  rewrite sqrt_sq_plus_0 by lra. reflexivity.
Qed.

Lemma inner_tangent_value :
  get_circle_circle_intersection 200 200 25 225 200 50 = [(225, 200)].
Proof.
  unfold get_circle_circle_intersection.
  replace ((225 - 200) ^ 2 + (200 - 200) ^ 2) with (25 ^ 2 + 0 ^ 2) by ring.
  rewrite sqrt_sq_plus_0 by lra.
  replace (Rabs (25 - 50)) with 25 by (rewrite Rabs_left; lra).
  rewrite (bool_decide_eq_false_2 (25 > 25 + 50)) by lra.
  rewrite (bool_decide_eq_false_2 (25 < 25)) by lra.
  rewrite (bool_decide_eq_false_2 (25 = 0)) by lra.
  rewrite (bool_decide_eq_false_2 (25 = 25 + 50)) by lra.
  rewrite (bool_decide_eq_true_2 (25 = 25)) by lra.
  simpl. f_equal. f_equal; field.
Qed.

(** C6, at the failing input.  The circle of radius 25 around (200,200)
    touches the circle of radius 50 around (225,200) from inside, at
    (175,200); the centre distance is 25 = |25 - 50|.  The code returns the
    single point (225,200), the centre of the second circle, which is at
    distance 0 from that centre and not 50. *)
Theorem inner_tangent_point_misses_second_circle :
  let circle1 := Circle_init 200 200 225 200 "black" 1 None in
  let circle2 := Circle_init 225 200 275 200 "black" 1 None in
  circle_of circle1 = Some (200, 200, 25)
  ∧ circle_of circle2 = Some (225, 200, 50)
  ∧ sqrt ((225 - 200) ^ 2 + (200 - 200) ^ 2) = Rabs (25 - 50)
  ∧ get_intersection_points circle1 circle2 = Ok [(225, 200)]
  ∧ sqrt ((225 - 200) ^ 2 + (200 - 200) ^ 2) = 25
  ∧ sqrt ((225 - 225) ^ 2 + (200 - 200) ^ 2) ≠ 50.
Proof.
  intros circle1 circle2.
  assert (H1 : geometry circle1 = Circle 200 200 225 200 25 None None).
  { unfold circle1. rewrite Circle_init_horizontal by lra. do 2 f_equal; lra. }
  assert (H2 : geometry circle2 = Circle 225 200 275 200 50 None None).
  { unfold circle2. rewrite Circle_init_horizontal by lra. do 2 f_equal; lra. }
  assert (Hd : sqrt ((225 - 200) ^ 2 + (200 - 200) ^ 2) = 25).
  { replace ((225 - 200) ^ 2 + (200 - 200) ^ 2) with (25 ^ 2 + 0 ^ 2) by ring.
    apply sqrt_sq_plus_0. lra. }
  split; [unfold circle_of; by rewrite H1|].
  split; [unfold circle_of; by rewrite H2|].
  split; [rewrite Hd, Rabs_left; lra|].
  split.
  { unfold get_intersection_points. rewrite H1, H2. f_equal. apply inner_tangent_value. }
  split; [exact Hd|].
  replace ((225 - 225) ^ 2 + (200 - 200) ^ 2) with (0 ^ 2 + 0 ^ 2) by ring.
  rewrite sqrt_sq_plus_0 by lra. lra.
Qed.

(** *** The snap engine *)

Lemma closest_best x y todo : ∀ seen cp md,
  best_so_far x y seen cp md ->
  ∃ md', best_so_far x y (seen ++ todo) (closest x y todo cp md) md'.
Proof.
  induction todo as [|p todo IH]; intros seen cp md Hb; simpl.
  - exists md. by rewrite app_nil_r.
  - replace (seen ++ p :: todo) with ((seen ++ [p]) ++ todo)
      by (rewrite <- app_assoc; reflexivity).
    destruct (lt_running (snap_dist x y p) md && bool_decide (snap_dist x y p <= snap_distance))
      eqn:Htest; apply IH.
    + apply andb_true_iff in Htest as [Hlt Hle]. apply bool_decide_eq_true in Hle.
      simpl. split; [reflexivity|]. split; [apply elem_of_app; right; by left|].
      split; [exact Hle|]. intros q Hq.
      apply elem_of_app in Hq as [Hq|Hq].
      * destruct cp as [p0|], md as [d|]; simpl in Hb; try done.
        -- destruct Hb as (-> & _ & _ & Hall). simpl in Hlt.
           apply bool_decide_eq_true in Hlt. specialize (Hall q Hq). lra.
        -- specialize (Hb q Hq). lra.
      * apply list_elem_of_singleton in Hq as ->. lra.
    + apply andb_false_iff in Htest.
      destruct cp as [p0|], md as [d|]; simpl in Hb; try done.
      * destruct Hb as (-> & Hin & Hle & Hall). simpl.
        split; [reflexivity|]. split; [by apply elem_of_app; left|]. split; [exact Hle|].
        intros q Hq. apply elem_of_app in Hq as [Hq|Hq]; [by apply Hall|].
        apply list_elem_of_singleton in Hq as ->.
        destruct Htest as [Hlt|Hfar].
        -- simpl in Hlt. apply bool_decide_eq_false in Hlt. lra.
        -- apply bool_decide_eq_false in Hfar. lra.
      * simpl. intros q Hq. apply elem_of_app in Hq as [Hq|Hq]; [by apply Hb|].
        apply list_elem_of_singleton in Hq as ->.
        destruct Htest as [Hlt|Hfar]; [discriminate|].
        by apply bool_decide_eq_false in Hfar.
Qed.

(** The outcome of the last loop of [get_snap_point]. *)
Lemma closest_spec x y cands :
  match closest x y cands None None with
  | Some p => p ∈ cands ∧ snap_dist x y p <= snap_distance
              ∧ ∀ q, q ∈ cands -> snap_dist x y p <= snap_dist x y q
  | None => ∀ q, q ∈ cands -> ¬ snap_dist x y q <= snap_distance
  end.
Proof.
  destruct (closest_best x y cands [] None None) as [md Hb].
  { simpl. intros q Hq. inversion Hq. }
  simpl in Hb. destruct (closest x y cands None None) as [p|], md as [d|]; simpl in Hb;
    try done.
  destruct Hb as (-> & ? & ? & ?). done.
Qed.

Lemma item_ok ps i : (i < length ps)%nat -> ∃ p, item ps i = Ok p.
Proof.
  intros Hi. unfold item. destruct (nth_error ps i) eqn:E; [eauto|].
  apply nth_error_None in E. lia.
Qed.

Lemma concat_results_ok {A B} (f : A -> outcome (list B)) l :
  (∀ v, v ∈ l -> ∃ r, f v = Ok r) -> ∃ r, concat_results f l = Ok r.
Proof.
  induction l as [|v l IH]; intros Hf; simpl; [eauto|].
  destruct (Hf v) as [r ->]; [by left|]. simpl.
  destruct IH as [r' ->]; [|simpl; eauto].
  intros w Hw. apply Hf. by right.
Qed.

Lemma edges_ok ps n : (n <= length ps)%nat -> ∃ r, edges ps n = Ok r.
Proof.
  intros Hn. unfold edges. apply concat_results_ok.
  intros i Hi. apply elem_of_seq in Hi.
  destruct (item_ok ps i) as [p1 ->]; [lia|]. simpl.
  destruct (item_ok ps ((i + 1) mod n)) as [p2 ->]; [|simpl; eauto].
  assert ((i + 1) mod n < n)%nat by (apply Nat.mod_upper_bound; lia). lia.
Qed.

Lemma get_shape_lines_ok s : points_well_formed s -> ∃ r, get_shape_lines s = Ok r.
Proof.
  unfold points_well_formed, get_shape_lines. destruct (geometry s); intros H.
  - destruct (item_ok (points s) 0) as [p1 ->]; [lia|]. simpl.
    destruct (item_ok (points s) 1) as [p2 ->]; [lia|]. simpl. eauto.
  - by apply edges_ok.
  - eauto.
  - by apply edges_ok.
Qed.

Lemma get_intersection_points_ok s1 s2 :
  points_well_formed s1 -> points_well_formed s2 ->
  ∃ r, get_intersection_points s1 s2 = Ok r.
Proof.
  intros H1 H2. destruct (get_shape_lines_ok s1 H1) as [l1 E1].
  destruct (get_shape_lines_ok s2 H2) as [l2 E2].
  unfold get_intersection_points.
  destruct (geometry s1), (geometry s2); rewrite ?E1, ?E2; simpl; eauto.
Qed.

Lemma pairwise_intersections_ok l :
  Forall points_well_formed l -> ∃ r, pairwise_intersections l = Ok r.
Proof.
  induction 1 as [|s l Hs Hl IH]; simpl; [eauto|].
  destruct (concat_results_ok (fun shape2 => get_intersection_points s shape2) l) as [r ->].
  { intros v Hv. apply get_intersection_points_ok; [done|].
    rewrite Forall_forall in Hl. by apply Hl. }
  simpl. destruct IH as [r' ->]. simpl. eauto.
Qed.

(** The candidate list exists once the shapes are well formed. *)
Lemma snap_points_ok t l :
  Forall points_well_formed l -> ∃ cands, snap_points t l = Ok cands.
Proof.
  intros Hl. unfold snap_points. destruct (intersection t); [|eauto].
  destruct (pairwise_intersections_ok l Hl) as [r ->]. simpl. eauto.
Qed.

(** The constructors build well-formed shapes. *)
Lemma constructors_well_formed x1 y1 x2 y2 ps c w s :
  points_well_formed (Line_init x1 y1 x2 y2 c w s)
  ∧ points_well_formed (Rectangle_init x1 y1 x2 y2 c w s)
  ∧ points_well_formed (Circle_init x1 y1 x2 y2 c w s)
  ∧ points_well_formed (Polygon_init ps c w s).
Proof. unfold points_well_formed. simpl. repeat split; lia. Qed.

Lemma get_snap_point_eval (c : Canvas) (x y : R) cands :
  snap_enabled c = true ->
  snap_points (snap_types c) (map (shape_at c) (shapes c)) = Ok cands ->
  get_snap_point x y c = (Ok (default (x, y) (closest x y cands None None)), c).
Proof.
  intros Hen Hc. unfold get_snap_point, bind, gets, lift, get_snap_point_of.
  rewrite Hen, Hc. reflexivity.
Qed.

Lemma get_snap_point_spec (c : Canvas) (x y : R) cands :
  snap_enabled c = true ->
  snap_points (snap_types c) (map (shape_at c) (shapes c)) = Ok cands ->
  ∃ p, get_snap_point x y c = (Ok p, c)
    ∧ ((∃ q, q ∈ cands ∧ snap_dist x y q <= snap_distance) ->
         p ∈ cands ∧ snap_dist x y p <= snap_distance
         ∧ ∀ q, q ∈ cands -> snap_dist x y p <= snap_dist x y q)
    ∧ ((∀ q, q ∈ cands -> ¬ snap_dist x y q <= snap_distance) -> p = (x, y)).
Proof.
  intros Hen Hc. rewrite (get_snap_point_eval c x y cands Hen Hc).
  pose proof (closest_spec x y cands) as Hs.
  destruct (closest x y cands None None) as [p|]; simpl.
  - exists p. split; [reflexivity|]. split; [done|].
    intros Hfar. destruct Hs as (Hin & Hle & _). by destruct (Hfar p Hin).
  - exists (x, y). split; [reflexivity|]. split; [|done].
    intros (q & Hq & Hle). by destruct (Hs q Hq).
Qed.

Lemma snap_dist_near x y a b :
  (x - a) ^ 2 + (y - b) ^ 2 <= 100 -> snap_dist x y (a, b) <= snap_distance.
Proof.
  intros H. unfold snap_dist, snap_distance; simpl fst; simpl snd.
  replace 10 with (sqrt (10 * 10)) by (apply sqrt_square; lra).
  apply sqrt_le_1_alt. lra.
Qed.

Lemma snap_dist_far x y a b :
  100 < (x - a) ^ 2 + (y - b) ^ 2 -> ¬ snap_dist x y (a, b) <= snap_distance.
Proof.
  intros H Hle. unfold snap_dist, snap_distance in Hle; simpl fst in Hle; simpl snd in Hle.
  assert (sqrt (10 * 10) < sqrt ((x - a) ^ 2 + (y - b) ^ 2)) as Hlt
    by (apply sqrt_lt_1_alt; lra).
  rewrite sqrt_square in Hlt by lra. lra.
Qed.

Lemma closest_take x y p rest cp :
  snap_dist x y p <= snap_distance ->
  closest x y (p :: rest) cp None = closest x y rest (Some p) (Some (snap_dist x y p)).
Proof. intros H. simpl. by rewrite bool_decide_eq_true_2. Qed.

Lemma closest_skip x y p rest cp md :
  ¬ snap_dist x y p <= snap_distance ->
  closest x y (p :: rest) cp md = closest x y rest cp md.
Proof. intros H. simpl. rewrite (bool_decide_eq_false_2 _ H). by rewrite andb_false_r. Qed.

Lemma line_canvas_candidates :
  snap_points (snap_types line_canvas) (map (shape_at line_canvas) (shapes line_canvas))
  = Ok [(100, 300); (200, 400); ((100 + 200) / 2, (300 + 400) / 2)].
Proof. reflexivity. Qed.

Lemma line_canvas_well_formed :
  Forall points_well_formed (map (shape_at line_canvas) (shapes line_canvas)).
Proof. repeat constructor. Qed.

Lemma snap_near_endpoint : get_snap_point 98 302 line_canvas = (Ok (100, 300), line_canvas).
Proof.
  rewrite (get_snap_point_eval line_canvas _ _ _ eq_refl line_canvas_candidates).
  rewrite closest_take by (apply snap_dist_near; lra).
  rewrite closest_skip by (apply snap_dist_far; lra).
  rewrite closest_skip by (apply snap_dist_far; lra).
  reflexivity.
Qed.

Lemma snap_far_from_all : get_snap_point 120 320 line_canvas = (Ok (120, 320), line_canvas).
Proof.
  rewrite (get_snap_point_eval line_canvas _ _ _ eq_refl line_canvas_candidates).
  rewrite !closest_skip by (apply snap_dist_far; lra).
  reflexivity.
Qed.

(** With snapping enabled and well-formed shapes, [get_snap_point]
    builds its candidate list and returns, leaving the canvas as it was:
    a candidate of least Euclidean distance to the pointer when some
    candidate lies within 10 pixels, the pointer position itself when none
    does.  On the canvas with the line (100,300)-(200,400) the pointer
    (98,302) yields (100,300) and the pointer (120,320) yields (120,320). *)
Theorem get_snap_point_nearest_candidate :
  (∀ (c : Canvas) (x y : R),
      snap_enabled c = true ->
      Forall points_well_formed (map (shape_at c) (shapes c)) ->
      ∃ cands p,
        snap_points (snap_types c) (map (shape_at c) (shapes c)) = Ok cands
        ∧ get_snap_point x y c = (Ok p, c)
        ∧ ((∃ q, q ∈ cands ∧ snap_dist x y q <= 10) ->
             p ∈ cands ∧ snap_dist x y p <= 10
             ∧ ∀ q, q ∈ cands -> snap_dist x y p <= snap_dist x y q)
        ∧ ((∀ q, q ∈ cands -> ¬ snap_dist x y q <= 10) -> p = (x, y)))
  ∧ get_snap_point 98 302 line_canvas = (Ok (100, 300), line_canvas)
  ∧ get_snap_point 120 320 line_canvas = (Ok (120, 320), line_canvas).
Proof.
  split; [|split; [exact snap_near_endpoint|exact snap_far_from_all]].
  intros c x y Hen Hwf.
  destruct (snap_points_ok (snap_types c) _ Hwf) as [cands Hc].
  destruct (get_snap_point_spec c x y cands Hen Hc) as (p & Hp & Hnear & Hfar).
  exists cands, p. done.
Qed.

Lemma get_snap_point_nearest_candidate_witness :
  snap_enabled line_canvas = true
  ∧ Forall points_well_formed (map (shape_at line_canvas) (shapes line_canvas))
  ∧ ∃ cands p,
      snap_points (snap_types line_canvas)
                  (map (shape_at line_canvas) (shapes line_canvas)) = Ok cands
      ∧ get_snap_point 98 302 line_canvas = (Ok p, line_canvas)
      ∧ ((∃ q, q ∈ cands ∧ snap_dist 98 302 q <= 10) ->
           p ∈ cands ∧ snap_dist 98 302 p <= 10
           ∧ ∀ q, q ∈ cands -> snap_dist 98 302 p <= snap_dist 98 302 q)
      ∧ ((∀ q, q ∈ cands -> ¬ snap_dist 98 302 q <= 10) -> p = (98, 302)).
Proof.
  split; [reflexivity|]. split; [exact line_canvas_well_formed|].
  apply (proj1 get_snap_point_nearest_candidate line_canvas 98 302).
  - reflexivity.
  - exact line_canvas_well_formed.
Defined.

(** *** Resizing *)

Lemma setattr_idem a v s : setattr a v (setattr a v s) = setattr a v s.
Proof. destruct s as [g ? ? ? ? ?]. by destruct g, a. Qed.

Lemma restore_idem a b c d s : restore a b c d (restore a b c d s) = restore a b c d s.
Proof. destruct s as [g ? ? ? ? ?]. by destruct g. Qed.

Lemma when_write b a v l c :
  when b (for_each l (fun shape => write shape a v)) c
  = (Ok tt, set_store (stage b a v l (store c)) c).
Proof.
  unfold when, stage. destruct b.
  - apply (for_each_update (setattr a v)).
  - unfold ret. by rewrite set_store_same.
Qed.

Lemma stage_lookup b a v l st r :
  stage b a v l st !!! r
  = if b && bool_decide (r ∈ l) then setattr a v (st !!! r) else st !!! r.
Proof.
  unfold stage. destruct b; [|reflexivity]. simpl.
  apply update_all_lookup. intros. apply setattr_idem.
Qed.

Lemma restore_body r a b cc d c :
  bind (write r attr_x1 a) (fun _ =>
  bind (write r attr_y1 b) (fun _ =>
  bind (write r attr_x2 cc) (fun _ => write r attr_y2 d))) c
  = update_shape r (restore a b cc d) c.
Proof.
  unfold bind, write, update_shape, modify, restore, set_store. simpl.
  rewrite !lookup_total_insert_eq. rewrite !insert_insert_eq. reflexivity.
Qed.

(** Writing the old coordinates back undoes the overwriting. *)
Lemma restore_overwrite handle snap s a b cc d :
  geometry s = Rectangle a b cc d -> restore a b cc d (overwrite handle snap s) = s.
Proof.
  intros H. destruct s as [g ? ? ? ? ?]. simpl in H. subst g. unfold overwrite.
  destruct (has_char "n" handle), (has_char "s" handle), (has_char "w" handle),
    (has_char "e" handle); reflexivity.
Qed.

Lemma overwrite_geometry handle snap s a b cc d :
  geometry s = Rectangle a b cc d ->
  geometry (overwrite handle snap s)
  = Rectangle (if has_char "w" handle then fst snap else a)
              (if has_char "n" handle then snd snap else b)
              (if has_char "e" handle then fst snap else cc)
              (if has_char "s" handle then snd snap else d).
Proof.
  intros H. destruct s as [g ? ? ? ? ?]. simpl in H. subst g. unfold overwrite.
  destruct (has_char "n" handle), (has_char "s" handle), (has_char "w" handle),
    (has_char "e" handle); reflexivity.
Qed.

Lemma getattr_Rectangle s a b cc d :
  geometry s = Rectangle a b cc d ->
  getattr attr_x1 s = Some a ∧ getattr attr_y1 s = Some b
  ∧ getattr attr_x2 s = Some cc ∧ getattr attr_y2 s = Some d.
Proof. intros H. unfold getattr. rewrite H. done. Qed.

Lemma overwritten_lookup handle snap l st r :
  overwritten handle snap l st !!! r
  = if bool_decide (r ∈ l) then overwrite handle snap (st !!! r) else st !!! r.
Proof.
  unfold overwritten, overwrite. rewrite !stage_lookup.
  destruct (bool_decide (r ∈ l)); rewrite ?andb_true_r, ?andb_false_r; reflexivity.
Qed.

(** [resize_shape] on a selected rectangle, run up to its size test. *)
Lemma resize_shape_unfold c x y first rest handle snap a b cc d :
  selected_shapes c = first :: rest ->
  geometry (shape_at c first) = Rectangle a b cc d ->
  resize_handle c = Some handle ->
  get_snap_point x y c = (Ok snap, c) ->
  let c1 := set_store (overwritten handle snap (first :: rest) (store c)) c in
  resize_shape x y c
  = if bool_decide (Rabs ((if has_char "e" handle then fst snap else cc)
                          - (if has_char "w" handle then fst snap else a)) < MIN_SIZE)
       || bool_decide (Rabs ((if has_char "s" handle then snd snap else d)
                             - (if has_char "n" handle then snd snap else b)) < MIN_SIZE)
    then (Ok tt, set_store (update_all (restore a b cc d) (first :: rest) (store c1)) c)
    else for_each (first :: rest) refresh_corner_points c1.
Proof.
  intros Hsel Hgeo Hh Hsnap c1.
  destruct (getattr_Rectangle _ _ _ _ _ Hgeo) as (G1 & G2 & G3 & G4).
  unfold resize_shape. rewrite bind_gets. rewrite Hsel.
  rewrite (bind_ok _ _ _ _ _ (read_ok _ _ _ _ G1)).
  rewrite (bind_ok _ _ _ _ _ (read_ok _ _ _ _ G2)).
  rewrite (bind_ok _ _ _ _ _ (read_ok _ _ _ _ G3)).
  rewrite (bind_ok _ _ _ _ _ (read_ok _ _ _ _ G4)).
  rewrite (bind_ok _ _ _ _ _ Hsnap).
  rewrite Hh. unfold bind at 1. unfold ret at 1.
  rewrite (bind_ok _ _ _ _ _ (when_write _ _ _ _ _)).
  rewrite (bind_ok _ _ _ _ _ (when_write _ _ _ _ _)).
  rewrite (bind_ok _ _ _ _ _ (when_write _ _ _ _ _)).
  rewrite (bind_ok _ _ _ _ _ (when_write _ _ _ _ _)).
  simpl store. fold (overwritten handle snap (first :: rest) (store c)).
  change (set_store (overwritten handle snap (first :: rest) (store c)) _) with c1.
  assert (Hfirst : shape_at c1 first = overwrite handle snap (shape_at c first)).
  { unfold shape_at, c1. rewrite store_set_store, overwritten_lookup.
    rewrite bool_decide_eq_true_2 by (by left). reflexivity. }
  pose proof (overwrite_geometry handle snap _ _ _ _ _ Hgeo) as Hg.
  rewrite <- Hfirst in Hg.
  destruct (getattr_Rectangle _ _ _ _ _ Hg) as (N1 & N2 & N3 & N4).
  rewrite (bind_ok _ _ _ _ _ (read_ok _ _ _ _ N3)).
  rewrite (bind_ok _ _ _ _ _ (read_ok _ _ _ _ N1)).
  rewrite (bind_ok _ _ _ _ _ (read_ok _ _ _ _ N4)).
  rewrite (bind_ok _ _ _ _ _ (read_ok _ _ _ _ N2)).
  cbv zeta.
  destruct (_ || _); [|reflexivity].
  rewrite (for_each_ext _ _ (fun r => update_shape r (restore a b cc d))).
  - rewrite for_each_update. reflexivity.
  - intros. apply restore_body.
Qed.

(** In a resize step on a selected rectangle (the first selected shape,
    whose size the step tests), when the width or the height after
    overwriting the coordinates named by the handle with the snapped
    pointer is below MIN_SIZE, the step returns without an exception, the
    rectangle is exactly what it was before the step (coordinates, [points]
    and style), no attribute of the canvas other than the shape store
    changes and no shape outside the selection changes. *)
Theorem rejected_resize_restores
    (c : Canvas) (x y : R) (first : nat) (rest : list nat) (handle : string)
    (snap : point) (a b cc d : R) :
  selected_shapes c = first :: rest ->
  geometry (shape_at c first) = Rectangle a b cc d ->
  resize_handle c = Some handle ->
  get_snap_point x y c = (Ok snap, c) ->
  Rabs ((if has_char "e" handle then fst snap else cc)
        - (if has_char "w" handle then fst snap else a)) < MIN_SIZE
  ∨ Rabs ((if has_char "s" handle then snd snap else d)
          - (if has_char "n" handle then snd snap else b)) < MIN_SIZE ->
  ∃ c', resize_shape x y c = (Ok tt, c')
        ∧ shape_at c' first = shape_at c first
        ∧ set_store (store c) c' = c
        ∧ ∀ r, r ∉ first :: rest -> shape_at c' r = shape_at c r.
Proof.
  intros Hsel Hgeo Hh Hsnap Hsmall.
  rewrite (resize_shape_unfold c x y first rest handle snap a b cc d Hsel Hgeo Hh Hsnap).
  cbv zeta.
  assert (Htest : bool_decide (Rabs ((if has_char "e" handle then fst snap else cc)
                        - (if has_char "w" handle then fst snap else a)) < MIN_SIZE)
                  || bool_decide (Rabs ((if has_char "s" handle then snd snap else d)
                        - (if has_char "n" handle then snd snap else b)) < MIN_SIZE) = true).
  { apply orb_true_iff. destruct Hsmall as [H|H]; [left|right];
      by apply bool_decide_eq_true. }
  rewrite Htest. eexists. split; [reflexivity|].
  split; [|split].
  - unfold shape_at. rewrite !store_set_store.
    rewrite update_all_lookup by (intros; apply restore_idem).
    rewrite bool_decide_eq_true_2 by (by left).
    rewrite overwritten_lookup. rewrite bool_decide_eq_true_2 by (by left).
    by apply restore_overwrite.
  - transitivity (set_store (store c) c); [reflexivity|apply set_store_same].
  - intros r Hr. unfold shape_at. rewrite !store_set_store.
    rewrite update_all_lookup by (intros; apply restore_idem).
    rewrite bool_decide_eq_false_2 by done.
    rewrite overwritten_lookup. by rewrite bool_decide_eq_false_2.
Qed.

Lemma resize_scene_candidates h :
  snap_points (snap_types (resize_scene h))
              (map (shape_at (resize_scene h)) (shapes (resize_scene h)))
  = Ok [(100, 100); (200, 100); (200, 200); (100, 200);
        ((100 + 200) / 2, (100 + 100) / 2); ((200 + 200) / 2, (100 + 200) / 2);
        ((200 + 100) / 2, (200 + 200) / 2); ((100 + 100) / 2, (200 + 100) / 2)].
Proof. reflexivity. Qed.

(** Next to the left edge the pointer snaps to the midpoint of that edge. *)
Lemma resize_scene_snaps_to_midpoint h :
  get_snap_point 105 150 (resize_scene h)
  = (Ok ((100 + 100) / 2, (200 + 100) / 2), resize_scene h).
Proof.
  rewrite (get_snap_point_eval (resize_scene h) _ _ _ eq_refl (resize_scene_candidates h)).
  do 7 (rewrite closest_skip by (apply snap_dist_far; lra)).
  rewrite closest_take by (apply snap_dist_near; lra).
  reflexivity.
Qed.

Lemma rejected_resize_restores_witness :
  ∃ c', resize_shape 105 150 (resize_scene "se") = (Ok tt, c')
        ∧ shape_at c' 0 = shape_at (resize_scene "se") 0
        ∧ set_store (store (resize_scene "se")) c' = resize_scene "se"
        ∧ ∀ r, r ∉ [0%nat] -> shape_at c' r = shape_at (resize_scene "se") r.
Proof.
  apply (rejected_resize_restores (resize_scene "se") 105 150 0 [] "se"
           ((100 + 100) / 2, (200 + 100) / 2) 100 100 200 200).
  - reflexivity.
  - reflexivity.
  - reflexivity.
  - apply resize_scene_snaps_to_midpoint.
  - left. simpl. unfold MIN_SIZE. rewrite Rabs_right; lra.
Defined.

(** No candidate is within 10 pixels of (50,50). *)
Lemma resize_scene_no_snap h :
  get_snap_point 50 50 (resize_scene h) = (Ok (50, 50), resize_scene h).
Proof.
  rewrite (get_snap_point_eval (resize_scene h) _ _ _ eq_refl (resize_scene_candidates h)).
  rewrite !closest_skip by (apply snap_dist_far; lra).
  reflexivity.
Qed.

Lemma resize_se_evaluates :
  ∃ c', resize_shape 50 50 (resize_scene "se") = (Ok tt, c')
        ∧ shape_at c' 0 = rect_inverted.
Proof.
  rewrite (resize_shape_unfold (resize_scene "se") 50 50 0 [] "se" (50, 50)
             100 100 200 200 eq_refl eq_refl eq_refl (resize_scene_no_snap "se")).
  cbv zeta. simpl has_char. cbv iota. simpl fst. simpl snd.
  rewrite (bool_decide_eq_false_2 (Rabs (50 - 100) < MIN_SIZE))
    by (unfold MIN_SIZE; rewrite Rabs_left; lra).
  simpl orb. cbv iota.
  eexists. split; reflexivity.
Qed.

(** C2, as amended: the step with the "se" handle and the pointer at
    (50,50) on the rectangle (100,100)-(200,200) is accepted.  The stored
    coordinates become x1 = 100, y1 = 100, x2 = 50, y2 = 50 and [points] is
    rebuilt from them; the absolute width and height, which the guard
    measures, are 50 and not below MIN_SIZE. *)
Theorem resize_se_accepted :
  rect100 = Rectangle_init 100 100 200 200 "black" 1 None
  ∧ ∃ c', resize_shape 50 50 (resize_scene "se") = (Ok tt, c')
          ∧ geometry (shape_at c' 0) = Rectangle 100 100 50 50
          ∧ points (shape_at c' 0) = [(100, 100); (50, 100); (50, 50); (100, 50)]
          ∧ MIN_SIZE <= Rabs (50 - 100).
Proof.
  split; [symmetry; apply rect100_constructed|].
  destruct resize_se_evaluates as (c' & Hrun & Hshape).
  exists c'. rewrite Hshape. split; [exact Hrun|]. split; [reflexivity|].
  split; [reflexivity|]. unfold MIN_SIZE. rewrite Rabs_left; lra.
Qed.

(** C2 as stated fails: after the step the second corner is left of and
    above the first. *)
Lemma resize_se_inverts_counterexample :
  ¬ (∀ c' vx1 vy1 vx2 vy2,
        resize_shape 50 50 (resize_scene "se") = (Ok tt, c') ->
        geometry (shape_at c' 0) = Rectangle vx1 vy1 vx2 vy2 ->
        vx1 <= vx2 ∧ vy1 <= vy2 ∧ MIN_SIZE <= vx2 - vx1 ∧ MIN_SIZE <= vy2 - vy1).
Proof.
  intros H. destruct resize_se_evaluates as (c' & Hrun & Hshape).
  destruct (H c' 100 100 50 50 Hrun) as [Hx _].
  - rewrite Hshape. reflexivity.
  - lra.
Qed.

(** *** The resize scene arises from user events *)

Ltac abs_lra := unfold Rabs; destruct Rcase_abs; lra.

Lemma rect_drawn_by_clicks :
  run [SetMode "rectangle"; Button1 100 100; Button1 200 200] DrawingCanvas_init = rect_drawn.
Proof.
  transitivity
    (mkCanvas (<[0%nat := Rectangle_init 100 100 200 200 "black" 1 None]> ∅) 1 [0%nat] []
       "rectangle" "black" 1 None [] None false false None None None [op_add_shape 0] []
       true (mkSnapTypes true true true)); [reflexivity|].
  rewrite rect100_constructed. reflexivity.
Qed.

Lemma on_right_edge : distance_to_line (200, 200) (200, 100) (200, 200) = 0.
Proof.
  unfold distance_to_line.
  rewrite bool_decide_eq_false_2 by lra.
  replace (((200 - 200) * (200 - 200) + (200 - 100) * (200 - 100))
           / ((200 - 200) ^ 2 + (200 - 100) ^ 2)) with 1 by (field; lra).
  rewrite Rmin_left by lra. rewrite Rmax_right by lra.
  replace ((200 - (200 + 1 * (200 - 200))) ^ 2 + (200 - (100 + 1 * (200 - 100))) ^ 2)
    with (0 ^ 2 + 0 ^ 2) by ring.
  apply sqrt_sq_plus_0. lra.
Qed.

Lemma rect_selected_by_click : exec (on_select 200 200) rect_drawn = rect_selected.
Proof.
  unfold exec, on_select. rewrite bind_gets.
  assert (Hscan : select_scan rect_drawn 200 200 (rev (shapes rect_drawn)) = ([0%nat], None)).
  { simpl rev. unfold select_scan.
    change (geometry (shape_at rect_drawn 0)) with (Rectangle 100 100 200 200). cbv iota beta.
    rewrite bool_decide_eq_true_2; [reflexivity|].
    rewrite on_right_edge.
    eapply Rle_lt_trans; [apply Rmin_l|].
    eapply Rle_lt_trans; [apply Rmin_l|].
    eapply Rle_lt_trans; [apply Rmin_r|]. lra. }
  rewrite Hscan. reflexivity.
Qed.

Lemma snap_dist_self x y : snap_dist x y (x, y) = 0.
Proof.
  unfold snap_dist. simpl fst. simpl snd.
  replace ((x - x) ^ 2 + (y - y) ^ 2) with (0 ^ 2 + 0 ^ 2) by ring.
  apply sqrt_sq_plus_0. lra.
Qed.

Lemma closest_skip_not_nearer x y p rest cp d :
  d <= snap_dist x y p ->
  closest x y (p :: rest) cp (Some d) = closest x y rest cp (Some d).
Proof.
  intros H. simpl. rewrite (bool_decide_eq_false_2 (snap_dist x y p < d)) by lra.
  reflexivity.
Qed.

Lemma snap_dist_nonneg x y p : 0 <= snap_dist x y p.
Proof. apply sqrt_pos. Qed.

Lemma rect_selected_candidates :
  snap_points (snap_types rect_selected)
              (map (shape_at rect_selected) (shapes rect_selected))
  = Ok [(100, 100); (200, 100); (200, 200); (100, 200);
        ((100 + 200) / 2, (100 + 100) / 2); ((200 + 200) / 2, (100 + 200) / 2);
        ((200 + 100) / 2, (200 + 200) / 2); ((100 + 100) / 2, (200 + 100) / 2)].
Proof. reflexivity. Qed.

Lemma rect_selected_snap :
  get_snap_point 200 200 rect_selected = (Ok (200, 200), rect_selected).
Proof.
  rewrite (get_snap_point_eval rect_selected _ _ _ eq_refl rect_selected_candidates).
  do 2 (rewrite closest_skip by (apply snap_dist_far; lra)).
  rewrite closest_take by (rewrite snap_dist_self; unfold snap_distance; lra).
  rewrite snap_dist_self.
  do 5 (rewrite closest_skip_not_nearer by apply snap_dist_nonneg).
  reflexivity.
Qed.

Lemma rect_selected_handle : get_resize_handle_at_point rect_selected 200 200 = Some "se".
Proof.
  unfold get_resize_handle_at_point, get_resize_handles.
  change (selected_shapes rect_selected) with [0%nat]. cbv iota beta.
  change (geometry (shape_at rect_selected 0)) with (Rectangle 100 100 200 200).
  cbv iota beta. cbn [find fst snd].
  rewrite (bool_decide_eq_false_2 (Rabs (200 - 100) <= 5)) by abs_lra.
  cbn [andb].
  rewrite (bool_decide_eq_false_2 (Rabs (200 - (100 + (200 - 100) / 2)) <= 5)) by abs_lra.
  cbn [andb].
  rewrite (bool_decide_eq_true_2 (Rabs (200 - 200) <= 5)) by abs_lra.
  reflexivity.
Qed.

Lemma resize_scene_by_click : exec (on_click 200 200) rect_selected = resize_scene "se".
Proof.
  unfold exec, on_click.
  rewrite (bind_ok _ _ _ _ _ rect_selected_snap). rewrite bind_gets.
  change (selected_shapes rect_selected) with [0%nat].
  change (is_Rectangle (shape_at rect_selected 0)) with true. cbv iota.
  rewrite rect_selected_handle. reflexivity.
Qed.

Lemma run_app es1 es2 c : run (es1 ++ es2) c = run es2 (run es1 c).
Proof. unfold run. apply fold_left_app. Qed.

Lemma resize_scene_reachable : reachable (resize_scene "se").
Proof.
  exists draw_select_grab.
  change draw_select_grab
    with ([SetMode "rectangle"; Button1 100 100; Button1 200 200]
          ++ [ControlButton1 200 200; Button1 200 200]).
  rewrite run_app, rect_drawn_by_clicks.
  change (run [ControlButton1 200 200; Button1 200 200] rect_drawn)
    with (exec (on_click 200 200) (exec (on_select 200 200) rect_drawn)).
  rewrite rect_selected_by_click, resize_scene_by_click. reflexivity.
Qed.

(** *** Selection and collection *)

Lemma undo_after_select_states :
  let c := run undo_after_select DrawingCanvas_init in
  shapes c = [] ∧ selected_shapes c = [0%nat].
Proof. split; reflexivity. Qed.

(** C4, at the failing inputs.  After drawing a line, selecting all and
    undoing, the collection is empty and the line is still selected; the
    Delete key then raises ValueError in [delete_selected].  The same state
    arises from redoing a delete after the shape has been selected again. *)
Theorem undo_leaves_stale_selection :
  let c := run undo_after_select DrawingCanvas_init in
  let c' := run redo_after_select DrawingCanvas_init in
  (reachable c ∧ shapes c = [] ∧ selected_shapes c = [0%nat]
   ∧ ¬ selection_in_collection c
   ∧ dispatch Delete c = (Raise ValueError, c))
  ∧ (reachable c' ∧ shapes c' = [] ∧ selected_shapes c' = [0%nat]
     ∧ ¬ selection_in_collection c').
Proof.
  intros c c'.
  assert (Hc : shapes c = [] ∧ selected_shapes c = [0%nat]) by (split; reflexivity).
  assert (Hc' : shapes c' = [] ∧ selected_shapes c' = [0%nat]) by (split; reflexivity).
  destruct Hc as [Hs Hsel], Hc' as [Hs' Hsel'].
  split.
  - split; [by exists undo_after_select|]. split; [exact Hs|]. split; [exact Hsel|].
    split; [|reflexivity].
    intros H. specialize (H 0%nat). rewrite Hsel, Hs in H.
    assert (Hin : 0%nat ∈ @nil nat) by (apply H; by left). inversion Hin.
  - split; [by exists redo_after_select|]. split; [exact Hs'|]. split; [exact Hsel'|].
    intros H. specialize (H 0%nat). rewrite Hsel', Hs' in H.
    assert (Hin : 0%nat ∈ @nil nat) by (apply H; by left). inversion Hin.
Qed.

(** *** Segments, circles and distances *)

Lemma snap_dist_zero x y p : snap_dist x y p = 0 -> p = (x, y).
Proof.
  destruct p as [a b]. unfold snap_dist. simpl fst. simpl snd. intros H.
  apply sqrt_eq_0 in H; [|apply Rplus_le_le_0_compat; apply pow2_ge_0].
  assert (Ha : 0 <= (x - a) ^ 2) by apply pow2_ge_0.
  assert (Hb : 0 <= (y - b) ^ 2) by apply pow2_ge_0.
  assert (Ha0 : (x - a) ^ 2 = 0) by lra.
  assert (Hb0 : (y - b) ^ 2 = 0) by lra.
  assert (x - a = 0) by (apply Rsqr_0_uniq; unfold Rsqr; lra).
  assert (y - b = 0) by (apply Rsqr_0_uniq; unfold Rsqr; lra).
  f_equal; lra.
Qed.

(** Snapping is idempotent: a position [get_snap_point] returns is returned
    unchanged when it is the pointer position of a second call on the same
    canvas. *)
Theorem get_snap_point_idempotent (c : Canvas) (x y : R) (p : point) :
  get_snap_point x y c = (Ok p, c) ->
  get_snap_point (fst p) (snd p) c = (Ok p, c).
Proof.
  unfold get_snap_point. rewrite !bind_gets. unfold lift, get_snap_point_of.
  destruct (snap_enabled c); simpl negb; cbv iota.
  2:{ intros [= <-]. reflexivity. }
  destruct (snap_points _ _) as [cands|e]; simpl obind; [|discriminate].
  intros [= <-].
  pose proof (closest_spec x y cands) as Hs.
  destruct (closest x y cands None None) as [q|] eqn:Hq; simpl default.
  - destruct Hs as (Hin & Hle & _).
    pose proof (closest_spec (fst q) (snd q) cands) as Hs2.
    destruct (closest (fst q) (snd q) cands None None) as [q'|]; simpl default.
    + destruct Hs2 as (_ & _ & Hmin). specialize (Hmin q Hin).
      destruct q as [qx qy]. simpl fst in *. simpl snd in *.
      rewrite snap_dist_self in Hmin.
      assert (H0 : snap_dist qx qy q' = 0).
      { apply Rle_antisym; [exact Hmin|apply sqrt_pos]. }
      apply snap_dist_zero in H0. by rewrite H0.
    + exfalso. apply (Hs2 q Hin). destruct q as [qx qy]. simpl fst. simpl snd.
      rewrite snap_dist_self. unfold snap_distance. lra.
  - simpl fst. simpl snd. by rewrite Hq.
Qed.

Lemma get_snap_point_idempotent_witness :
  get_snap_point 98 302 line_canvas = (Ok (100, 300), line_canvas)
  ∧ get_snap_point 100 300 line_canvas = (Ok (100, 300), line_canvas).
Proof.
  split; [exact snap_near_endpoint|].
  apply (get_snap_point_idempotent line_canvas 98 302 (100, 300)).
  exact snap_near_endpoint.
Defined.

(** A point returned by [get_line_line_intersection] is the only one
    returned, is what [get_line_intersection] returns for the same
    segments, and lies on both segments: it is the point at some parameter
    between 0 and 1 of the first and of the second. *)
Theorem segment_intersection_on_both_segments (a b c d p : point) :
  p ∈ get_line_line_intersection (a, b) (c, d) ->
  get_line_line_intersection (a, b) (c, d) = [p]
  ∧ get_line_intersection (a, b) (c, d) = Some p
  ∧ ∃ t u, 0 <= t <= 1 ∧ 0 <= u <= 1 ∧ p = along a b t ∧ p = along c d u.
Proof.
  destruct a as [x1 y1], b as [x2 y2], c as [x3 y3], d as [x4 y4].
  unfold get_line_line_intersection, get_line_intersection.
  set (den := (x1 - x2) * (y3 - y4) - (y1 - y2) * (x3 - x4)).
  set (t := ((x1 - x3) * (y3 - y4) - (y1 - y3) * (x3 - x4)) / den).
  set (u := - ((x1 - x2) * (y1 - y3) - (y1 - y2) * (x1 - x3)) / den).
  case_bool_decide as Hden; [intros H; inversion H|].
  destruct (bool_decide (0 <= t) && bool_decide (t <= 1)
            && bool_decide (0 <= u) && bool_decide (u <= 1)) eqn:Hin;
    [|intros H; inversion H].
  intros Hp. apply list_elem_of_singleton in Hp. subst p.
  split; [reflexivity|]. split; [reflexivity|].
  apply andb_true_iff in Hin as [Hin Hu1]. apply andb_true_iff in Hin as [Hin Hu0].
  apply andb_true_iff in Hin as [Ht0 Ht1].
  apply bool_decide_eq_true in Ht0, Ht1, Hu0, Hu1.
  exists t, u. split; [done|]. split; [done|]. split; [reflexivity|].
  unfold along. simpl fst. simpl snd. unfold t, u, den in *.
  apply (f_equal2 pair); field; exact Hden.
Qed.

Lemma crossing_diagonals :
  get_line_line_intersection ((100, 100), (200, 200)) ((100, 200), (200, 100)) = [(150, 150)].
Proof.
  unfold get_line_line_intersection.
  rewrite bool_decide_eq_false_2 by lra.
  replace (((100 - 100) * (200 - 100) - (100 - 200) * (100 - 200))
           / ((100 - 200) * (200 - 100) - (100 - 200) * (100 - 200))) with (1 / 2)
    by (field; lra).
  replace (- ((100 - 200) * (100 - 200) - (100 - 200) * (100 - 100))
           / ((100 - 200) * (200 - 100) - (100 - 200) * (100 - 200))) with (1 / 2)
    by (field; lra).
  rewrite !bool_decide_eq_true_2 by lra. simpl. apply (f_equal (fun p : point => [p])). apply (f_equal2 pair); lra.
Qed.

Lemma segment_intersection_on_both_segments_witness :
  (150, 150) ∈ get_line_line_intersection ((100, 100), (200, 200)) ((100, 200), (200, 100))
  ∧ get_line_line_intersection ((100, 100), (200, 200)) ((100, 200), (200, 100))
    = [(150, 150)]
  ∧ get_line_intersection ((100, 100), (200, 200)) ((100, 200), (200, 100)) = Some (150, 150)
  ∧ ∃ t u, 0 <= t <= 1 ∧ 0 <= u <= 1
           ∧ (150, 150) = along (100, 100) (200, 200) t
           ∧ (150, 150) = along (100, 200) (200, 100) u.
Proof.
  assert (H : (150, 150)
              ∈ get_line_line_intersection ((100, 100), (200, 200)) ((100, 200), (200, 100))).
  { rewrite crossing_diagonals. by left. }
  split; [exact H|].
  apply (segment_intersection_on_both_segments (100, 100) (200, 200) (100, 200) (200, 100)).
  exact H.
Defined.

Lemma get_line_line_intersection_comm (line1 line2 : point * point) :
  get_line_line_intersection line1 line2 = get_line_line_intersection line2 line1.
Proof.
  destruct line1 as [[x1 y1] [x2 y2]], line2 as [[x3 y3] [x4 y4]].
  unfold get_line_line_intersection.
  set (den := (x1 - x2) * (y3 - y4) - (y1 - y2) * (x3 - x4)).
  replace ((x3 - x4) * (y1 - y2) - (y3 - y4) * (x1 - x2)) with (- den) by (unfold den; ring).
  destruct (decide (den = 0)) as [H0|H0].
  - rewrite !bool_decide_eq_true_2 by lra. reflexivity.
  - rewrite (bool_decide_eq_false_2 (den = 0)) by exact H0.
    rewrite (bool_decide_eq_false_2 (- den = 0)) by lra.
    set (t := ((x1 - x3) * (y3 - y4) - (y1 - y3) * (x3 - x4)) / den).
    set (u := - ((x1 - x2) * (y1 - y3) - (y1 - y2) * (x1 - x3)) / den).
    replace (((x3 - x1) * (y1 - y2) - (y3 - y1) * (x1 - x2)) / - den) with u
      by (unfold u; field; exact H0).
    replace (- ((x3 - x4) * (y3 - y1) - (y3 - y4) * (x3 - x1)) / - den) with t
      by (unfold t; field; exact H0).
    replace (bool_decide (0 <= u) && bool_decide (u <= 1)
             && bool_decide (0 <= t) && bool_decide (t <= 1))
      with (bool_decide (0 <= t) && bool_decide (t <= 1)
            && bool_decide (0 <= u) && bool_decide (u <= 1))
      by (destruct (bool_decide (0 <= t)), (bool_decide (t <= 1)),
            (bool_decide (0 <= u)), (bool_decide (u <= 1)); reflexivity).
    destruct (_ && _); [|reflexivity].
    apply (f_equal (fun p : point => [p])). unfold t, u, den in *.
    apply (f_equal2 pair); field; exact H0.
Qed.

(** In exact real arithmetic [get_line_line_intersection] gives the same
    list for the two segments in either order.  (With rounding the two
    orders can differ in the last bits of the point: it is computed along
    the first segment.) *)
Theorem segment_intersection_symmetric (line1 line2 : point * point) :
  get_line_line_intersection line1 line2 = get_line_line_intersection line2 line1.
Proof. apply get_line_line_intersection_comm. Qed.

Lemma between_spec a b v : between a b v = true -> Rmin a b <= v <= Rmax a b.
Proof.
  unfold between. intros H. apply andb_true_iff in H as [H1 H2].
  apply bool_decide_eq_true in H1, H2. done.
Qed.

Lemma between_end a b : Rmin a b <= a <= Rmax a b.
Proof. split; [apply Rmin_l|apply Rmax_l]. Qed.

(** A root of [a x^2 + b x + c] computed with a square root of the
    discriminant. *)
Lemma quadratic_root a b c S x :
  a <> 0 -> S * S = b * b - 4 * a * c ->
  x = (- b + S) / (2 * a) \/ x = (- b - S) / (2 * a) ->
  a * x * x + b * x + c = 0.
Proof.
  intros Ha HS Hx.
  assert (Hc : c = (b * b - S * S) / (4 * a)) by (rewrite HS; field; exact Ha).
  destruct Hx as [-> | ->]; rewrite Hc; field; exact Ha.
Qed.

Lemma quadratic_vertex a b c x :
  a <> 0 -> x = - b / (2 * a) ->
  a * x * x + b * x + c = - (b * b - 4 * a * c) / (4 * a).
Proof. intros Ha ->. field. exact Ha. Qed.

Lemma not_small_positive D :
  ~ D < -0.1 -> ~ Rabs D <= 0.1 -> 0 <= D.
Proof.
  intros H1 H2. unfold Rabs in H2. destruct (Rcase_abs D); lra.
Qed.

(** Every point [get_circle_line_intersection] returns satisfies the
    equation of the circle up to 0.025 (exactly so outside the tangent
    branch), lies on the line through the end points of the segment and
    within the coordinate ranges of the segment. *)
Theorem circle_line_points_near_circle (x1 y1 x2 y2 cx cy r : R) (p : point) :
  p ∈ get_circle_line_intersection x1 y1 x2 y2 cx cy r ->
  on_circle_within 0.025 cx cy r p
  ∧ (x2 - x1) * (snd p - y1) = (y2 - y1) * (fst p - x1)
  ∧ Rmin x1 x2 <= fst p <= Rmax x1 x2
  ∧ Rmin y1 y2 <= snd p <= Rmax y1 y2.
Proof.
  unfold get_circle_line_intersection, on_circle_within.
  case_bool_decide as Hv.
  - (* vertical *)
    set (b := -2 * cy). set (c := cy * cy + (x1 - cx) * (x1 - cx) - r * r).
    set (D := b * b - 4 * 1 * c).
    case_bool_decide as Hneg; [intros H; inversion H|].
    case_bool_decide as Htan.
    + destruct (between y1 y2 (- b / (2 * 1))) eqn:Hb; [|intros H; inversion H].
      intros Hp. apply list_elem_of_singleton in Hp. subst p. simpl fst. simpl snd.
      apply between_spec in Hb.
      split; [|split; [|split; [apply between_end|exact Hb]]].
      * replace ((x1 - cx) * (x1 - cx) + (- b / (2 * 1) - cy) * (- b / (2 * 1) - cy) - r * r)
          with (- D / 4) by (unfold D, c, b; field).
        unfold Rabs in *. destruct (Rcase_abs D), (Rcase_abs (- D / 4)); lra.
      * rewrite Hv. replace (x1 - x1) with 0 by ring. ring.
    + pose proof (not_small_positive D Hneg Htan) as HD.
      pose proof (sqrt_sqrt D HD) as HS.
      intros Hp. apply elem_of_app in Hp.
      assert (Hroot : ∀ y, y = (- b + sqrt D) / (2 * 1) ∨ y = (- b - sqrt D) / (2 * 1) ->
                Rabs ((x1 - cx) * (x1 - cx) + (y - cy) * (y - cy) - r * r) <= 0.025).
      { intros y Hy.
        pose proof (quadratic_root 1 b c (sqrt D) y ltac:(lra) HS Hy) as Hq.
        replace ((x1 - cx) * (x1 - cx) + (y - cy) * (y - cy) - r * r)
          with (1 * y * y + b * y + c) by (unfold c, b; ring).
        rewrite Hq, Rabs_R0. lra. }
      destruct Hp as [Hp|Hp];
        (match type of Hp with _ ∈ (if ?t then _ else _) => destruct t eqn:Hb end;
         [|inversion Hp]);
        apply list_elem_of_singleton in Hp; subst p; simpl fst; simpl snd;
        apply between_spec in Hb;
        (split; [apply Hroot; auto|
                 split; [rewrite Hv; replace (x1 - x1) with 0 by ring; ring|
                         split; [apply between_end|exact Hb]]]).
  - case_bool_decide as Hh.
    + (* horizontal *)
      set (b := -2 * cx). set (c := cx * cx + (y1 - cy) * (y1 - cy) - r * r).
      set (D := b * b - 4 * 1 * c).
      case_bool_decide as Hneg; [intros H; inversion H|].
      case_bool_decide as Htan.
      * destruct (between x1 x2 (- b / (2 * 1))) eqn:Hb; [|intros H; inversion H].
        intros Hp. apply list_elem_of_singleton in Hp. subst p. simpl fst. simpl snd.
        apply between_spec in Hb.
        split; [|split; [|split; [exact Hb|apply between_end]]].
        -- replace ((- b / (2 * 1) - cx) * (- b / (2 * 1) - cx) + (y1 - cy) * (y1 - cy) - r * r)
             with (- D / 4) by (unfold D, c, b; field).
           unfold Rabs in *. destruct (Rcase_abs D), (Rcase_abs (- D / 4)); lra.
        -- rewrite Hh. replace (y1 - y1) with 0 by ring. ring.
      * pose proof (not_small_positive D Hneg Htan) as HD.
        pose proof (sqrt_sqrt D HD) as HS.
        intros Hp. apply elem_of_app in Hp.
        assert (Hroot : ∀ x, x = (- b + sqrt D) / (2 * 1) ∨ x = (- b - sqrt D) / (2 * 1) ->
                  Rabs ((x - cx) * (x - cx) + (y1 - cy) * (y1 - cy) - r * r) <= 0.025).
        { intros x Hx.
          pose proof (quadratic_root 1 b c (sqrt D) x ltac:(lra) HS Hx) as Hq.
          replace ((x - cx) * (x - cx) + (y1 - cy) * (y1 - cy) - r * r)
            with (1 * x * x + b * x + c) by (unfold c, b; ring).
          rewrite Hq, Rabs_R0. lra. }
        destruct Hp as [Hp|Hp];
          (match type of Hp with _ ∈ (if ?t then _ else _) => destruct t eqn:Hb end;
           [|inversion Hp]);
          apply list_elem_of_singleton in Hp; subst p; simpl fst; simpl snd;
          apply between_spec in Hb;
          (split; [apply Hroot; auto|
                   split; [rewrite Hh; replace (y1 - y1) with 0 by ring; ring|
                           split; [exact Hb|apply between_end]]]).
    + (* general position *)
      set (m := (y2 - y1) / (x2 - x1)). set (b := y1 - m * x1).
      set (A := 1 + m * m). set (B := 2 * (m * (b - cy) - cx)).
      set (C := cx * cx + (b - cy) * (b - cy) - r * r).
      set (D := B * B - 4 * A * C).
      assert (HA : 1 <= A) by (unfold A; nra).
      assert (Hline : ∀ x, (x2 - x1) * (m * x + b - y1) = (y2 - y1) * (x - x1)).
      { intros x. unfold b, m. field. exact Hv. }
      assert (Hres : ∀ x, (x - cx) * (x - cx) + (m * x + b - cy) * (m * x + b - cy) - r * r
                          = A * x * x + B * x + C).
      { intros x. unfold A, B, C. ring. }
      case_bool_decide as Hneg; [intros H; inversion H|].
      case_bool_decide as Htan.
      * destruct (between x1 x2 (- B / (2 * A)) && between y1 y2 (m * (- B / (2 * A)) + b))
          eqn:Hb; [|intros H; inversion H].
        apply andb_true_iff in Hb as [Hbx Hby]. apply between_spec in Hbx, Hby.
        intros Hp. apply list_elem_of_singleton in Hp. subst p. simpl fst. simpl snd.
        split; [|split; [apply Hline|split; [exact Hbx|exact Hby]]].
        rewrite Hres, (quadratic_vertex A B C _ ltac:(lra) eq_refl). fold D.
        replace (- D / (4 * A)) with (- (D / (4 * A))) by (field; lra).
        rewrite Rabs_Ropp. unfold Rdiv. rewrite Rabs_mult.
        rewrite (Rabs_right (/ (4 * A))).
        2:{ apply Rle_ge, Rlt_le, Rinv_0_lt_compat. lra. }
        assert (Hinv : / (4 * A) <= / 4).
        { apply Rinv_le_contravar; lra. }
        assert (Hinv0 : 0 < / (4 * A)) by (apply Rinv_0_lt_compat; lra).
        pose proof (Rabs_pos D). nra.
      * pose proof (not_small_positive D Hneg Htan) as HD.
        pose proof (sqrt_sqrt D HD) as HS.
        intros Hp. apply list_elem_of_In, in_flat_map in Hp as (x & Hx & Hp).
        destruct (between x1 x2 x && between y1 y2 (m * x + b)) eqn:Hb; [|inversion Hp].
        apply andb_true_iff in Hb as [Hbx Hby]. apply between_spec in Hbx, Hby.
        destruct Hp as [<-|[]]. simpl fst. simpl snd.
        split; [|split; [apply Hline|split; [exact Hbx|exact Hby]]].
        rewrite Hres.
        rewrite (quadratic_root A B C (sqrt D) x ltac:(lra) HS).
        -- rewrite Rabs_R0. lra.
        -- destruct Hx as [<-|[<-|[]]]; auto.
Qed.

Lemma tangent_vertical_line :
  get_circle_line_intersection 250 150 250 250 200 200 50 = [(250, 200)].
Proof.
  unfold get_circle_line_intersection.
  rewrite (bool_decide_eq_true_2 (250 - 250 = 0)) by lra.
  replace (-2 * 200 * (-2 * 200)
           - 4 * 1 * (200 * 200 + (250 - 200) * (250 - 200) - 50 * 50)) with 0 by lra.
  rewrite bool_decide_eq_false_2 by lra.
  rewrite bool_decide_eq_true_2 by (rewrite Rabs_R0; lra).
  replace (- (-2 * 200) / (2 * 1)) with 200 by lra.
  unfold between, Rmin, Rmax. destruct (Rle_dec 150 250); [|lra].
  rewrite !bool_decide_eq_true_2 by lra. reflexivity.
Qed.

Lemma circle_line_points_near_circle_witness :
  (250, 200) ∈ get_circle_line_intersection 250 150 250 250 200 200 50
  ∧ on_circle_within 0.025 200 200 50 (250, 200).
Proof.
  assert (H : (250, 200) ∈ get_circle_line_intersection 250 150 250 250 200 200 50).
  { rewrite tangent_vertical_line. by left. }
  split; [exact H|].
  exact (proj1 (circle_line_points_near_circle 250 150 250 250 200 200 50 (250, 200) H)).
Defined.





Lemma flat_map_split {A C} (f g : A -> list C) l :
  flat_map (fun a => f a ++ g a) l ≡ₚ flat_map f l ++ flat_map g l.
Proof.
  induction l as [|a l IH]; simpl; [reflexivity|].
  rewrite IH. rewrite <- !app_assoc. apply Permutation_app_head.
  rewrite !app_assoc. apply Permutation_app_tail. apply Permutation_app_comm.
Qed.

Lemma flat_map_empty {A C} (l : list A) : flat_map (fun _ => @nil C) l = [].
Proof. induction l; simpl; done. Qed.

Lemma flat_map_swap {A B C} (f : A -> B -> list C) l1 l2 :
  flat_map (fun a => flat_map (fun b => f a b) l2) l1
  ≡ₚ flat_map (fun b => flat_map (fun a => f a b) l1) l2.
Proof.
  induction l1 as [|a l1 IH]; simpl.
  - by rewrite flat_map_empty.
  - rewrite IH. symmetry.
    apply (flat_map_split (fun b => f a b) (fun b => flat_map (fun a' => f a' b) l1)).
Qed.

(** In exact real arithmetic, unless both shapes are circles,
    [get_intersection_points] finds the same points for two shapes in
    either order, up to the order of the list; when it returns for one
    order it returns for the other.  (With rounding the points of the two
    orders can differ in their last bits.) *)
Theorem intersection_points_do_not_depend_on_order (shape1 shape2 : Shape) (found : list point) :
  is_Circle shape1 && is_Circle shape2 = false ->
  get_intersection_points shape1 shape2 = Ok found ->
  ∃ found', get_intersection_points shape2 shape1 = Ok found' ∧ found ≡ₚ found'.
Proof.
  unfold get_intersection_points, is_Circle.
  assert (Hlines : ∀ l1 l2 : list (point * point),
            flat_map (fun line1 => flat_map (fun line2 =>
                        get_line_line_intersection line1 line2) l2) l1
            ≡ₚ flat_map (fun line1 => flat_map (fun line2 =>
                           get_line_line_intersection line1 line2) l1) l2).
  { intros l1 l2. rewrite flat_map_swap.
    erewrite flat_map_ext; [reflexivity|]. intros line2. cbv beta.
    apply flat_map_ext. intros line1. apply get_line_line_intersection_comm. }
  destruct (geometry shape1) eqn:G1, (geometry shape2) eqn:G2; simpl; try discriminate;
    intros _;
    try (intros H; eexists; split; [exact H|reflexivity]);
    destruct (get_shape_lines shape1) as [lines1|] eqn:L1; simpl; try discriminate;
    destruct (get_shape_lines shape2) as [lines2|] eqn:L2; simpl; try discriminate;
    intros [= <-]; eexists; (split; [reflexivity|]); apply Hlines.
Qed.
Lemma intersection_points_do_not_depend_on_order_witness :
  let line1 := Line_init 100 100 200 200 "black" 1 None in
  let line2 := Line_init 100 200 200 100 "black" 1 None in
  is_Circle line1 && is_Circle line2 = false
  ∧ get_intersection_points line1 line2 = Ok [(150, 150)]
  ∧ ∃ found', get_intersection_points line2 line1 = Ok found' ∧ [(150, 150)] ≡ₚ found'.
Proof.
  cbv zeta.
  assert (H : get_intersection_points (Line_init 100 100 200 200 "black" 1 None)
                (Line_init 100 200 200 100 "black" 1 None) = Ok [(150, 150)]).
  { unfold get_intersection_points, get_shape_lines, Line_init, item.
    cbn [geometry points nth_error obind flat_map]. rewrite !app_nil_r.
    apply (f_equal Ok). exact crossing_diagonals. }
  split; [reflexivity|]. split; [exact H|].
  apply (intersection_points_do_not_depend_on_order
           (Line_init 100 100 200 200 "black" 1 None)
           (Line_init 100 200 200 100 "black" 1 None) [(150, 150)] eq_refl H).
Defined.

(** *** Selecting and handles *)

Lemma select_scan_one c x y todo :
  (select_scan c x y todo = ([], None))
  ∨ ∃ shape, fst (select_scan c x y todo) = [shape] ∧ shape ∈ todo
             ∧ is_Polygon (shape_at c shape) = false
             ∧ (snd (select_scan c x y todo) ≠ None -> is_Line (shape_at c shape) = true).
Proof.
  induction todo as [|s todo IH]; simpl; [by left|].
  assert (Hrest : (select_scan c x y todo = ([], None))
            ∨ ∃ shape, fst (select_scan c x y todo) = [shape] ∧ shape ∈ s :: todo
                       ∧ is_Polygon (shape_at c shape) = false
                       ∧ (snd (select_scan c x y todo) ≠ None
                          -> is_Line (shape_at c shape) = true)).
  { destruct IH as [IH|(z & ? & ? & ? & ?)]; [by left|right].
    exists z. split; [done|]. split; [by right|done]. }
  assert (Hhere : ∀ ep : option nat, is_Polygon (shape_at c s) = false ->
            (ep ≠ None -> is_Line (shape_at c s) = true) ->
            (([s], ep) = (([] : list nat), None))
            ∨ ∃ shape, fst ([s], ep) = [shape] ∧ shape ∈ s :: todo
                       ∧ is_Polygon (shape_at c shape) = false
                       ∧ (snd ([s], ep) ≠ None -> is_Line (shape_at c shape) = true)).
  { intros ep Hp Hl. right. exists s. split; [done|]. split; [by left|]. done. }
  unfold is_Polygon, is_Line in *.
  destruct (geometry (shape_at c s)) eqn:Hg.
  - repeat (match goal with |- context [if ?b then _ else _] => destruct b end);
      try exact Hrest; apply Hhere; done.
  - destruct (bool_decide _); [|exact Hrest]. apply Hhere; done.
  - destruct (bool_decide _); [|exact Hrest]. apply Hhere; done.
  - exact Hrest.
Qed.

(** [on_select] returns normally and changes neither the collection nor
    any shape; afterwards either nothing is selected and no end point is
    grabbed, or exactly one shape is selected: a shape of the collection
    that is no polygon, and a line when an end point is grabbed. *)
Theorem on_select_picks_one_drawn_shape (x y : R) (c : Canvas) :
  let c' := exec (on_select x y) c in
  on_select x y c = (Ok tt, c')
  ∧ shapes c' = shapes c ∧ store c' = store c
  ∧ (selected_shapes c' = [] ∧ selected_endpoint c' = None
     ∨ ∃ shape, selected_shapes c' = [shape] ∧ shape ∈ shapes c
                ∧ is_Polygon (shape_at c shape) = false
                ∧ (selected_endpoint c' ≠ None -> is_Line (shape_at c shape) = true)).
Proof.
  cbv zeta. unfold exec.
  assert (Hrun : on_select x y c
                 = (Ok tt, set_selected_endpoint (snd (select_scan c x y (rev (shapes c))))
                             (set_selected_shapes (fst (select_scan c x y (rev (shapes c)))) c)))
    by reflexivity.
  rewrite Hrun. simpl snd.
  split; [reflexivity|]. split; [reflexivity|]. split; [reflexivity|].
  cbn [selected_shapes selected_endpoint set_selected_endpoint set_selected_shapes].
  destruct (select_scan_one c x y (rev (shapes c))) as [H|(s & H1 & H2 & H3 & H4)].
  - left. rewrite H. split; reflexivity.
  - right. exists s. split; [done|]. split; [|done].
    apply list_elem_of_In, in_rev. by apply list_elem_of_In.
Qed.





(** *** Undo and redo round trips *)

Lemma py_pop_snoc {A} (l : list A) (x : A) : py_pop (l ++ [x]) = Some (l, x).
Proof. unfold py_pop. by rewrite last_snoc, removelast_last. Qed.

Lemma py_pop_nil {A} : py_pop (@nil A) = None.
Proof. reflexivity. Qed.

Lemma py_remove_last x l : x ∉ l -> py_remove x (l ++ [x]) = Some l.
Proof.
  induction l as [|y l IH]; intros Hx; simpl.
  - by rewrite decide_True.
  - rewrite decide_False by (intros ->; apply Hx; by left).
    rewrite IH; [reflexivity|]. intros H. apply Hx. by right.
Qed.

Lemma undo_unfold c rest op :
  undo_stack c = rest ++ [op] ->
  undo c = undo_action op (set_redo_stack (redo_stack c ++ [op]) (set_undo_stack rest c)).
Proof.
  intros H. unfold undo. rewrite bind_gets, H, py_pop_snoc.
  rewrite bind_modify. rewrite bind_modify. reflexivity.
Qed.

Lemma redo_unfold c rest op :
  redo_stack c = rest ++ [op] ->
  redo c = redo_action op (set_undo_stack (undo_stack c ++ [op]) (set_redo_stack rest c)).
Proof.
  intros H. unfold redo. rewrite bind_gets, H, py_pop_snoc.
  rewrite bind_modify. rewrite bind_modify. reflexivity.
Qed.

Lemma stack_actions_keep {X} (f : Canvas -> X) op :
  (∀ st c, f (set_store st c) = f c) -> (∀ l c, f (set_shapes l c) = f c) ->
  (∀ v c, f (set_current_color v c) = f c) -> (∀ v c, f (set_current_width v c) = f c) ->
  (∀ v c, f (set_current_style v c) = f c) ->
  keeps f (undo_action op) ∧ keeps f (redo_action op).
Proof.
  intros Hst Hsh Hc Hw Hs.
  split; destruct op; unfold undo_action, redo_action;
    repeat first
      [ keeps_step
      | apply keeps_modify; intros;
        first [apply Hst | apply Hsh | apply Hc | apply Hw | apply Hs
              | case_bool_decide; apply Hsh]
      | progress unfold shapes_remove, shapes_discard, shapes_append, move_shape_by,
          restore_position, set_property, write, increase, update_shape,
          refresh_corner_points, refresh_end_points, shift_circle, shift_points ].
Qed.

(** [undo] moves the last entry of the undo stack to the end of the redo
    stack, whether or not replaying the entry raises; a following [redo]
    moves it back, so both stacks are as before. *)
Theorem undo_then_redo_restores_stacks (c : Canvas) (rest : list operation) (op : operation) :
  undo_stack c = rest ++ [op] ->
  undo_stack (exec undo c) = rest
  ∧ redo_stack (exec undo c) = redo_stack c ++ [op]
  ∧ undo_stack (exec redo (exec undo c)) = undo_stack c
  ∧ redo_stack (exec redo (exec undo c)) = redo_stack c.
Proof.
  intros H.
  assert (Hu : undo_stack (exec undo c) = rest).
  { unfold exec. rewrite (undo_unfold c rest op H).
    rewrite (proj1 (stack_actions_keep undo_stack op ltac:(done) ltac:(done) ltac:(done)
                      ltac:(done) ltac:(done))). reflexivity. }
  assert (Hr : redo_stack (exec undo c) = redo_stack c ++ [op]).
  { unfold exec. rewrite (undo_unfold c rest op H).
    rewrite (proj1 (stack_actions_keep redo_stack op ltac:(done) ltac:(done) ltac:(done)
                      ltac:(done) ltac:(done))). reflexivity. }
  split; [exact Hu|]. split; [exact Hr|].
  unfold exec at 1 3. rewrite (redo_unfold _ _ _ Hr).
  rewrite (proj2 (stack_actions_keep undo_stack op ltac:(done) ltac:(done) ltac:(done)
                    ltac:(done) ltac:(done))).
  rewrite (proj2 (stack_actions_keep redo_stack op ltac:(done) ltac:(done) ltac:(done)
                    ltac:(done) ltac:(done))).
  cbn [undo_stack redo_stack set_undo_stack set_redo_stack]. rewrite Hu, H. done.
Qed.

Lemma undo_then_redo_restores_stacks_witness :
  undo_stack line_canvas = [] ++ [op_add_shape 0]
  ∧ undo_stack (exec undo line_canvas) = []
  ∧ redo_stack (exec undo line_canvas) = redo_stack line_canvas ++ [op_add_shape 0]
  ∧ undo_stack (exec redo (exec undo line_canvas)) = undo_stack line_canvas
  ∧ redo_stack (exec redo (exec undo line_canvas)) = redo_stack line_canvas.
Proof.
  split; [reflexivity|].
  apply (undo_then_redo_restores_stacks line_canvas [] (op_add_shape 0)). reflexivity.
Defined.

(** On an empty stack [undo] and [redo] do nothing. *)
Lemma undo_redo_on_empty_stack (c : Canvas) :
  (undo_stack c = [] -> undo c = (Ok tt, c)) ∧ (redo_stack c = [] -> redo c = (Ok tt, c)).
Proof.
  split; intros H; [unfold undo|unfold redo]; rewrite bind_gets, H; reflexivity.
Qed.

(** Adding a shape, undoing and redoing: after the commit the new shape is
    the last of the collection; [undo] returns normally and gives back
    the collection and the undo stack of before the commit; [redo] then
    returns the canvas of after the commit.  The hypothesis says that the
    new object is not yet in the collection. *)
Theorem add_undo_redo_round_trip (c : Canvas) (s : Shape) :
  next_ref c ∉ shapes c ->
  let c1 := exec (commit_shape s) c in
  let c2 := exec undo c1 in
  undo c1 = (Ok tt, c2)
  ∧ shapes c1 = shapes c ++ [next_ref c] ∧ shape_at c1 (next_ref c) = s
  ∧ shapes c2 = shapes c ∧ undo_stack c2 = undo_stack c
  ∧ redo c2 = (Ok tt, c1).
Proof.
  intros Hfresh. cbv zeta.
  assert (H1 : exec (commit_shape s) c
               = set_redo_stack []
                   (set_undo_stack (undo_stack c ++ [op_add_shape (next_ref c)])
                      (set_shapes (shapes c ++ [next_ref c])
                         (set_next_ref (S (next_ref c))
                            (set_store (<[next_ref c := s]> (store c)) c))))) by reflexivity.
  set (c1 := exec (commit_shape s) c) in *.
  assert (Hu1 : undo_stack c1 = undo_stack c ++ [op_add_shape (next_ref c)])
    by (rewrite H1; reflexivity).
  assert (Hundo : undo c1
                  = (Ok tt, set_shapes (shapes c)
                              (set_redo_stack [op_add_shape (next_ref c)]
                                 (set_undo_stack (undo_stack c) c1)))).
  { rewrite (undo_unfold _ _ _ Hu1). unfold undo_action, shapes_remove.
    rewrite bind_gets. cbn [shapes set_redo_stack set_undo_stack].
    replace (shapes c1) with (shapes c ++ [next_ref c]) by (rewrite H1; reflexivity).
    rewrite (py_remove_last _ _ Hfresh). unfold modify.
    replace (redo_stack c1) with (@nil operation) by (rewrite H1; reflexivity).
    reflexivity. }
  unfold exec at 1 2 3 4. rewrite Hundo. simpl snd.
  split; [reflexivity|]. split; [rewrite H1; reflexivity|].
  split; [rewrite H1; unfold shape_at; cbn [store set_redo_stack set_undo_stack set_shapes
                                            set_next_ref set_store];
          apply lookup_total_insert_eq|].
  split; [reflexivity|]. split; [reflexivity|].
  match goal with
  | |- redo ?c2 = _ => rewrite (redo_unfold c2 [] (op_add_shape (next_ref c)) eq_refl)
  end.
  unfold redo_action, shapes_append, modify. rewrite H1. reflexivity.
Qed.

Lemma add_undo_redo_round_trip_witness :
  let s := Line_init 100 100 200 200 "black" 1 None in
  let c1 := exec (commit_shape s) DrawingCanvas_init in
  let c2 := exec undo c1 in
  (next_ref DrawingCanvas_init ∉ shapes DrawingCanvas_init)
  ∧ undo c1 = (Ok tt, c2)
  ∧ shapes c1 = shapes DrawingCanvas_init ++ [next_ref DrawingCanvas_init]
  ∧ shape_at c1 (next_ref DrawingCanvas_init) = s
  ∧ shapes c2 = shapes DrawingCanvas_init ∧ undo_stack c2 = undo_stack DrawingCanvas_init
  ∧ redo c2 = (Ok tt, c1).
Proof.
  cbv zeta. split; [apply not_elem_of_nil|].
  apply (add_undo_redo_round_trip DrawingCanvas_init (Line_init 100 100 200 200 "black" 1 None)).
  apply not_elem_of_nil.
Defined.

(** [set_color], [set_width] and [set_style] assign the property; [undo]
    then returns normally and gives the old value back, and [redo] returns
    the canvas of after the assignment. *)
Theorem style_change_undo_redo_round_trip (c : Canvas) :
  (∀ color, let c1 := exec (set_color color) c in
            current_color c1 = color
            ∧ undo c1 = (Ok tt, exec undo c1)
            ∧ current_color (exec undo c1) = current_color c
            ∧ redo (exec undo c1) = (Ok tt, c1))
  ∧ (∀ width, let c1 := exec (set_width width) c in
              current_width c1 = width
              ∧ undo c1 = (Ok tt, exec undo c1)
              ∧ current_width (exec undo c1) = current_width c
              ∧ redo (exec undo c1) = (Ok tt, c1))
  ∧ (∀ style, let c1 := exec (set_style style) c in
              current_style c1 = style
              ∧ undo c1 = (Ok tt, exec undo c1)
              ∧ current_style (exec undo c1) = current_style c
              ∧ redo (exec undo c1) = (Ok tt, c1)).
Proof.
  split; [|split]; intros v; cbv zeta.
  - set (c1 := exec (set_color v) c).
    assert (Hu : undo c1
                 = (Ok tt, set_current_color (current_color c)
                             (set_redo_stack [op_change_property "current_color"
                                                (ColorValue (current_color c)) (ColorValue v)]
                                (set_undo_stack (undo_stack c) c1)))).
    { rewrite (undo_unfold c1 (undo_stack c)
                 (op_change_property "current_color" (ColorValue (current_color c)) (ColorValue v)) eq_refl).
      reflexivity. }
    unfold exec at 1 2 3. rewrite Hu. simpl snd.
    split; [reflexivity|]. split; [reflexivity|]. split; [reflexivity|].
    match goal with
    | |- redo ?c2 = _ => rewrite (redo_unfold c2 [] (op_change_property "current_color" (ColorValue (current_color c)) (ColorValue v)) eq_refl)
    end.
    destruct c; reflexivity.
  - set (c1 := exec (set_width v) c).
    assert (Hu : undo c1
                 = (Ok tt, set_current_width (current_width c)
                             (set_redo_stack [op_change_property "current_width"
                                                (WidthValue (current_width c)) (WidthValue v)]
                                (set_undo_stack (undo_stack c) c1)))).
    { rewrite (undo_unfold c1 (undo_stack c)
                 (op_change_property "current_width" (WidthValue (current_width c)) (WidthValue v)) eq_refl).
      reflexivity. }
    unfold exec at 1 2 3. rewrite Hu. simpl snd.
    split; [reflexivity|]. split; [reflexivity|]. split; [reflexivity|].
    match goal with
    | |- redo ?c2 = _ => rewrite (redo_unfold c2 [] (op_change_property "current_width" (WidthValue (current_width c)) (WidthValue v)) eq_refl)
    end.
    destruct c; reflexivity.
  - set (c1 := exec (set_style v) c).
    assert (Hu : undo c1
                 = (Ok tt, set_current_style (current_style c)
                             (set_redo_stack [op_change_property "current_style"
                                                (StyleValue (current_style c)) (StyleValue v)]
                                (set_undo_stack (undo_stack c) c1)))).
    { rewrite (undo_unfold c1 (undo_stack c)
                 (op_change_property "current_style" (StyleValue (current_style c)) (StyleValue v)) eq_refl).
      reflexivity. }
    unfold exec at 1 2 3. rewrite Hu. simpl snd.
    split; [reflexivity|]. split; [reflexivity|]. split; [reflexivity|].
    match goal with
    | |- redo ?c2 = _ => rewrite (redo_unfold c2 [] (op_change_property "current_style" (StyleValue (current_style c)) (StyleValue v)) eq_refl)
    end.
    destruct c; reflexivity.
Qed.

Lemma set_shapes_twice l l' c : set_shapes l (set_shapes l' c) = set_shapes l c.
Proof. reflexivity. Qed.

Lemma set_shapes_same c : set_shapes (shapes c) c = c.
Proof. by destruct c. Qed.

Lemma for_each_discard l c :
  for_each l shapes_discard c = (Ok tt, set_shapes (discard_all l (shapes c)) c).
Proof.
  revert c. induction l as [|r l IH]; intros c; simpl.
  - unfold ret. by rewrite set_shapes_same.
  - unfold bind, shapes_discard at 1. unfold bind, gets.
    destruct (py_in r (shapes c)) eqn:Hin.
    + apply py_in_true in Hin. destruct (py_remove_Some _ _ Hin) as [l' Hl'].
      unfold shapes_remove, bind, gets. rewrite Hl'. unfold modify.
      rewrite IH. reflexivity.
    + unfold ret. rewrite IH. reflexivity.
Qed.

Lemma for_each_reinsert entries c :
  for_each entries (fun '(i, shape) =>
    modify (fun c => if bool_decide (i < length (shapes c))%nat
                     then set_shapes (py_insert i shape (shapes c)) c
                     else set_shapes (shapes c ++ [shape]) c)) c
  = (Ok tt, set_shapes (reinsert_all entries (shapes c)) c).
Proof.
  revert c. induction entries as [|[i r] l IH]; intros c; simpl.
  - unfold ret. by rewrite set_shapes_same.
  - unfold bind, modify at 1. rewrite IH.
    case_bool_decide; reflexivity.
Qed.

Lemma discard_all_head x sel l :
  discard_all (x :: sel) (x :: l) = discard_all sel l.
Proof.
  unfold discard_all. simpl. unfold py_in.
  rewrite bool_decide_eq_true_2 by (by left). by rewrite decide_True.
Qed.

Lemma discard_all_other x sel l :
  x ∉ sel -> discard_all sel (x :: l) = x :: discard_all sel l.
Proof.
  revert l. induction sel as [|r sel IH]; intros l Hx; [reflexivity|].
  assert (Hne : x ≠ r) by (intros ->; apply Hx; by left).
  assert (Hx' : x ∉ sel) by (intros H; apply Hx; by right).
  unfold discard_all in *. simpl. unfold py_in.
  rewrite (decide_False (P := x = r)) by done.
  destruct (decide (r ∈ l)) as [Hin|Hin].
  - rewrite (bool_decide_eq_true_2 (r ∈ x :: l)) by (by right).
    rewrite (bool_decide_eq_true_2 (r ∈ l)) by done.
    destruct (py_remove_Some _ _ Hin) as [l' ->]. simpl. apply IH, Hx'.
  - rewrite (bool_decide_eq_false_2 (r ∈ x :: l)).
    2:{ intros H. apply elem_of_cons in H as [?|?]; [congruence|done]. }
    rewrite (bool_decide_eq_false_2 (r ∈ l)) by done. apply IH, Hx'.
Qed.

Lemma reinsert_all_shift x idx sel l :
  reinsert_all (zip (map S idx) sel) (x :: l) = x :: reinsert_all (zip idx sel) l.
Proof.
  revert sel l. induction idx as [|i idx IH]; intros sel l; [reflexivity|].
  destruct sel as [|r sel]; [reflexivity|].
  unfold reinsert_all in *. simpl.
  destruct (decide (i < length l)%nat).
  - rewrite !bool_decide_eq_true_2 by lia. apply IH.
  - rewrite !bool_decide_eq_false_2 by lia. apply IH.
Qed.

Lemma indices_of_other x sel l :
  x ∉ sel -> indices_of sel (x :: l) = map S <$> indices_of sel l.
Proof.
  induction sel as [|r sel IH]; intros Hx; [reflexivity|].
  assert (Hne : x ≠ r) by (intros ->; apply Hx; by left).
  assert (Hx' : x ∉ sel) by (intros H; apply Hx; by right).
  simpl. rewrite decide_False by done. rewrite (IH Hx').
  destruct (py_index r l); [|reflexivity].
  destruct (indices_of sel l); reflexivity.
Qed.

Lemma discard_all_elem sel l x :
  NoDup l -> x ∈ discard_all sel l <-> x ∈ l ∧ x ∉ sel.
Proof.
  revert l. induction sel as [|r sel IH]; intros l Hnd.
  - simpl. split; [intros H; split; [done|apply not_elem_of_nil]|by intros [? _]].
  - change (discard_all (r :: sel) l)
      with (discard_all sel (if py_in r l then default l (py_remove r l) else l)).
    destruct (py_in r l) eqn:Hin.
    + apply py_in_true in Hin. destruct (py_remove_Some _ _ Hin) as [l' Hl'].
      rewrite Hl'. simpl default.
      destruct (py_remove_NoDup _ _ _ Hl' Hnd) as [Hnd' Hr].
      rewrite (IH l' Hnd'). rewrite not_elem_of_cons. split.
      * intros [Hx Hs]. split; [by apply (py_remove_elem r l l')|].
        split; [intros ->; done|done].
      * intros [Hx [Hne Hs]]. split; [by apply (py_remove_other r l l')|done].
    + apply py_in_false in Hin. rewrite (IH l Hnd), not_elem_of_cons. split.
      * intros [Hx Hs]. split; [done|]. split; [intros ->; done|done].
      * intros [Hx [_ Hs]]. done.
Qed.

(** Deleting a selection that lists shapes in drawing order and putting
    the shapes back at the recorded indices gives the list back. *)
Lemma reinsert_discard sel l :
  NoDup l -> sel `sublist_of` l ->
  ∃ idx, indices_of sel l = Some idx
         ∧ reinsert_all (zip idx sel) (discard_all sel l) = l.
Proof.
  intros Hnd Hsub. induction Hsub as [|x sel l Hsub IH|x sel l Hsub IH].
  - exists []. done.
  - apply NoDup_cons in Hnd as [Hx Hnd]. destruct (IH Hnd) as (idx & Hidx & Hre).
    assert (Hxs : x ∉ sel) by (intros H; apply Hx; by apply (elem_of_sublist _ _ _ H Hsub)).
    exists (O :: map S idx). split.
    + simpl. rewrite decide_True by done. rewrite (indices_of_other _ _ _ Hxs), Hidx.
      reflexivity.
    + rewrite discard_all_head. cbn [map zip zip_with].
      change (reinsert_all ((O, x) :: ?e) ?a)
        with (reinsert_all e (if bool_decide (0 < length a)%nat
                              then py_insert 0 x a else a ++ [x])).
      replace (if bool_decide (0 < length (discard_all sel l))%nat
               then py_insert 0 x (discard_all sel l) else discard_all sel l ++ [x])
        with (x :: discard_all sel l).
      2:{ case_bool_decide as Hlen; [reflexivity|].
          destruct (discard_all sel l); [reflexivity|simpl in Hlen; lia]. }
      rewrite reinsert_all_shift, Hre. reflexivity.
  - apply NoDup_cons in Hnd as [Hx Hnd]. destruct (IH Hnd) as (idx & Hidx & Hre).
    assert (Hxs : x ∉ sel) by (intros H; apply Hx; by apply (elem_of_sublist _ _ _ H Hsub)).
    exists (map S idx). split.
    + rewrite (indices_of_other _ _ _ Hxs), Hidx. reflexivity.
    + rewrite (discard_all_other _ _ _ Hxs), reinsert_all_shift, Hre. reflexivity.
Qed.

(** Deleting and undoing: when the collection holds no shape twice and the
    selection lists shapes of the collection in drawing order,
    [delete_selected] returns normally and leaves exactly the unselected
    shapes; [undo] then returns normally with the collection as it was,
    in the same order, and [redo] deletes the same shapes again. *)
Theorem delete_undo_restores_order (c : Canvas) :
  NoDup (shapes c) -> selected_shapes c ≠ [] ->
  selected_shapes c `sublist_of` shapes c ->
  let c1 := exec delete_selected c in
  let c2 := exec undo c1 in
  delete_selected c = (Ok tt, c1)
  ∧ shapes c1 = discard_all (selected_shapes c) (shapes c)
  ∧ (∀ shape, shape ∈ shapes c1 <-> shape ∈ shapes c ∧ shape ∉ selected_shapes c)
  ∧ undo c1 = (Ok tt, c2) ∧ shapes c2 = shapes c
  ∧ shapes (exec redo c2) = shapes c1.
Proof.
  intros Hnd Hne Hsub. cbv zeta.
  destruct (reinsert_discard _ _ Hnd Hsub) as (idx & Hidx & Hre).
  destruct (selected_shapes c) as [|first rest] eqn:Hsel; [done|]. clear Hne.
  assert (H1 : delete_selected c
               = (Ok tt, set_redo_stack []
                           (set_selected_shapes []
                              (set_shapes (discard_all (first :: rest) (shapes c))
                                 (set_undo_stack
                                    (undo_stack c ++ [op_delete_shapes (first :: rest) idx])
                                    c))))).
  { unfold delete_selected. rewrite bind_gets, Hsel. cbv zeta. rewrite Hidx, bind_modify.
    rewrite (bind_ok _ _ _ _ _ (for_each_discard _ _)). reflexivity. }
  set (c1 := set_redo_stack [] _) in H1.
  assert (Hc1 : exec delete_selected c = c1) by (unfold exec; by rewrite H1).
  rewrite Hc1.
  assert (H2 : undo c1
               = (Ok tt, set_shapes (shapes c)
                           (set_redo_stack [op_delete_shapes (first :: rest) idx]
                              (set_undo_stack (undo_stack c) c1)))).
  { rewrite (undo_unfold c1 (undo_stack c) (op_delete_shapes (first :: rest) idx) eq_refl).
    unfold undo_action. rewrite for_each_reinsert.
    cbn [shapes set_redo_stack set_undo_stack]. unfold c1 at 1.
    cbn [shapes set_redo_stack set_selected_shapes set_shapes]. rewrite Hre. reflexivity. }
  set (c2 := set_shapes (shapes c) _) in H2.
  assert (Hc2 : exec undo c1 = c2) by (unfold exec; by rewrite H2).
  rewrite Hc2.
  split; [exact H1|]. split; [reflexivity|].
  split; [intros shape; apply discard_all_elem, Hnd|].
  split; [exact H2|]. split; [reflexivity|].
  unfold exec.
  rewrite (redo_unfold c2 [] (op_delete_shapes (first :: rest) idx) eq_refl).
  unfold redo_action. rewrite for_each_discard. reflexivity.
Qed.

Lemma delete_undo_restores_order_witness :
  NoDup (shapes two_lines_selected) ∧ selected_shapes two_lines_selected ≠ []
  ∧ shapes (exec delete_selected two_lines_selected) = []
  ∧ shapes (exec undo (exec delete_selected two_lines_selected)) = [0%nat; 1%nat].
Proof.
  assert (Hnd : NoDup (shapes two_lines_selected)).
  { apply NoDup_cons. split; [|apply NoDup_singleton].
    intros H. apply list_elem_of_singleton in H. discriminate. }
  assert (Hne : selected_shapes two_lines_selected ≠ []) by discriminate.
  assert (Hsub : selected_shapes two_lines_selected `sublist_of` shapes two_lines_selected).
  { reflexivity. }
  split; [exact Hnd|]. split; [exact Hne|].
  pose proof (delete_undo_restores_order two_lines_selected Hnd Hne Hsub) as H.
  cbv zeta in H. destruct H as (_ & H1 & _ & _ & H2 & _).
  split; [rewrite H1; reflexivity|exact H2].
Defined.

(** *** Moving, resizing, selecting all, polygons *)

Lemma shape_at_with_shape r s c r' :
  shape_at (with_shape r s c) r' = if decide (r = r') then s else shape_at c r'.
Proof.
  unfold shape_at, with_shape. rewrite store_set_store.
  destruct (decide (r = r')) as [->|Hne].
  - apply lookup_total_insert_eq.
  - by apply lookup_total_insert_ne.
Qed.

Lemma with_shape_twice r s s' c : with_shape r s' (with_shape r s c) = with_shape r s' c.
Proof.
  unfold with_shape. rewrite store_set_store, insert_insert_eq. reflexivity.
Qed.

Lemma update_shape_run r f c :
  update_shape r f c = (Ok tt, with_shape r (f (shape_at c r)) c).
Proof. reflexivity. Qed.

Lemma update_with_shape r f s c :
  update_shape r f (with_shape r s c) = (Ok tt, with_shape r (f s) c).
Proof.
  rewrite update_shape_run, shape_at_with_shape, decide_True by done.
  by rewrite with_shape_twice.
Qed.

Lemma read_with_shape r a s c v :
  getattr a s = Some v -> read r a (with_shape r s c) = (Ok v, with_shape r s c).
Proof.
  intros H. apply read_ok. rewrite shape_at_with_shape, decide_True by done. exact H.
Qed.

Lemma increase_run r a d c v :
  getattr a (shape_at c r) = Some v ->
  increase r a d c = (Ok tt, with_shape r (setattr a (v + d) (shape_at c r)) c).
Proof.
  intros H. unfold increase. rewrite (bind_ok _ _ _ _ _ (read_ok _ _ _ _ H)). reflexivity.
Qed.

Lemma increase_with_shape r a d s c v :
  getattr a s = Some v ->
  increase r a d (with_shape r s c) = (Ok tt, with_shape r (setattr a (v + d) s) c).
Proof.
  intros H. unfold increase.
  rewrite (bind_ok _ _ _ _ _ (read_with_shape _ _ _ _ _ H)).
  apply update_with_shape.
Qed.

Lemma refresh_corner_with_shape r s c x1 y1 x2 y2 :
  geometry s = Rectangle x1 y1 x2 y2 ->
  refresh_corner_points r (with_shape r s c)
  = (Ok tt, with_shape r (set_shape_points [(x1, y1); (x2, y1); (x2, y2); (x1, y2)] s) c).
Proof.
  intros H. destruct (getattr_Rectangle _ _ _ _ _ H) as (G1 & G2 & G3 & G4).
  unfold refresh_corner_points.
  rewrite (bind_ok _ _ _ _ _ (read_with_shape _ _ _ _ _ G1)).
  rewrite (bind_ok _ _ _ _ _ (read_with_shape _ _ _ _ _ G2)).
  rewrite (bind_ok _ _ _ _ _ (read_with_shape _ _ _ _ _ G3)).
  rewrite (bind_ok _ _ _ _ _ (read_with_shape _ _ _ _ _ G4)).
  apply update_with_shape.
Qed.

Lemma refresh_corner_run r c :
  is_Rectangle (shape_at c r) = true ->
  refresh_corner_points r c = (Ok tt, with_shape r (with_corner_points (shape_at c r)) c).
Proof.
  unfold is_Rectangle, with_corner_points. intros H.
  destruct (geometry (shape_at c r)) as [| x1 y1 x2 y2 | |] eqn:Hg; try discriminate.
  destruct (getattr_Rectangle _ _ _ _ _ Hg) as (G1 & G2 & G3 & G4).
  unfold refresh_corner_points.
  rewrite (bind_ok _ _ _ _ _ (read_ok _ _ _ _ G1)).
  rewrite (bind_ok _ _ _ _ _ (read_ok _ _ _ _ G2)).
  rewrite (bind_ok _ _ _ _ _ (read_ok _ _ _ _ G3)).
  rewrite (bind_ok _ _ _ _ _ (read_ok _ _ _ _ G4)).
  reflexivity.
Qed.

Lemma getattr_Line s a b cc d :
  geometry s = Line a b cc d ->
  getattr attr_x1 s = Some a ∧ getattr attr_y1 s = Some b
  ∧ getattr attr_x2 s = Some cc ∧ getattr attr_y2 s = Some d.
Proof. intros H. unfold getattr. rewrite H. done. Qed.

Lemma refresh_end_with_shape r s c x1 y1 x2 y2 :
  geometry s = Line x1 y1 x2 y2 ->
  refresh_end_points r (with_shape r s c)
  = (Ok tt, with_shape r (set_shape_points [(x1, y1); (x2, y2)] s) c).
Proof.
  intros H. destruct (getattr_Line _ _ _ _ _ H) as (G1 & G2 & G3 & G4).
  unfold refresh_end_points.
  rewrite (bind_ok _ _ _ _ _ (read_with_shape _ _ _ _ _ G1)).
  rewrite (bind_ok _ _ _ _ _ (read_with_shape _ _ _ _ _ G2)).
  rewrite (bind_ok _ _ _ _ _ (read_with_shape _ _ _ _ _ G3)).
  rewrite (bind_ok _ _ _ _ _ (read_with_shape _ _ _ _ _ G4)).
  apply update_with_shape.
Qed.

(** The loop bodies of [move_shape], one per class. *)
Lemma move_rectangle_body r dx dy c :
  is_Rectangle (shape_at c r) = true ->
  bind (increase r attr_x1 dx) (fun _ =>
  bind (increase r attr_y1 dy) (fun _ =>
  bind (increase r attr_x2 dx) (fun _ =>
  bind (increase r attr_y2 dy) (fun _ => refresh_corner_points r)))) c
  = (Ok tt, with_shape r (translate dx dy (shape_at c r)) c).
Proof.
  unfold is_Rectangle, translate. intros H.
  destruct (shape_at c r) as [g col w st ps sel] eqn:Hs. simpl in H |- *.
  destruct g as [| x1 y1 x2 y2 | |]; try discriminate.
  rewrite (bind_ok _ _ _ _ _ (increase_run r attr_x1 dx c x1 ltac:(by rewrite Hs))).
  rewrite Hs.
  erewrite bind_ok by (apply increase_with_shape; reflexivity).
  erewrite bind_ok by (apply increase_with_shape; reflexivity).
  erewrite bind_ok by (apply increase_with_shape; reflexivity).
  erewrite refresh_corner_with_shape by reflexivity.
  reflexivity.
Qed.

Lemma move_line_body r dx dy c :
  is_Line (shape_at c r) = true ->
  bind (increase r attr_x1 dx) (fun _ =>
  bind (increase r attr_y1 dy) (fun _ =>
  bind (increase r attr_x2 dx) (fun _ =>
  bind (increase r attr_y2 dy) (fun _ => refresh_end_points r)))) c
  = (Ok tt, with_shape r (translate dx dy (shape_at c r)) c).
Proof.
  unfold is_Line, translate. intros H.
  destruct (shape_at c r) as [g col w st ps sel] eqn:Hs. simpl in H |- *.
  destruct g as [x1 y1 x2 y2 | | |]; try discriminate.
  rewrite (bind_ok _ _ _ _ _ (increase_run r attr_x1 dx c x1 ltac:(by rewrite Hs))).
  rewrite Hs.
  erewrite bind_ok by (apply increase_with_shape; reflexivity).
  erewrite bind_ok by (apply increase_with_shape; reflexivity).
  erewrite bind_ok by (apply increase_with_shape; reflexivity).
  erewrite refresh_end_with_shape by reflexivity.
  reflexivity.
Qed.

Lemma move_circle_body r dx dy c :
  is_Circle (shape_at c r) = true ->
  shift_circle r dx dy c = (Ok tt, with_shape r (translate dx dy (shape_at c r)) c).
Proof.
  unfold is_Circle, translate, shift_circle. intros H. rewrite bind_gets.
  destruct (geometry (shape_at c r)); try discriminate. reflexivity.
Qed.

Lemma move_polygon_body r dx dy c :
  is_Polygon (shape_at c r) = true ->
  shift_points r dx dy c = (Ok tt, with_shape r (translate dx dy (shape_at c r)) c).
Proof.
  unfold is_Polygon, translate, shift_points. intros H. rewrite update_shape_run.
  destruct (geometry (shape_at c r)); try discriminate. reflexivity.
Qed.

(** A loop whose body updates its shape by [f] whenever the shape
    satisfies [P], over shapes that satisfy [P]. *)
Lemma for_each_update_when (P : Shape -> Prop) (f : Shape -> Shape) (body : nat -> M unit) :
  (∀ s, P s -> P (f s)) ->
  (∀ r c, P (shape_at c r) -> body r c = (Ok tt, with_shape r (f (shape_at c r)) c)) ->
  ∀ l c, (∀ r, r ∈ l -> P (shape_at c r)) ->
         for_each l body c = (Ok tt, set_store (update_all f l (store c)) c).
Proof.
  intros HP Hbody l. induction l as [|a l IH]; intros c Hl; simpl.
  - unfold ret. by rewrite set_store_same.
  - rewrite (bind_ok _ _ _ _ _ (Hbody a c (Hl a ltac:(by left)))).
    rewrite IH; [reflexivity|].
    intros r Hr. rewrite shape_at_with_shape. destruct (decide (a = r)) as [->|Hne].
    + apply HP, Hl. by left.
    + apply Hl. by right.
Qed.

Lemma update_all_lookup_NoDup f l st r :
  NoDup l ->
  update_all f l st !!! r = if bool_decide (r ∈ l) then f (st !!! r) else st !!! r.
Proof.
  revert st. induction l as [|a l IH]; intros st Hnd; [reflexivity|].
  apply NoDup_cons in Hnd as [Ha Hnd].
  change (update_all f (a :: l) st) with (update_all f l (<[a := f (st !!! a)]> st)).
  rewrite (IH _ Hnd).
  destruct (decide (a = r)) as [->|Hne].
  - rewrite (bool_decide_eq_false_2 (r ∈ l)) by done.
    rewrite (bool_decide_eq_true_2 (r ∈ r :: l)) by (by left).
    apply lookup_total_insert_eq.
  - rewrite !lookup_total_insert_ne by done.
    destruct (decide (r ∈ l)).
    + rewrite !bool_decide_eq_true_2; [done|by right|done].
    + rewrite !bool_decide_eq_false_2; [done| |done].
      intros H. apply elem_of_cons in H as [?|?]; [congruence|done].
Qed.

Lemma same_class_translate dx dy s t :
  same_class s t = true -> same_class s (translate dx dy t) = true.
Proof.
  unfold same_class, translate. destruct (geometry s), t as [[] ? ? ? ? ?]; simpl; done.
Qed.

Lemma same_class_is s t :
  same_class s t = true ->
  is_Line t = is_Line s ∧ is_Rectangle t = is_Rectangle s
  ∧ is_Circle t = is_Circle s ∧ is_Polygon t = is_Polygon s.
Proof.
  unfold same_class, is_Line, is_Rectangle, is_Circle, is_Polygon.
  destruct (geometry s), (geometry t); done.
Qed.

Lemma move_shape_run c first rest dx dy :
  selected_shapes c = first :: rest ->
  (∀ shape, shape ∈ rest -> same_class (shape_at c first) (shape_at c shape) = true) ->
  move_shape dx dy c
  = (Ok tt, set_store (update_all (translate dx dy) (first :: rest) (store c)) c).
Proof.
  intros Hsel Hclass.
  assert (Hall : ∀ r, r ∈ first :: rest -> same_class (shape_at c first) (shape_at c r) = true).
  { intros r Hr. apply elem_of_cons in Hr as [->|Hr]; [|by apply Hclass].
    unfold same_class. destruct (geometry (shape_at c first)); done. }
  unfold move_shape. rewrite bind_gets, Hsel.
  destruct (geometry (shape_at c first)) eqn:Hg.
  - apply (for_each_update_when (fun s => same_class (shape_at c first) s = true)).
    + intros. by apply same_class_translate.
    + intros r c0 Hr. apply move_line_body.
      rewrite (proj1 (same_class_is _ _ Hr)). unfold is_Line. by rewrite Hg.
    + exact Hall.
  - apply (for_each_update_when (fun s => same_class (shape_at c first) s = true)).
    + intros. by apply same_class_translate.
    + intros r c0 Hr. apply move_rectangle_body.
      rewrite (proj1 (proj2 (same_class_is _ _ Hr))). unfold is_Rectangle. by rewrite Hg.
    + exact Hall.
  - apply (for_each_update_when (fun s => same_class (shape_at c first) s = true)).
    + intros. by apply same_class_translate.
    + intros r c0 Hr. apply move_circle_body.
      rewrite (proj1 (proj2 (proj2 (same_class_is _ _ Hr)))). unfold is_Circle. by rewrite Hg.
    + exact Hall.
  - apply (for_each_update_when (fun s => same_class (shape_at c first) s = true)).
    + intros. by apply same_class_translate.
    + intros r c0 Hr. apply move_polygon_body.
      rewrite (proj2 (proj2 (proj2 (same_class_is _ _ Hr)))). unfold is_Polygon. by rewrite Hg.
    + exact Hall.
Qed.

(** [move_shape] on a selection without repetitions whose shapes are all
    of the class of the first one returns normally, changes nothing but
    shape objects, moves every selected shape by [(dx, dy)], coordinates
    and [points] alike, and leaves every other shape as it was. *)
Theorem move_shape_translates_selection (c : Canvas) (first : nat) (rest : list nat)
    (dx dy : R) :
  selected_shapes c = first :: rest ->
  NoDup (first :: rest) ->
  (∀ shape, shape ∈ rest -> same_class (shape_at c first) (shape_at c shape) = true) ->
  ∃ c', move_shape dx dy c = (Ok tt, c')
        ∧ c' = set_store (store c') c
        ∧ ∀ shape, shape_at c' shape
                   = if bool_decide (shape ∈ first :: rest)
                     then translate dx dy (shape_at c shape) else shape_at c shape.
Proof.
  intros Hsel Hnd Hclass.
  exists (set_store (update_all (translate dx dy) (first :: rest) (store c)) c).
  split; [by apply move_shape_run|]. split; [reflexivity|].
  intros r. unfold shape_at. rewrite store_set_store.
  apply update_all_lookup_NoDup, Hnd.
Qed.

Lemma two_lines_NoDup : NoDup [0%nat; 1%nat].
Proof.
  apply NoDup_cons. split; [|apply NoDup_singleton].
  intros H. apply list_elem_of_singleton in H. discriminate.
Qed.

Lemma move_shape_translates_selection_witness :
  ∃ c', move_shape 10 20 two_lines_selected = (Ok tt, c')
        ∧ c' = set_store (store c') two_lines_selected
        ∧ ∀ shape, shape_at c' shape
                   = if bool_decide (shape ∈ [0%nat; 1%nat])
                     then translate 10 20 (shape_at two_lines_selected shape)
                     else shape_at two_lines_selected shape.
Proof.
  apply (move_shape_translates_selection two_lines_selected 0 [1%nat] 10 20).
  - reflexivity.
  - exact two_lines_NoDup.
  - intros shape H. apply list_elem_of_singleton in H. subst shape. reflexivity.
Defined.

Lemma with_corner_points_idem s : with_corner_points (with_corner_points s) = with_corner_points s.
Proof.
  unfold with_corner_points. destruct s as [[] ? ? ? ? ?]; reflexivity.
Qed.

Lemma overwrite_is_Rectangle handle snap s :
  is_Rectangle (overwrite handle snap s) = is_Rectangle s.
Proof.
  unfold overwrite, is_Rectangle. destruct s as [[] ? ? ? ? ?]; simpl;
    destruct (has_char "n" handle), (has_char "s" handle), (has_char "w" handle),
      (has_char "e" handle); reflexivity.
Qed.

(** A resize step on selected rectangles whose new width and height
    (of the first rectangle, in absolute value) are at least MIN_SIZE
    returns normally, changes nothing but shape objects, overwrites in
    every selected rectangle the coordinates the handle names with the
    snapped pointer, rebuilds [points] from the four coordinates, and
    leaves every other shape as it was. *)
Theorem accepted_resize_rebuilds_points
    (c : Canvas) (x y : R) (first : nat) (rest : list nat) (handle : string)
    (snap : point) (a b cc d : R) :
  selected_shapes c = first :: rest ->
  (∀ shape, shape ∈ first :: rest -> is_Rectangle (shape_at c shape) = true) ->
  geometry (shape_at c first) = Rectangle a b cc d ->
  resize_handle c = Some handle ->
  get_snap_point x y c = (Ok snap, c) ->
  MIN_SIZE <= Rabs ((if has_char "e" handle then fst snap else cc)
                    - (if has_char "w" handle then fst snap else a)) ->
  MIN_SIZE <= Rabs ((if has_char "s" handle then snd snap else d)
                    - (if has_char "n" handle then snd snap else b)) ->
  ∃ c', resize_shape x y c = (Ok tt, c')
        ∧ c' = set_store (store c') c
        ∧ ∀ shape, shape_at c' shape
                   = if bool_decide (shape ∈ first :: rest)
                     then with_corner_points (overwrite handle snap (shape_at c shape))
                     else shape_at c shape.
Proof.
  intros Hsel Hrect Hgeo Hh Hsnap Hw Hht.
  rewrite (resize_shape_unfold c x y first rest handle snap a b cc d Hsel Hgeo Hh Hsnap).
  cbv zeta. rewrite !bool_decide_eq_false_2 by lra. cbn [orb].
  set (c1 := set_store (overwritten handle snap (first :: rest) (store c)) c).
  exists (set_store (update_all with_corner_points (first :: rest) (store c1)) c1).
  split; [|split; [reflexivity|]].
  - apply (for_each_update_when (fun s => is_Rectangle s = true)).
    + intros s Hs. unfold with_corner_points, is_Rectangle in *.
      destruct (geometry s) eqn:Hg; try discriminate. simpl. by rewrite Hg.
    + intros r c0 Hr. by apply refresh_corner_run.
    + intros r Hr. unfold shape_at, c1. rewrite store_set_store, overwritten_lookup.
      rewrite bool_decide_eq_true_2 by done. rewrite overwrite_is_Rectangle.
      by apply Hrect.
  - intros r. unfold shape_at. rewrite store_set_store.
    rewrite update_all_lookup by apply with_corner_points_idem.
    unfold c1. rewrite store_set_store, overwritten_lookup.
    destruct (bool_decide (r ∈ first :: rest)); reflexivity.
Qed.

Lemma accepted_resize_rebuilds_points_witness :
  ∃ c', resize_shape 50 50 (resize_scene "e") = (Ok tt, c')
        ∧ c' = set_store (store c') (resize_scene "e")
        ∧ ∀ shape, shape_at c' shape
                   = if bool_decide (shape ∈ [0%nat])
                     then with_corner_points
                            (overwrite "e" (50, 50) (shape_at (resize_scene "e") shape))
                     else shape_at (resize_scene "e") shape.
Proof.
  apply (accepted_resize_rebuilds_points (resize_scene "e") 50 50 0 [] "e" (50, 50)
           100 100 200 200).
  - reflexivity.
  - intros shape H. apply list_elem_of_singleton in H. subst shape. reflexivity.
  - reflexivity.
  - reflexivity.
  - apply resize_scene_no_snap.
  - simpl has_char. cbv iota. simpl fst. unfold MIN_SIZE. rewrite Rabs_left; lra.
  - simpl has_char. cbv iota. unfold MIN_SIZE. rewrite Rabs_right; lra.
Defined.

(** On a non-empty collection [select_all] returns normally, keeps the
    collection, makes the selection equal to it, sets the flag of every
    shape of the collection, clears the flag of every shape that was
    selected without being in the collection, and changes neither the
    coordinates nor the points of any shape. *)
Theorem select_all_selects_collection (c : Canvas) :
  shapes c ≠ [] ->
  ∃ c', select_all c = (Ok tt, c')
        ∧ selected_shapes c' = shapes c ∧ shapes c' = shapes c
        ∧ (∀ shape, shape ∈ shapes c -> is_selected (shape_at c' shape) = Some true)
        ∧ (∀ shape, shape ∈ selected_shapes c -> shape ∉ shapes c ->
                    is_selected (shape_at c' shape) = Some false)
        ∧ (∀ shape, geometry (shape_at c' shape) = geometry (shape_at c shape)
                    ∧ points (shape_at c' shape) = points (shape_at c shape)).
Proof.
  intros Hne. unfold select_all. rewrite bind_gets.
  destruct (shapes c) as [|s0 l0] eqn:Hs; [done|]. rewrite <- Hs. clear Hne.
  rewrite (bind_ok _ _ _ _ _ (for_each_update _ _ _)). rewrite bind_modify.
  rewrite for_each_update. eexists. split; [reflexivity|].
  cbn [selected_shapes shapes set_store set_selected_shapes store].
  split; [reflexivity|]. split; [reflexivity|].
  assert (Hlook : ∀ r, update_all (set_shape_is_selected true) (shapes c)
                         (update_all (set_shape_is_selected false) (selected_shapes c)
                            (store c)) !!! r
                       = if bool_decide (r ∈ shapes c)
                         then set_shape_is_selected true
                                (if bool_decide (r ∈ selected_shapes c)
                                 then set_shape_is_selected false (store c !!! r)
                                 else store c !!! r)
                         else if bool_decide (r ∈ selected_shapes c)
                              then set_shape_is_selected false (store c !!! r)
                              else store c !!! r).
  { intros r. rewrite !update_all_lookup by reflexivity. reflexivity. }
  unfold shape_at. cbn [store].
  split; [|split].
  - intros r Hr. rewrite Hlook, bool_decide_eq_true_2 by done. reflexivity.
  - intros r Hr Hn. rewrite Hlook, bool_decide_eq_false_2, bool_decide_eq_true_2 by done.
    reflexivity.
  - intros r. rewrite Hlook.
    destruct (bool_decide (r ∈ shapes c)), (bool_decide (r ∈ selected_shapes c)); done.
Qed.

Lemma select_all_selects_collection_witness :
  shapes line_canvas ≠ []
  ∧ ∃ c', select_all line_canvas = (Ok tt, c')
          ∧ selected_shapes c' = shapes line_canvas ∧ shapes c' = shapes line_canvas
          ∧ (∀ shape, shape ∈ shapes line_canvas -> is_selected (shape_at c' shape) = Some true)
          ∧ (∀ shape, shape ∈ selected_shapes line_canvas -> shape ∉ shapes line_canvas ->
                      is_selected (shape_at c' shape) = Some false)
          ∧ (∀ shape, geometry (shape_at c' shape) = geometry (shape_at line_canvas shape)
                      ∧ points (shape_at c' shape) = points (shape_at line_canvas shape)).
Proof.
  split; [discriminate|].
  apply (select_all_selects_collection line_canvas). discriminate.
Defined.

(** In polygon mode a right click with fewer than three vertices does
    nothing; with three or more it appends a polygon with exactly the
    clicked vertices and the current style, records one [add_shape] entry,
    clears the redo stack and the pending vertices. *)
Theorem right_click_completes_polygon (c : Canvas) :
  mode c = "polygon" ->
  ((length (current_points c) < 3)%nat -> on_right_click c = (Ok tt, c))
  ∧ ((3 <= length (current_points c))%nat ->
     let c' := exec on_right_click c in
     on_right_click c = (Ok tt, c')
     ∧ shapes c' = shapes c ++ [next_ref c]
     ∧ shape_at c' (next_ref c)
       = Polygon_init (current_points c) (current_color c) (current_width c) (current_style c)
     ∧ current_points c' = []
     ∧ undo_stack c' = undo_stack c ++ [op_add_shape (next_ref c)]
     ∧ redo_stack c' = []).
Proof.
  intros Hm. split; intros Hlen.
  - unfold on_right_click. rewrite bind_gets, Hm, String.eqb_refl.
    rewrite bool_decide_eq_false_2 by lia. reflexivity.
  - cbv zeta.
    assert (H : on_right_click c
                = (Ok tt,
                   set_current_points []
                     (set_redo_stack []
                        (set_undo_stack (undo_stack c ++ [op_add_shape (next_ref c)])
                           (set_shapes (shapes c ++ [next_ref c])
                              (set_next_ref (S (next_ref c))
                                 (set_store
                                    (<[next_ref c := Polygon_init (current_points c)
                                         (current_color c) (current_width c)
                                         (current_style c)]> (store c)) c))))))).
    { unfold on_right_click. rewrite bind_gets, Hm, String.eqb_refl.
      rewrite bool_decide_eq_true_2 by lia. cbn [andb].
      unfold complete_shape. rewrite bind_gets.
      destruct (current_points c) as [|p ps] eqn:Hp; [simpl in Hlen; lia|].
      rewrite <- Hp. rewrite Hm.
      change ("polygon" =? "line")%string with false.
      change ("polygon" =? "rectangle")%string with false.
      change ("polygon" =? "circle")%string with false.
      rewrite String.eqb_refl.
      rewrite bool_decide_eq_true_2 by (rewrite Hp; exact Hlen). reflexivity. }
    unfold exec. rewrite H. simpl snd.
    split; [reflexivity|]. split; [reflexivity|].
    split; [unfold shape_at; cbn [store set_current_points set_redo_stack set_undo_stack
                                  set_shapes set_next_ref set_store];
            apply lookup_total_insert_eq|].
    done.
Qed.
Lemma right_click_completes_polygon_witness :
  mode triangle_pending = "polygon"
  ∧ (3 <= length (current_points triangle_pending))%nat
  ∧ shapes (exec on_right_click triangle_pending) = [0%nat]
  ∧ shape_at (exec on_right_click triangle_pending) 0
    = Polygon_init [(100, 100); (200, 100); (150, 200)] "black" 1 None
  ∧ current_points (exec on_right_click triangle_pending) = [].
Proof.
  assert (Hlen : (3 <= length (current_points triangle_pending))%nat) by (simpl; lia).
  split; [reflexivity|]. split; [exact Hlen|].
  destruct (right_click_completes_polygon triangle_pending eq_refl) as [_ H].
  destruct (H Hlen) as (_ & H1 & H2 & H3 & _).
  split; [exact H1|]. split; [exact H2|exact H3].
Defined.

(** *** Keys and duplication *)

Lemma try_break (m : M unit) c :
  try_except (bind m (fun _ => ret (Some "break"%string))) (ret None) c
  = (match fst (m c) with Ok _ => Ok (Some "break"%string) | Raise _ => Ok None end,
     exec m c).
Proof.
  unfold try_except, bind, exec, ret. destruct (m c) as [[[]|e] c']; reflexivity.
Qed.

Lemma handle_keyboard_event_run (keysym : string) (state : Z) (c : Canvas) :
  handle_keyboard_event keysym state c
  = match key_action keysym state with
    | Some handler =>
        (match fst (handler c) with
         | Ok _ => Ok (Some "break"%string)
         | Raise _ => Ok None
         end, exec handler c)
    | None => (Ok None, c)
    end.
Proof.
  unfold key_action, handle_keyboard_event. cbv zeta.
  repeat (match goal with |- context [if ?b then _ else _] => destruct b end;
          [apply try_break|]).
  reflexivity.
Qed.

(** [handle_keyboard_event] never lets an exception out: it returns
    ["break"] or [None] whatever the key and the canvas.  Without the
    Control bit in [state] every key but Delete leaves the canvas alone and
    returns [None]; Delete runs [delete_selected] whatever the modifiers;
    with the Control bit, z and Z run [undo] and y and Y run [redo]. *)
Theorem handle_keyboard_event_swallows_exceptions (keysym : string) (state : Z) (c : Canvas) :
  (fst (handle_keyboard_event keysym state c) = Ok (Some "break"%string)
   ∨ fst (handle_keyboard_event keysym state c) = Ok None)
  ∧ (Z.land state 4 = 0%Z -> keysym ≠ "Delete"%string ->
     handle_keyboard_event keysym state c = (Ok None, c))
  ∧ snd (handle_keyboard_event "Delete" state c) = exec delete_selected c
  ∧ (Z.land state 4 ≠ 0%Z ->
     snd (handle_keyboard_event "z" state c) = exec undo c
     ∧ snd (handle_keyboard_event "Z" state c) = exec undo c
     ∧ snd (handle_keyboard_event "y" state c) = exec redo c
     ∧ snd (handle_keyboard_event "Y" state c) = exec redo c).
Proof.
  split; [|split; [|split]].
  - rewrite handle_keyboard_event_run. destruct (key_action keysym state) as [h|].
    + destruct (fst (h c)); [by left|by right].
    + by right.
  - intros Hs Hk. rewrite handle_keyboard_event_run. unfold key_action. rewrite Hs.
    cbn [Z.eqb negb andb]. apply String.eqb_neq in Hk. rewrite Hk. reflexivity.
  - rewrite handle_keyboard_event_run. unfold key_action.
    change (lower "Delete") with "delete"%string.
    change ("delete" =? "z")%string with false.
    change ("delete" =? "y")%string with false.
    change ("delete" =? "a")%string with false.
    change ("delete" =? "d")%string with false.
    rewrite !andb_false_r, String.eqb_refl. reflexivity.
  - intros Hs. apply Z.eqb_neq in Hs.
    rewrite !handle_keyboard_event_run. unfold key_action. rewrite Hs.
    repeat split; reflexivity.
Qed.

Lemma py_index_None x l : x ∉ l -> py_index x l = None.
Proof.
  induction l as [|y l IH]; intros Hx; simpl; [reflexivity|].
  rewrite decide_False by (intros ->; apply Hx; by left).
  rewrite IH; [reflexivity|]. intros H. apply Hx. by right.
Qed.

Lemma indices_of_None sel l x : x ∈ sel -> x ∉ l -> indices_of sel l = None.
Proof.
  intros Hin Hx. induction sel as [|a sel IH]; [inversion Hin|].
  simpl. apply elem_of_cons in Hin as [<-|Hin].
  - by rewrite (py_index_None _ _ Hx).
  - destruct (py_index a l); [|reflexivity]. by rewrite (IH Hin).
Qed.

(** With a selected shape that is not in the collection,
    [delete_selected] raises ValueError and leaves the canvas as it was;
    [handle_keyboard_event] for the Delete key catches the exception and
    returns [None]. *)
Theorem delete_with_stale_selection_raises (c : Canvas) (shape : nat) (state : Z) :
  shape ∈ selected_shapes c -> shape ∉ shapes c ->
  delete_selected c = (Raise ValueError, c)
  ∧ handle_keyboard_event "Delete" state c = (Ok None, c).
Proof.
  intros Hin Hout.
  assert (H : delete_selected c = (Raise ValueError, c)).
  { unfold delete_selected. rewrite bind_gets.
    destruct (selected_shapes c) as [|s0 l0] eqn:Hsel; [inversion Hin|].
    cbv zeta. by rewrite (indices_of_None _ _ _ Hin Hout). }
  split; [exact H|].
  unfold handle_keyboard_event. cbv zeta.
  change (lower "Delete") with "delete"%string.
  change ("delete" =? "z")%string with false.
  change ("delete" =? "y")%string with false.
  change ("delete" =? "a")%string with false.
  change ("delete" =? "d")%string with false.
  rewrite !andb_false_r. rewrite String.eqb_refl.
  rewrite try_break. unfold exec. rewrite H. reflexivity.
Qed.

Lemma delete_with_stale_selection_raises_witness :
  let c := run undo_after_select DrawingCanvas_init in
  (0%nat ∈ selected_shapes c) ∧ (0%nat ∉ shapes c)
  ∧ delete_selected c = (Raise ValueError, c)
  ∧ handle_keyboard_event "Delete" 0 c = (Ok None, c).
Proof.
  cbv zeta. destruct undo_after_select_states as [Hs Hsel].
  assert (Hin : 0%nat ∈ selected_shapes (run undo_after_select DrawingCanvas_init)).
  { rewrite Hsel. by left. }
  assert (Hout : 0%nat ∉ shapes (run undo_after_select DrawingCanvas_init)).
  { rewrite Hs. apply not_elem_of_nil. }
  split; [exact Hin|]. split; [exact Hout|].
  apply (delete_with_stale_selection_raises _ 0%nat 0%Z Hin Hout).
Defined.

Lemma duplicate_each_run sel c :
  (∀ r, r ∈ sel -> (r < next_ref c)%nat) ->
  ∃ st', duplicate_each sel c
         = (Ok (seq (next_ref c) (length sel)),
            set_shapes (shapes c ++ seq (next_ref c) (length sel))
              (set_next_ref (next_ref c + length sel) (set_store st' c)))
         ∧ (∀ r, (r < next_ref c)%nat -> st' !!! r = store c !!! r)
         ∧ (∀ i r, sel !! i = Some r ->
                   st' !!! (next_ref c + i)%nat = duplicate (store c !!! r)).
Proof.
  revert c. induction sel as [|a sel IH]; intros c Hsel.
  - exists (store c). split; [|split].
    + simpl. unfold ret. rewrite app_nil_r, Nat.add_0_r. by destruct c.
    + done.
    + intros i r H. done.
  - set (n := next_ref c).
    set (c1 := set_shapes (shapes c ++ [n])
                 (set_next_ref (S n) (set_store (<[n := duplicate (shape_at c a)]> (store c)) c))).
    destruct (IH c1) as (st' & Hrun & Hold & Hnew).
    { intros r Hr. simpl. assert (r < next_ref c)%nat by (apply Hsel; by right). lia. }
    exists st'. split; [|split].
    + cbn [duplicate_each]. rewrite bind_gets.
      unfold new_shape at 1. unfold bind at 1. unfold shapes_append at 1.
      rewrite bind_modify. fold n. 
      change (set_shapes _ (set_next_ref (S n) _)) with c1.
      rewrite (bind_ok _ _ _ _ _ Hrun). unfold ret. simpl next_ref. simpl length.
      f_equal. simpl shapes. rewrite <- app_assoc. simpl app.
      replace (n + S (length sel))%nat with (S n + length sel)%nat by lia.
      reflexivity.
    + intros r Hr. rewrite Hold by (simpl; lia). simpl.
      apply lookup_total_insert_ne. fold n in Hr. lia.
    + intros i r Hi. destruct i as [|i]; simpl in Hi.
      * injection Hi as ->. rewrite Nat.add_0_r. rewrite Hold by (simpl; lia). simpl.
        apply lookup_total_insert_eq.
      * pose proof (Hnew i r Hi) as Hn. change (next_ref c1) with (S n) in Hn.
        replace (n + S i)%nat with (S n + i)%nat by lia.
        rewrite Hn. change (store c1) with (<[n := duplicate (shape_at c a)]> (store c)).
        f_equal.
        apply lookup_total_insert_ne.
        assert (r < next_ref c)%nat; [|fold n; lia].
        apply Hsel. right. by apply list_elem_of_lookup_2 in Hi.
Qed.

Lemma deselect_loop sel c :
  ∃ l, for_each sel (fun shape =>
         modify (fun c => if py_in shape (selected_shapes c)
                          then set_selected_shapes
                                 (default (selected_shapes c)
                                          (py_remove shape (selected_shapes c))) c
                          else c)) c
       = (Ok tt, set_selected_shapes l c).
Proof.
  revert c. induction sel as [|a sel IH]; intros c.
  - exists (selected_shapes c). simpl. unfold ret. by destruct c.
  - simpl. rewrite bind_modify.
    destruct (py_in a (selected_shapes c)).
    + destruct (IH (set_selected_shapes
                      (default (selected_shapes c) (py_remove a (selected_shapes c))) c))
        as [l Hl].
      exists l. rewrite Hl. reflexivity.
    + apply IH.
Qed.

(** [duplicate_selected] on a non-empty selection of existing objects
    returns normally, appends one new shape per selected shape to the
    collection, in the order of the selection, selects exactly the new
    shapes, makes each the copy (offset by 20 pixels) of its original, and
    leaves every existing shape as it was. *)
Theorem duplicate_selected_selects_copies (c : Canvas) :
  selected_shapes c ≠ [] ->
  (∀ shape, shape ∈ selected_shapes c -> (shape < next_ref c)%nat) ->
  let n := length (selected_shapes c) in
  ∃ c', duplicate_selected c = (Ok tt, c')
        ∧ shapes c' = shapes c ++ seq (next_ref c) n
        ∧ selected_shapes c' = seq (next_ref c) n
        ∧ next_ref c' = (next_ref c + n)%nat
        ∧ (∀ i shape, selected_shapes c !! i = Some shape ->
                      shape_at c' (next_ref c + i) = duplicate (shape_at c shape))
        ∧ (∀ shape, (shape < next_ref c)%nat -> shape_at c' shape = shape_at c shape).
Proof.
  intros Hne Hold. cbv zeta.
  unfold duplicate_selected. rewrite bind_gets.
  destruct (selected_shapes c) as [|s0 l0] eqn:Hsel; [done|]. rewrite <- Hsel in *. clear Hne.
  cbv zeta. unfold push_state. rewrite bind_modify.
  destruct (duplicate_each_run (selected_shapes c) (set_redo_stack [] c))
    as (st' & Hrun & Hkeep & Hnew); [exact Hold|].
  rewrite (bind_ok _ _ _ _ _ Hrun).
  match goal with
  | |- context [bind (for_each ?l ?b) ?k ?c0] =>
      destruct (deselect_loop l c0) as [l' Hl']; rewrite (bind_ok _ _ _ _ _ Hl')
  end.
  eexists. split; [reflexivity|].
  split; [reflexivity|]. split; [reflexivity|]. split; [reflexivity|].
  split.
  - intros i r Hi. apply (Hnew i r Hi).
  - intros r Hr. apply (Hkeep r Hr).
Qed.
Lemma duplicate_selected_selects_copies_witness :
  let c := drawn_and_selected in
  selected_shapes c ≠ []
  ∧ ∃ c', duplicate_selected c = (Ok tt, c')
          ∧ shapes c' = shapes c ++ seq (next_ref c) (length (selected_shapes c))
          ∧ selected_shapes c' = seq (next_ref c) (length (selected_shapes c))
          ∧ next_ref c' = (next_ref c + length (selected_shapes c))%nat
          ∧ (∀ i shape, selected_shapes c !! i = Some shape ->
                        shape_at c' (next_ref c + i) = duplicate (shape_at c shape))
          ∧ (∀ shape, (shape < next_ref c)%nat -> shape_at c' shape = shape_at c shape).
Proof.
  cbv zeta.
  assert (Hsel : selected_shapes drawn_and_selected = [0%nat]) by reflexivity.
  assert (Hnext : next_ref drawn_and_selected = 1%nat) by reflexivity.
  assert (Hne : selected_shapes drawn_and_selected ≠ []) by (rewrite Hsel; discriminate).
  split; [exact Hne|].
  apply (duplicate_selected_selects_copies drawn_and_selected Hne).
  intros shape H. rewrite Hsel in H. apply list_elem_of_singleton in H. subst shape.
  rewrite Hnext. lia.
Defined.

(** *** Gestures *)

Lemma get_snap_point_run x y c :
  get_snap_point x y c
  = (get_snap_point_of (snap_enabled c) (snap_types c) (map (shape_at c) (shapes c)) x y, c).
Proof. reflexivity. Qed.

(** [get_snap_point] leaves the canvas as it was, whether it returns or
    raises; a position it returns is within the snap distance of 10 pixels
    of the pointer; with snapping disabled it returns the pointer
    position. *)
Theorem get_snap_point_within_reach (c : Canvas) (x y : R) :
  snd (get_snap_point x y c) = c
  ∧ (∀ p, fst (get_snap_point x y c) = Ok p -> snap_dist x y p <= snap_distance)
  ∧ (snap_enabled c = false -> get_snap_point x y c = (Ok (x, y), c)).
Proof.
  rewrite get_snap_point_run. split; [reflexivity|]. split.
  - simpl fst. unfold get_snap_point_of.
    assert (Hself : snap_dist x y (x, y) <= snap_distance).
    { rewrite snap_dist_self. unfold snap_distance. lra. }
    destruct (snap_enabled c); simpl negb; cbv iota.
    + destruct (snap_points _ _) as [cands|e]; simpl obind; [|discriminate].
      intros p [= <-].
      pose proof (closest_spec x y cands) as Hs.
      destruct (closest x y cands None None) as [q|]; simpl default; [apply Hs|exact Hself].
    + intros p [= <-]. exact Hself.
  - intros Hoff. unfold get_snap_point_of. rewrite Hoff. reflexivity.
Qed.

Lemma on_click_drawing x y c snap :
  selected_shapes c = [] ->
  get_snap_point x y c = (Ok snap, c) ->
  ∀ make, constructor_for (mode c) = Some make ->
  on_click x y c = click_two_point make snap c.
Proof.
  intros Hsel Hsnap make Hmake. unfold on_click.
  rewrite (bind_ok _ _ _ _ _ Hsnap), bind_gets, Hsel.
  unfold constructor_for in Hmake.
  destruct (String.eqb (mode c) "line"); [by injection Hmake as <-|].
  destruct (String.eqb (mode c) "rectangle"); [by injection Hmake as <-|].
  destruct (String.eqb (mode c) "circle"); [by injection Hmake as <-|].
  discriminate.
Qed.

(** Two clicks in a two-point mode, nothing selected and no point pending:
    the first click keeps the snapped position, the second appends the
    shape the constructor of the mode builds from the two snapped
    positions with the current colour, width and style, records one
    [add_shape] entry, clears the redo stack and the pending point. *)
Theorem two_clicks_draw_one_shape
    (c : Canvas) (x1 y1 x2 y2 : R) (p1 p2 : point)
    (make : R -> R -> R -> R -> string -> Z -> Style -> Shape) :
  selected_shapes c = [] -> current_points c = [] ->
  constructor_for (mode c) = Some make ->
  get_snap_point x1 y1 c = (Ok p1, c) -> get_snap_point x2 y2 c = (Ok p2, c) ->
  let c1 := run [Button1 x1 y1] c in
  let c2 := run [Button1 x1 y1; Button1 x2 y2] c in
  current_points c1 = [p1] ∧ shapes c1 = shapes c
  ∧ shapes c2 = shapes c ++ [next_ref c]
  ∧ shape_at c2 (next_ref c)
    = make (fst p1) (snd p1) (fst p2) (snd p2)
           (current_color c) (current_width c) (current_style c)
  ∧ current_points c2 = []
  ∧ undo_stack c2 = undo_stack c ++ [op_add_shape (next_ref c)]
  ∧ redo_stack c2 = [].
Proof.
  intros Hsel Hpts Hmake Hs1 Hs2. cbv zeta.
  assert (H1 : exec (on_click x1 y1) c = set_current_points [p1] c).
  { unfold exec. rewrite (on_click_drawing x1 y1 c p1 Hsel Hs1 make Hmake).
    unfold click_two_point. rewrite bind_gets, Hpts. reflexivity. }
  assert (Hs2' : get_snap_point x2 y2 (set_current_points [p1] c)
                 = (Ok p2, set_current_points [p1] c)).
  { rewrite get_snap_point_run in Hs2 |- *. injection Hs2 as Hs2.
    cbn [snap_enabled snap_types shapes set_current_points].
    change (map (shape_at (set_current_points [p1] c)) (shapes c))
      with (map (shape_at c) (shapes c)).
    by rewrite Hs2. }
  assert (H2 : exec (on_click x2 y2) (set_current_points [p1] c)
               = set_current_points []
                   (set_redo_stack []
                      (set_undo_stack (undo_stack c ++ [op_add_shape (next_ref c)])
                         (set_shapes (shapes c ++ [next_ref c])
                            (set_next_ref (S (next_ref c))
                               (set_store
                                  (<[next_ref c := make (fst p1) (snd p1) (fst p2) (snd p2)
                                       (current_color c) (current_width c) (current_style c)]>
                                     (store c)) (set_current_points [p1] c))))))).
  { unfold exec.
    rewrite (on_click_drawing x2 y2 (set_current_points [p1] c) p2 Hsel Hs2' make Hmake).
    unfold click_two_point. rewrite bind_gets.
    cbn [current_points set_current_points]. destruct p1 as [a b]. reflexivity. }
  unfold run. cbn [fold_left dispatch]. rewrite H1, H2.
  split; [reflexivity|]. split; [reflexivity|]. split; [reflexivity|].
  split; [unfold shape_at; cbn [store set_current_points set_redo_stack set_undo_stack
                                set_shapes set_next_ref set_store];
          apply lookup_total_insert_eq|].
  done.
Qed.

Lemma two_clicks_draw_one_shape_witness :
  let c := DrawingCanvas_init in
  let c2 := run [Button1 100 100; Button1 200 200] c in
  selected_shapes c = [] ∧ current_points c = []
  ∧ constructor_for (mode c) = Some Line_init
  ∧ get_snap_point 100 100 c = (Ok (100, 100), c)
  ∧ get_snap_point 200 200 c = (Ok (200, 200), c)
  ∧ shapes c2 = [0%nat]
  ∧ shape_at c2 0 = Line_init 100 100 200 200 "black" 1 None
  ∧ current_points c2 = [].
Proof.
  cbv zeta. split; [reflexivity|]. split; [reflexivity|]. split; [reflexivity|].
  split; [reflexivity|]. split; [reflexivity|].
  destruct (two_clicks_draw_one_shape DrawingCanvas_init 100 100 200 200 (100, 100) (200, 200)
              Line_init eq_refl eq_refl eq_refl eq_refl eq_refl)
    as (_ & _ & H1 & H2 & H3 & _).
  split; [exact H1|]. split; [exact H2|exact H3].
Defined.

Lemma translate_translate dx dy dx' dy' s :
  translate dx' dy' (translate dx dy s) = translate (dx + dx') (dy + dy') s.
Proof.
  destruct s as [g col w st ps sel]. unfold translate, set_shape_points, set_geometry.
  destruct g; cbn [geometry color width style points is_selected].
  - f_equal; [f_equal; ring|].
    repeat (apply (f_equal2 cons); [apply (f_equal2 pair); ring|]). reflexivity.
  - f_equal; [f_equal; ring|].
    repeat (apply (f_equal2 cons); [apply (f_equal2 pair); ring|]). reflexivity.
  - f_equal; [f_equal; ring|].
    repeat (apply (f_equal2 cons); [apply (f_equal2 pair); ring|]). reflexivity.
  - f_equal. rewrite map_map. apply map_ext. intros [a b]. cbn [fst snd].
    apply (f_equal2 pair); ring.
Qed.

Lemma same_class_translate_both dx dy s t :
  same_class (translate dx dy s) (translate dx dy t) = same_class s t.
Proof.
  unfold same_class, translate. destruct s as [[] ? ? ? ? ?], t as [[] ? ? ? ? ?]; reflexivity.
Qed.

Lemma on_drag_moving c first rest lx ly x y :
  selected_shapes c = first :: rest ->
  last_x c = Some lx -> last_y c = Some ly ->
  is_resizing c = false -> selected_endpoint c = None ->
  (∀ shape, shape ∈ rest -> same_class (shape_at c first) (shape_at c shape) = true) ->
  on_drag x y c
  = (Ok tt, set_last_y (Some y)
              (set_last_x (Some x)
                 (set_store (update_all (translate (x - lx) (y - ly)) (first :: rest) (store c))
                            c))).
Proof.
  intros Hsel Hx Hy Hres Hep Hclass. unfold on_drag.
  rewrite bind_gets, Hsel, Hx, Hy, Hres, Hep. cbn [andb].
  rewrite (bool_decide_eq_false_2 (None ≠ None)) by (intros H; by apply H).
  rewrite andb_false_r.
  rewrite (bind_ok _ _ _ _ _ (move_shape_run c first rest _ _ Hsel Hclass)).
  reflexivity.
Qed.

(** During a drag of a selection without repetitions whose shapes are all
    of the class of the first one (no resize under way, no end point
    grabbed), two [on_drag] steps in a row leave every shape object as one
    step to the final position does, and remember the final position: the
    selection moves by the net displacement of the pointer. *)
Theorem drag_moves_by_net_displacement
    (c : Canvas) (first : nat) (rest : list nat) (lx ly xa ya xb yb : R) :
  selected_shapes c = first :: rest -> NoDup (first :: rest) ->
  last_x c = Some lx -> last_y c = Some ly ->
  is_resizing c = false -> selected_endpoint c = None ->
  (∀ shape, shape ∈ rest -> same_class (shape_at c first) (shape_at c shape) = true) ->
  let c2 := run [B1Motion xa ya; B1Motion xb yb] c in
  let c' := run [B1Motion xb yb] c in
  (∀ shape, shape_at c2 shape = shape_at c' shape)
  ∧ (∀ shape, shape_at c2 shape
              = if bool_decide (shape ∈ first :: rest)
                then translate (xb - lx) (yb - ly) (shape_at c shape)
                else shape_at c shape)
  ∧ last_x c2 = Some xb ∧ last_y c2 = Some yb
  ∧ shapes c2 = shapes c ∧ undo_stack c2 = undo_stack c.
Proof.
  intros Hsel Hnd Hx Hy Hres Hep Hclass. cbv zeta.
  unfold run. cbn [fold_left dispatch]. unfold exec.
  rewrite !(on_drag_moving c first rest lx ly _ _ Hsel Hx Hy Hres Hep Hclass). cbn [snd].
  set (c1 := set_last_y (Some ya) _).
  assert (Hat1 : ∀ r, shape_at c1 r
                      = if bool_decide (r ∈ first :: rest)
                        then translate (xa - lx) (ya - ly) (shape_at c r) else shape_at c r).
  { intros r. unfold shape_at, c1. cbn [store set_last_y set_last_x set_store].
    apply update_all_lookup_NoDup, Hnd. }
  rewrite (on_drag_moving c1 first rest xa ya xb yb Hsel eq_refl eq_refl Hres Hep).
  2:{ intros r Hr. rewrite !Hat1.
      rewrite (bool_decide_eq_true_2 (first ∈ first :: rest)) by (by left).
      rewrite (bool_decide_eq_true_2 (r ∈ first :: rest)) by (by right).
      rewrite same_class_translate_both. by apply Hclass. }
  cbn [snd].
  assert (Hat2 : ∀ r, shape_at (set_last_y (Some yb) (set_last_x (Some xb)
                         (set_store (update_all (translate (xb - xa) (yb - ya)) (first :: rest)
                                       (store c1)) c1))) r
                      = if bool_decide (r ∈ first :: rest)
                        then translate (xb - lx) (yb - ly) (shape_at c r) else shape_at c r).
  { intros r. unfold shape_at at 1. cbn [store set_last_y set_last_x set_store].
    rewrite (update_all_lookup_NoDup _ _ _ _ Hnd). fold (shape_at c1 r). rewrite Hat1.
    destruct (bool_decide (r ∈ first :: rest)); [|reflexivity].
    rewrite translate_translate. f_equal; ring. }
  split; [|split; [exact Hat2|done]].
  intros r. rewrite Hat2. unfold shape_at. cbn [store set_last_y set_last_x set_store].
  symmetry. apply update_all_lookup_NoDup, Hnd.
Qed.

Lemma drag_moves_by_net_displacement_witness :
  let c := two_lines_dragged in
  let c2 := run [B1Motion 130 90; B1Motion 110 120] c in
  let c' := run [B1Motion 110 120] c in
  selected_shapes c = [0%nat; 1%nat] ∧ last_x c = Some 100 ∧ last_y c = Some 100
  ∧ (∀ shape, shape_at c2 shape = shape_at c' shape)
  ∧ (∀ shape, shape_at c2 shape
              = if bool_decide (shape ∈ [0%nat; 1%nat])
                then translate (110 - 100) (120 - 100) (shape_at c shape)
                else shape_at c shape)
  ∧ last_x c2 = Some 110 ∧ last_y c2 = Some 120
  ∧ shapes c2 = shapes c ∧ undo_stack c2 = undo_stack c.
Proof.
  cbv zeta. split; [reflexivity|]. split; [reflexivity|]. split; [reflexivity|].
  apply (drag_moves_by_net_displacement two_lines_dragged 0 [1%nat] 100 100 130 90 110 120).
  - reflexivity.
  - exact two_lines_NoDup.
  - reflexivity.
  - reflexivity.
  - reflexivity.
  - reflexivity.
  - intros shape H. apply list_elem_of_singleton in H. subst shape. reflexivity.
Defined.

(** *** A rejected resize step with two rectangles selected *)
















(** *** Snapping after a drag of a line and a rectangle *)

Lemma line_canvas_by_clicks :
  run [Button1 100 300; Button1 200 400] DrawingCanvas_init = line_canvas.
Proof. reflexivity. Qed.

Lemma rect_right_constructed : Rectangle_init 300 100 400 200 "black" 1 None = rect_right.
Proof.
  unfold Rectangle_init, rect_right.
  rewrite !Rmin_left, !Rmax_right by lra. reflexivity.
Qed.

(** Right of the line of the snap test and above it no candidate is
    within reach. *)
Lemma line_canvas_no_snap x y c :
  snap_enabled c = true -> snap_types c = snap_types line_canvas ->
  map (shape_at c) (shapes c) = map (shape_at line_canvas) (shapes line_canvas) ->
  250 <= x -> y <= 250 ->
  get_snap_point x y c = (Ok (x, y), c).
Proof.
  intros Hen Ht Hs Hx Hy.
  assert (Hc : snap_points (snap_types c) (map (shape_at c) (shapes c))
               = Ok [(100, 300); (200, 400); ((100 + 200) / 2, (300 + 400) / 2)]).
  { rewrite Ht, Hs. exact line_canvas_candidates. }
  rewrite (get_snap_point_eval c _ _ _ Hen Hc).
  rewrite !closest_skip by (apply snap_dist_far; nra).
  reflexivity.
Qed.

Lemma line_and_rect_by_clicks :
  run [SetMode "rectangle"; Button1 300 100; Button1 400 200] line_canvas = line_and_rect.
Proof.
  unfold run. cbn [fold_left].
  set (c0 := exec (dispatch (SetMode "rectangle")) line_canvas).
  assert (H1 : exec (dispatch (Button1 300 100)) c0 = set_current_points [(300, 100)] c0).
  { unfold exec. cbn [dispatch]. unfold on_click.
    rewrite (bind_ok _ _ _ _ _ (line_canvas_no_snap 300 100 c0 eq_refl eq_refl eq_refl
                                  ltac:(lra) ltac:(lra))).
    reflexivity. }
  rewrite H1.
  unfold exec. cbn [dispatch]. unfold on_click.
  rewrite (bind_ok _ _ _ _ _ (line_canvas_no_snap 400 200 (set_current_points [(300, 100)] c0)
                                eq_refl eq_refl eq_refl ltac:(lra) ltac:(lra))).
  transitivity
    (mkCanvas (<[1%nat := Rectangle_init 300 100 400 200 "black" 1 None]>
                 (<[0%nat := Line_init 100 300 200 400 "black" 1 None]> ∅))
       2 [0%nat; 1%nat] [] "rectangle" "black" 1 None [] None false false None None None
       [op_add_shape 0; op_add_shape 1] [] true (mkSnapTypes true true true)); [reflexivity|].
  rewrite rect_right_constructed. reflexivity.
Qed.

Lemma line_and_rect_dragged_by_events :
  run [ControlA; B1Motion 150 350; B1Motion 160 360] line_and_rect = line_and_rect_dragged.
Proof.
  transitivity
    (mkCanvas
       (<[1%nat := mkShape (Rectangle (300 + (160 - 150)) (100 + (360 - 350))
                              (400 + (160 - 150)) (200 + (360 - 350))) "black" 1 None
                     [(300 + (160 - 150), 100 + (360 - 350));
                      (400 + (160 - 150), 200 + (360 - 350))] (Some true)]>
          (<[0%nat := mkShape (Line (100 + (160 - 150)) (300 + (360 - 350))
                                 (200 + (160 - 150)) (400 + (360 - 350))) "black" 1 None
                        [(100 + (160 - 150), 300 + (360 - 350));
                         (200 + (160 - 150), 400 + (360 - 350))] (Some true)]> ∅))
       2 [0%nat; 1%nat] [] "rectangle" "black" 1 None [0%nat; 1%nat] None false false None
       (Some 160) (Some 360) [op_add_shape 0; op_add_shape 1] []
       true (mkSnapTypes true true true)); [reflexivity|].
  replace (300 + (160 - 150)) with 310 by lra.
  replace (100 + (360 - 350)) with 110 by lra.
  replace (400 + (160 - 150)) with 410 by lra.
  replace (200 + (360 - 350)) with 210 by lra.
  replace (100 + (160 - 150)) with 110 by lra.
  replace (300 + (360 - 350)) with 310 by lra.
  replace (200 + (160 - 150)) with 210 by lra.
  replace (400 + (360 - 350)) with 410 by lra.
  reflexivity.
Qed.

Lemma line_and_rect_dragged_reached :
  run draw_mixed_select_drag DrawingCanvas_init = line_and_rect_dragged.
Proof.
  change draw_mixed_select_drag
    with ([Button1 100 300; Button1 200 400]
          ++ ([SetMode "rectangle"; Button1 300 100; Button1 400 200]
              ++ [ControlA; B1Motion 150 350; B1Motion 160 360])).
  rewrite run_app, line_canvas_by_clicks, run_app, line_and_rect_by_clicks.
  apply line_and_rect_dragged_by_events.
Qed.

(** A rectangle whose [points] has two elements has no list of edges:
    the second edge reads [points[2]]. *)
Lemma two_point_rectangle_has_no_lines x1 y1 x2 y2 color width style p0 p1 sel :
  get_shape_lines (mkShape (Rectangle x1 y1 x2 y2) color width style [p0; p1] sel)
  = Raise IndexError.
Proof. reflexivity. Qed.

(** C7: [get_snap_point] raises on a canvas the user can reach with
    snapping enabled.  Draw the line (100,300)-(200,400) and the rectangle
    (300,100)-(400,200), select both with Ctrl+A and drag by (10,10):
    [move_shape] takes the branch of the first selected shape, a line, and
    leaves the rectangle with a [points] list of two elements.  From then on
    [get_shape_lines] raises IndexError on the rectangle, and with it
    [get_snap_point] for every pointer position and the handlers of pointer
    motion and of a click. *)
Theorem get_snap_point_raises_after_mixed_drag :
  let c := run draw_mixed_select_drag DrawingCanvas_init in
  reachable c
  ∧ snap_enabled c = true
  ∧ map (shape_at c) (shapes c) = [line_dragged; rect_dragged_as_line]
  ∧ get_shape_lines rect_dragged_as_line = Raise IndexError
  ∧ (∀ x y, get_snap_point x y c = (Raise IndexError, c))
  ∧ (∀ x y, dispatch (Motion x y) c = (Raise IndexError, c))
  ∧ (∀ x y, dispatch (Button1 x y) c = (Raise IndexError, c)).
Proof.
  cbv zeta.
  assert (Hreach : reachable (run draw_mixed_select_drag DrawingCanvas_init))
    by (by exists draw_mixed_select_drag).
  rewrite line_and_rect_dragged_reached in *.
  split; [exact Hreach|]. split; [reflexivity|]. split; [reflexivity|].
  split; [reflexivity|].
  assert (Hsnap : ∀ x y, get_snap_point x y line_and_rect_dragged
                         = (Raise IndexError, line_and_rect_dragged))
    by (intros x y; reflexivity).
  split; [exact Hsnap|]. split.
  - intros x y. cbn [dispatch]. unfold on_motion, bind. by rewrite Hsnap.
  - intros x y. cbn [dispatch]. unfold on_click, bind. by rewrite Hsnap.
Qed.

End CanvasSpec.

(** ** The intersection functions over binary64 numbers *)

Module Binary64Spec.
Import PrimFloat Canvas Binary64.
Local Open Scope float_scope.

(** In binary64 the point that [get_line_line_intersection] returns depends
    on the order of the two segments: for the segments (0,0)-(3,1) and
    (1,-1)-(1,2), which cross at (1, 1/3), the two orders give second
    coordinates that differ in the last bit (0.3333333333333333 and
    0.33333333333333326). *)
Theorem segment_intersection_depends_on_order_in_binary64 :
  get_line_line_intersection_binary64 ((0, 0), (3, 1)) ((1, -1), (1, 2))
  = [(1, 0x1.5555555555555p-2)]
  ∧ get_line_line_intersection_binary64 ((1, -1), (1, 2)) ((0, 0), (3, 1))
    = [(1, 0x1.5555555555554p-2)]
  ∧ get_line_line_intersection_binary64 ((0, 0), (3, 1)) ((1, -1), (1, 2))
    ≠ get_line_line_intersection_binary64 ((1, -1), (1, 2)) ((0, 0), (3, 1)).
Proof.
  assert (H1 : get_line_line_intersection_binary64 ((0, 0), (3, 1)) ((1, -1), (1, 2))
               = [(1, 0x1.5555555555555p-2)]) by (vm_compute; reflexivity).
  assert (H2 : get_line_line_intersection_binary64 ((1, -1), (1, 2)) ((0, 0), (3, 1))
               = [(1, 0x1.5555555555554p-2)]) by (vm_compute; reflexivity).
  split; [exact H1|]. split; [exact H2|].
  rewrite H1, H2. intros H.
  pose proof (f_equal (fun l : list fpoint =>
                         match l with
                         | (_, y) :: _ => y <? 0x1.5555555555555p-2
                         | [] => false
                         end) H) as E.
  vm_compute in E. discriminate E.
Qed.

(** In binary64 the circles with centre (100,100) through (115,125) and
    with centre (121,135) through (127,145), which touch (radii 5 sqrt 34
    and 2 sqrt 34, centres 7 sqrt 34 apart), miss the test [d == r1 + r2]:
    [d] is below [r1 + r2], the argument of [math.acos] is the number next
    above 1, and [get_circle_circle_intersection] raises ValueError, for
    every [math.acos] that raises ValueError above 1. *)
Theorem touching_circles_raise_in_binary64
    (math_acos : float -> outcome float) (math_atan2 : float -> float -> float)
    (math_cos math_sin : float -> float) :
  (∀ v, (1 <? v) = true -> math_acos v = Raise ValueError) ->
  let r1 := Circle_radius_binary64 100 100 115 125 in
  let r2 := Circle_radius_binary64 121 135 127 145 in
  let d := sqrt ((121 - 100) * (121 - 100) + (135 - 100) * (135 - 100)) in
  (d <? r1 + r2) = true
  ∧ (r1 * r1 + d * d - r2 * r2) / (2 * r1 * d) = 0x1.0000000000001p+0
  ∧ get_circle_circle_intersection_binary64 math_acos math_atan2 math_cos math_sin
      100 100 r1 121 135 r2 = Raise ValueError.
Proof.
  intros Hacos. cbv zeta.
  split; [vm_compute; reflexivity|].
  split; [vm_compute; reflexivity|].
  unfold get_circle_circle_intersection_binary64. vm_compute.
  rewrite Hacos by reflexivity. reflexivity.
Qed.

Lemma touching_circles_raise_in_binary64_witness :
  let math_acos := fun v : float =>
    if (1 <? v) || (v <? -1) then Raise ValueError else Ok 0 in
  (∀ v, (1 <? v) = true -> math_acos v = Raise ValueError)
  ∧ get_circle_circle_intersection_binary64 math_acos (fun _ _ => 0) (fun _ => 0) (fun _ => 0)
      100 100 (Circle_radius_binary64 100 100 115 125)
      121 135 (Circle_radius_binary64 121 135 127 145) = Raise ValueError.
Proof.
  cbv zeta.
  assert (H : ∀ v, (1 <? v) = true ->
                   (if (1 <? v) || (v <? -1) then Raise ValueError else Ok 0)
                   = (Raise ValueError : outcome float)).
  { intros v Hv. rewrite Hv. reflexivity. }
  split; [exact H|].
  apply (touching_circles_raise_in_binary64
           (fun v : float => if (1 <? v) || (v <? -1) then Raise ValueError else Ok 0)
           (fun _ _ => 0) (fun _ => 0) (fun _ => 0) H).
Defined.

End Binary64Spec.
